(** * log4cpp: TimestampedRollingFileAppender

    A shallow embedding of [src/TimestampedRollingFileAppender.cpp], of the
    inline members of [TimestampedRollingFileAppender.hh] and of
    [getThreadId] of [src/PThreads.cpp].

    - [std::string] is a [list ascii]; indices and sizes are [nat].
    - [std::int64_t], [std::int32_t], [int] and [std::time_t] are [Z]; where the
      source narrows or can overflow, the two's-complement wrap-around is
      written out with [wrap32] and [wrap64].
    - a C++ exception is the [Throw] constructor of [result].
    - system calls are answered by an oracle ([Env]); the calls issued, the
      diagnostics printed and [errno] are threaded through a state monad. *)

From Stdlib Require Import Ascii String.
From Stdlib Require Import ZArith List Lia Bool Arith.
From Stdlib Require Import Sorted Permutation.
Import ListNotations.

(** ** C++ library layer *)

Module Cxx.

(** [std::string] as the sequence of its bytes. *)
Definition cstring : Type := list ascii.

(** A literal. *)
Definition str (s : string) : cstring := list_ascii_of_string s.

Definition code (c : ascii) : Z := Z.of_N (N_of_ascii c).

Definition chr_eqb (a b : ascii) : bool := Ascii.eqb a b.

(** [::isdigit] in the "C" locale. *)
Definition isdigit (c : ascii) : bool :=
  (48 <=? code c)%Z && (code c <=? 57)%Z.

(** [::isspace] in the "C" locale: space, \t, \n, \v, \f, \r. *)
Definition isspace (c : ascii) : bool :=
  (code c =? 32)%Z || ((9 <=? code c)%Z && (code c <=? 13)%Z).

(** [c - '0'] *)
Definition digit_val (c : ascii) : Z := (code c - 48)%Z.

(** [s[i]]; reading at [size()] gives the terminating NUL. *)
Definition at_ (s : cstring) (i : nat) : ascii := nth i s Ascii.zero.

(** The iterator range [[s.begin() + a, s.begin() + b)]. *)
Definition range (s : cstring) (a b : nat) : cstring :=
  firstn (b - a) (skipn a s).

(** [std::all_of(first, last, p)] *)
Definition all_of (p : ascii -> bool) (s : cstring) : bool := forallb p s.

(** C++ exceptions that the appender's helpers throw. *)
Inductive exn : Type :=
| invalid_argument
| out_of_range
| overflow_error
| runtime_error.

Inductive result (A : Type) : Type :=
| Ok (a : A)
| Throw (e : exn).
Arguments Ok {A} a.
Arguments Throw {A} e.

Definition rbind {A B} (r : result A) (k : A -> result B) : result B :=
  match r with
  | Ok a => k a
  | Throw e => Throw e
  end.

(** [s.substr(pos, n)]: throws when [pos > size()], clamps [n]. *)
Definition substr (s : cstring) (pos n : nat) : result cstring :=
  if (length s <? pos)%nat then Throw out_of_range
  else Ok (firstn n (skipn pos s)).

(** [s.substr(pos, n)] at a position the caller has already bounded. *)
Definition substr_in (s : cstring) (pos n : nat) : cstring :=
  firstn n (skipn pos s).

(** [s.find(c) != npos] *)
Definition contains (c : ascii) (s : cstring) : bool :=
  existsb (chr_eqb c) s.

(** [s.find_last_of(set)]: the last position holding a character of [set]. *)
Fixpoint find_last_of (set : cstring) (s : cstring) : option nat :=
  match s with
  | [] => None
  | c :: s' =>
      match find_last_of set s' with
      | Some p => Some (S p)
      | None => if contains c set then Some 0%nat else None
      end
  end.

(** Two's-complement narrowing to [w] bits. *)
Definition wrap (w : Z) (x : Z) : Z :=
  ((x + 2 ^ (w - 1)) mod 2 ^ w - 2 ^ (w - 1))%Z.

Definition wrap32 : Z -> Z := wrap 32.
Definition wrap64 : Z -> Z := wrap 64.

Definition INT32_MAX : Z := 2147483647.
Definition INT64_MAX : Z := 9223372036854775807.
Definition INT64_MIN : Z := (-9223372036854775808)%Z.

(** *** [sscanf] and [std::stoi] *)

Fixpoint skip_ws (s : cstring) : cstring :=
  match s with
  | c :: s' => if isspace c then skip_ws s' else s
  | [] => []
  end.

(** Up to [w] decimal digits: the value, how many were read, and the rest. *)
Fixpoint scan_digits (w : nat) (acc : Z) (n : nat) (s : cstring)
  : Z * nat * cstring :=
  match w, s with
  | S w', c :: s' =>
      if isdigit c then scan_digits w' (acc * 10 + digit_val c)%Z (S n) s'
      else (acc, n, s)
  | _, _ => (acc, n, s)
  end.

(** The conversion [%<w>d]: leading white space is skipped and is not
    counted; an optional sign is counted in the field width; at least one
    digit is needed. *)
Definition scan_d (w : nat) (s : cstring) : option (Z * cstring) :=
  let s0 := skip_ws s in
  let '(neg, w1, s1) :=
    match w, s0 with
    | S w', c :: s' =>
        if chr_eqb c "-" then (true, w', s')
        else if chr_eqb c "+" then (false, w', s')
        else (false, w, s0)
    | _, _ => (false, w, s0)
    end in
  let '(v, n, rest) := scan_digits w1 0 0 s1 in
  match n with
  | O => None
  | S _ => Some (if neg then (- v)%Z else v, rest)
  end.

(** An ordinary character of the format. *)
Definition scan_lit (c : ascii) (s : cstring) : option cstring :=
  match s with
  | c' :: s' => if chr_eqb c c' then Some s' else None
  | [] => None
  end.

(** [std::stoi(s)]: [strtol] in base 10, [invalid_argument] when nothing was
    converted, [out_of_range] outside [int]. Trailing characters are ignored. *)
Definition stoi (s : cstring) : result Z :=
  match scan_d (length s) s with
  | None => Throw invalid_argument
  | Some (v, _) =>
      if ((v <? - INT32_MAX - 1) || (INT32_MAX <? v))%Z then Throw out_of_range
      else Ok v
  end.

(** *** [<ctime>] *)

Record tm : Type := mk_tm {
  tm_sec : Z;
  tm_min : Z;
  tm_hour : Z;
  tm_mday : Z;
  tm_mon : Z;      (* 0-based *)
  tm_year : Z;     (* years since 1900 *)
  tm_gmtoff : Z    (* seconds east of UTC *)
}.

(** Days since 1970-01-01 of the proleptic Gregorian date [y]-[m]-[d],
    [m] in 1..12. *)
Definition days_from_civil (y m d : Z) : Z :=
  (let y' := if m <=? 2 then y - 1 else y in
   let era := y' / 400 in
   let yoe := y' - era * 400 in
   let mp := (m + 9) mod 12 in
   let doy := (153 * mp + 2) / 5 + d - 1 in
   let doe := yoe * 365 + yoe / 4 - yoe / 100 + doy in
   era * 146097 + doe - 719468)%Z.

(** The inverse: (year, month 1..12, day 1..31). *)
Definition civil_from_days (z : Z) : Z * Z * Z :=
  (let z' := z + 719468 in
   let era := z' / 146097 in
   let doe := z' - era * 146097 in
   let yoe := (doe - doe / 1460 + doe / 36524 - doe / 146096) / 365 in
   let y := yoe + era * 400 in
   let doy := doe - (365 * yoe + yoe / 4 - yoe / 100) in
   let mp := (5 * doy + 2) / 153 in
   let d := doy - (153 * mp + 2) / 5 + 1 in
   let m := if mp <? 10 then mp + 3 else mp - 9 in
   (if m <=? 2 then y + 1 else y, m, d))%Z.

(** [::timegm]: the fields are taken as UTC; an out-of-range month carries
    into the year, the other fields enter linearly. *)
Definition timegm (t : tm) : Z :=
  (let y := tm_year t + 1900 + tm_mon t / 12 in
   let m := tm_mon t mod 12 + 1 in
   (days_from_civil y m 1 + (tm_mday t - 1)) * 86400
   + tm_hour t * 3600 + tm_min t * 60 + tm_sec t)%Z.

(** [::gmtime] of [t], tagged with the zone offset [off]. *)
Definition broken_down (t off : Z) : tm :=
  (let days := t / 86400 in
   let rem := t mod 86400 in
   let '(y, m, d) := civil_from_days days in
   {| tm_sec := rem mod 60;
      tm_min := (rem / 60) mod 60;
      tm_hour := rem / 3600;
      tm_mday := d;
      tm_mon := m - 1;
      tm_year := y - 1900;
      tm_gmtoff := off |})%Z.

(** [std::localtime] in a zone whose offset at instant [t] is [gmtoff t]
    seconds east of UTC; NULL when the year does not fit [int]. *)
Definition localtime_in (gmtoff : Z -> Z) (t : Z) : option tm :=
  let b := broken_down (t + gmtoff t) (gmtoff t) in
  if ((- INT32_MAX - 1 <=? tm_year b) && (tm_year b <=? INT32_MAX))%Z
  then Some b else None.

(** Decimal digits of a non-negative number, most significant first. *)
Fixpoint digits_fuel (fuel : nat) (n : Z) (acc : cstring) : cstring :=
  match fuel with
  | O => acc
  | S f =>
      let acc' := ascii_of_N (Z.to_N (48 + n mod 10)) :: acc in
      if (n <? 10)%Z then acc' else digits_fuel f (n / 10)%Z acc'
  end.

Definition to_digits (n : Z) : cstring :=
  digits_fuel (S (Z.to_nat (Z.log2 n))) n [].

(** Zero-padded to at least [w] characters. *)
Definition pad0 (w : nat) (s : cstring) : cstring :=
  repeat "0"%char (w - length s) ++ s.

Definition fmt_num (w : nat) (n : Z) : cstring :=
  if (n <? 0)%Z then "-"%char :: pad0 (w - 1) (to_digits (- n))
  else pad0 w (to_digits n).

(** [%z]: [+hhmm] or [-hhmm]. *)
Definition fmt_z (off : Z) : cstring :=
  (let a := Z.abs off / 60 in
   (if off <? 0 then "-"%char else "+"%char)
     :: pad0 2 (to_digits (a / 60)) ++ pad0 2 (to_digits (a mod 60)))%Z.

(** [std::strftime(buf, max, "%Y%m%dT%H%M%S%z", &t)]: the bytes stored, or
    nothing (return value 0) when they do not fit with the NUL. The year is
    written in four digits, which is what the C library writes for the years
    1000 to 9999; the theorems that read the digits keep to 1970 to 9999. *)
Definition strftime_iso (max : nat) (t : tm) : cstring :=
  let out :=
    fmt_num 4 (tm_year t + 1900) ++ fmt_num 2 (tm_mon t + 1)
    ++ fmt_num 2 (tm_mday t) ++ "T"%char
    :: fmt_num 2 (tm_hour t) ++ fmt_num 2 (tm_min t) ++ fmt_num 2 (tm_sec t)
    ++ fmt_z (tm_gmtoff t) in
  if (length out <? max)%nat then out else [].

(** [std::to_string] of an integer. *)
Definition to_string (n : Z) : cstring :=
  if (n <? 0)%Z then "-"%char :: to_digits (- n) else to_digits n.

(** [std::lower_bound(first, last, v, comp)] with [comp a b := a.first <
    b.first]: the bisection of the library, [first] and [len] as indices. *)
Fixpoint lower_bound_loop {A} (fuel : nat) (key : A -> Z) (xs : list A)
  (v : Z) (first len : nat) : nat :=
  match fuel with
  | O => first
  | S fuel' =>
      match len with
      | O => first
      | S _ =>
          let half := Nat.div2 len in
          let middle := (first + half)%nat in
          match nth_error xs middle with
          | Some x =>
              if (key x <? v)%Z
              then lower_bound_loop fuel' key xs v (S middle) (len - half - 1)
              else lower_bound_loop fuel' key xs v first half
          | None => first
          end
      end
  end.

Definition lower_bound {A} (key : A -> Z) (xs : list A) (v : Z) : nat :=
  lower_bound_loop (length xs) key xs v 0 (length xs).

(** [std::sort] with the same comparison, as an insertion sort. The order
    [std::sort] gives to equal keys is unspecified; this is one of them. *)
Fixpoint insert_by {A} (key : A -> Z) (x : A) (xs : list A) : list A :=
  match xs with
  | [] => [x]
  | y :: ys => if (key y <=? key x)%Z then y :: insert_by key x ys
               else x :: xs
  end.

Fixpoint sort_by {A} (key : A -> Z) (xs : list A) : list A :=
  match xs with
  | [] => []
  | x :: xs' => insert_by key x (sort_by key xs')
  end.

End Cxx.

Import Cxx.

Declare Scope result_scope.
Delimit Scope result_scope with result.
Notation "x <- c1 ;; c2" := (rbind c1 (fun x => c2))
  (at level 61, c1 at next level, right associativity) : result_scope.

Open Scope result_scope.

(** ** Time and number utilities of the appender *)

(** [ConvertDatetimeIso8601ToTm]: [sscanf(s, "%4d%2d%2dT%2d%2d%2d", ...) == 6],
    then the year and the month are rebased. *)
Definition ConvertDatetimeIso8601ToTm (s : cstring) : result tm :=
  let fields :=
    match scan_d 4 s with
    | None => None
    | Some (year, s1) =>
    match scan_d 2 s1 with
    | None => None
    | Some (mon, s2) =>
    match scan_d 2 s2 with
    | None => None
    | Some (mday, s3) =>
    match scan_lit "T" s3 with
    | None => None
    | Some s4 =>
    match scan_d 2 s4 with
    | None => None
    | Some (hour, s5) =>
    match scan_d 2 s5 with
    | None => None
    | Some (min, s6) =>
    match scan_d 2 s6 with
    | None => None
    | Some (sec, _) => Some (year, mon, mday, hour, min, sec)
    end end end end end end end in
  match fields with
  | Some (year, mon, mday, hour, min, sec) =>
      Ok {| tm_sec := sec; tm_min := min; tm_hour := hour; tm_mday := mday;
            tm_mon := mon - 1; tm_year := year - 1900; tm_gmtoff := 0 |}
  | None => Throw invalid_argument
  end.

(** [ParseTimezoneOffset] *)
Definition ParseTimezoneOffset (s : cstring) : result Z :=
  if contains "Z" s then Ok 0%Z
  else
    match find_last_of (str "+-") s with
    | None => Ok 0%Z
    | Some pos =>
        let offsetStr := skipn pos s in
        h_str <- substr offsetStr 1 2 ;;
        hours <- stoi h_str ;;
        m_str <- substr offsetStr 4 2 ;;
        minutes <- stoi m_str ;;
        let offset := (hours * 3600 + minutes * 60)%Z in
        Ok (if chr_eqb (at_ offsetStr 0) "-" then (- offset)%Z else offset)
    end.

(** [ConvertDatetimeIso8601ToTimestamp] *)
Definition ConvertDatetimeIso8601ToTimestamp (s : cstring) : result Z :=
  t <- ConvertDatetimeIso8601ToTm s ;;
  let time := timegm t in
  offset <- ParseTimezoneOffset s ;;
  if negb (contains "Z" s) && negb (contains "+" s) && negb (contains "-" s)
  then Ok time
  else Ok (time - offset)%Z.

(** The loop of [ConvertStrToInt64]: [res = res * 10 + (c - '0')] in 64 bits,
    then the sign test. *)
Fixpoint ConvertStrToInt64_loop (res : Z) (s : cstring) : result Z :=
  match s with
  | [] => Ok res
  | c :: s' =>
      let res' := wrap64 (res * 10 + digit_val c) in
      if (res' <? 0)%Z then Throw overflow_error
      else ConvertStrToInt64_loop res' s'
  end.

(** [ConvertStrToInt64] *)
Definition ConvertStrToInt64 (s : cstring) : result Z :=
  match s with
  | [] => Throw invalid_argument
  | _ =>
      if negb (all_of isdigit s) then Throw invalid_argument
      else ConvertStrToInt64_loop 0 s
  end.

(** [RemoveChar]: the bytes other than [c] are moved to the front and a NUL
    is put after them. (When no byte is [c] that NUL lands one past the
    buffer the caller passes; the model keeps to the string.) *)
Definition RemoveChar (s : cstring) (c : ascii) : cstring :=
  filter (fun x => negb (chr_eqb x c)) s.

(** [ConvertTimeToIso8601], over the process's [std::localtime]. *)
Definition ConvertTimeToIso8601 (localtime : Z -> option tm) (timer : Z)
  : result cstring :=
  match localtime timer with
  | None => Ok []
  | Some buf =>
      match strftime_iso 40 buf with
      | [] => Throw runtime_error
      | out => Ok (RemoveChar out ":")
      end
  end.

(** [GetDatetimeStr] *)
Definition GetDatetimeStr (localtime : Z -> option tm) (timer : Z)
  : result cstring :=
  datetime_now_str <- ConvertTimeToIso8601 localtime timer ;;
  match datetime_now_str with
  | [] => Ok (to_string timer)
  | _ => Ok datetime_now_str
  end.

(** [SplitPathIntoDirAndFile]: (dir_path, file_name). *)
Definition SplitPathIntoDirAndFile (file_path : cstring) : cstring * cstring :=
  match find_last_of (str "/") file_path with
  | None => (str ".", file_path)
  | Some pos => (firstn pos file_path, skipn (S pos) file_path)
  end.

(** [GenerateLockFilePath] *)
Definition GenerateLockFilePath (file_path : cstring) : cstring :=
  let '(dir, file) := SplitPathIntoDirAndFile file_path in
  dir ++ str "/." ++ file ++ str ".lock".

(** ** Suffix classifier *)

(** [ExtractDatetimeIso8601]; the empty string is "no match". *)
Definition ExtractDatetimeIso8601 (s : cstring) : cstring :=
  if (length s <? 17)%nat || negb (chr_eqb (at_ s 0) ".")
     || negb (all_of isdigit (range s 1 9))
  then []
  else if negb (chr_eqb (at_ s 9) "T")
          || negb (all_of isdigit (range s 10 16))
  then []
  else
    let end_char := at_ s 16 in
    if chr_eqb end_char "Z" then
      if (length s =? 17)%nat
         || ((17 <? length s)%nat && chr_eqb (at_ s 17) ".")
      then substr_in s 1 16 else []
    else if chr_eqb end_char "+" || chr_eqb end_char "-" then
      if (length s <? 21)%nat || negb (all_of isdigit (range s 17 21))
      then []
      else if (length s =? 21)%nat
              || ((21 <? length s)%nat && chr_eqb (at_ s 21) ".")
      then substr_in s 1 20 else []
    else [].

(** The [while] loop of [ExtractDigits]: how far the digits reach from [i]. *)
Fixpoint digit_run (s : cstring) (i : nat) : nat :=
  match s with
  | c :: s' => if isdigit c then digit_run s' (S i) else i
  | [] => i
  end.

(** [ExtractDigits] *)
Definition ExtractDigits (s : cstring) : cstring :=
  if (length s <? 1)%nat || negb (chr_eqb (at_ s 0) ".") then []
  else
    let i := digit_run (skipn 1 s) 1 in
    let count := wrap32 (Z.of_nat i - 1) in
    if (count <? 8)%Z then []
    else if (length s <=? i)%nat then skipn 1 s
    else if negb (chr_eqb (at_ s i) ".") then []
    else substr_in s 1 (i - 1).

(** [catch (const std::exception &)] around a conversion. *)
Definition catch_all {A} (r : result A) : option A :=
  match r with
  | Ok a => Some a
  | Throw _ => None
  end.

Definition is_empty (s : cstring) : bool :=
  match s with [] => true | _ => false end.

(** [ExtractTimestamp]: [Some t] is "returned true with timestamp = t". *)
Definition ExtractTimestamp (s : cstring) : option Z :=
  if is_empty s then None
  else
    let matched_str := ExtractDatetimeIso8601 s in
    if negb (is_empty matched_str)
    then catch_all (ConvertDatetimeIso8601ToTimestamp matched_str)
    else
      let matched_str := ExtractDigits s in
      if negb (is_empty matched_str)
      then catch_all (ConvertStrToInt64 matched_str)
      else None.

(** [ExtractDigits1] *)
Definition ExtractDigits1 (s : cstring) : cstring :=
  if (length s <=? 1)%nat || negb (chr_eqb (at_ s 0) ".") then []
  else if all_of isdigit (skipn 1 s) then skipn 1 s
  else [].

(** [ExtractIndex] *)
Definition ExtractIndex (s : cstring) : option Z :=
  if is_empty s then None
  else
    let matched_str := ExtractDigits1 s in
    if negb (is_empty matched_str)
    then catch_all (ConvertStrToInt64 matched_str)
    else None.

(** The three recognisers as rules. *)
Inductive rule : Type := rule_iso8601 | rule_epoch | rule_legacy.

Definition rule_matches (r : rule) (s : cstring) : bool :=
  match r with
  | rule_iso8601 => negb (is_empty (ExtractDatetimeIso8601 s))
  | rule_epoch => negb (is_empty (ExtractDigits s))
  | rule_legacy => negb (is_empty (ExtractDigits1 s))
  end.

Inductive classification : Type :=
| cls_iso8601 (timestamp : Z)
| cls_epoch (timestamp : Z)
| cls_legacy
| cls_none.

(** What [HandleBackupLogFile] makes of a suffix: [ExtractTimestamp] first,
    [ExtractIndex] only when that returned false. *)
Definition classify (s : cstring) : classification :=
  match ExtractTimestamp s with
  | Some t =>
      if rule_matches rule_iso8601 s then cls_iso8601 t else cls_epoch t
  | None =>
      match ExtractIndex s with
      | Some _ => cls_legacy
      | None => cls_none
      end
  end.

(** ** Retention *)

(** An element of [time_based_file_paths]: <timestamp, file_path>. *)
Abbreviation entry := (Z * cstring)%type (only parsing).

(** The index computed by [rollOver] on the sorted entries:
    [[0, lower_bound)] is deleted. *)
Definition retention_lower_bound (maxBackupCount maxBackupDays now : Z)
  (paths : list entry) : Z :=
  let size := Z.of_nat (length paths) in
  let lb0 := 0%Z in
  let lb1 :=
    if (maxBackupCount >=? 0)%Z
    then Z.max lb0 (Z.max 0 (wrap32 (wrap32 size - maxBackupCount)))
    else lb0 in
  if (maxBackupDays >=? 0)%Z then
    let threshold := wrap64 (now - wrap64 (maxBackupDays * 24 * 60 * 60)) in
    let it := lower_bound fst paths threshold in
    if negb (it =? length paths)%nat
    then Z.max lb1 (wrap32 (Z.of_nat it))
    else wrap32 size
  else lb1.

(** The paths handed to [::unlink], in order. *)
Definition paths_to_unlink (lb : Z) (paths : list entry) : list cstring :=
  map snd (firstn (Z.to_nat lb) paths).

(** The entries that are left. *)
Definition paths_retained (lb : Z) (paths : list entry) : list entry :=
  skipn (Z.to_nat lb) paths.

Close Scope result_scope.

(** ** The operating system *)

(** A system call fails with an [errno] value, which is never 0, or
    succeeds with a value. *)
Inductive outcome (A : Type) : Type :=
| failed (e : positive)
| done (a : A).
Arguments failed {A} e.
Arguments done {A} a.

Record dirent : Type := mk_dirent {
  d_is_reg : bool;      (* d_type == DT_REG *)
  d_name : cstring
}.

(** What [readdir] will hand out: the entries, then NULL, either at the end
    of the directory ([None], [errno] untouched) or on an error. *)
Definition dirstream : Type := (list dirent * option positive)%type.

(** What the injected compressor did: its return value, the string it left
    in [compressed_file_path], and the [errno] it may have set. *)
Record compressed : Type := mk_compressed {
  cr_ok : bool;
  cr_path : cstring;
  cr_errno : option positive
}.

Inductive flock_op : Type := LOCK_EX | LOCK_UN.

(** The answers of the system; the first argument counts the calls made so
    far, so that the same call can be answered differently each time. *)
Record Env : Type := mk_Env {
  os_time : nat -> Z;
  os_localtime : Z -> option tm;
  os_lseek : nat -> Z -> outcome N;
  os_open : nat -> cstring -> outcome N;
  os_close : nat -> Z -> outcome unit;
  os_flock : nat -> Z -> flock_op -> outcome unit;
  os_rename : nat -> cstring -> cstring -> outcome unit;
  os_unlink : nat -> cstring -> outcome unit;
  os_remove : nat -> cstring -> outcome unit;
  os_stat : nat -> cstring -> outcome (bool * Z);   (* S_ISREG, st_mtime *)
  os_opendir : nat -> cstring -> outcome dirstream
}.

Inductive diag : Type :=
| Could_not_open_lock_file (p : cstring)
| Could_not_lock (p : cstring)
| Could_not_unlock (p : cstring)
| Could_not_close_lock_fd (fd : Z)
| Could_not_close_file (p : cstring)
| Could_not_open_file (p : cstring)
| Could_not_rename_file (from to : cstring)
| Could_not_stat_file (p : cstring)
| Could_not_opendir (p : cstring)
| Could_not_readdir (p : cstring)
| Could_not_extract_timestamp (p : cstring)
| Could_not_extract_index (p : cstring)
| Could_not_get_last_modified (p : cstring)
| Could_not_compress (from to : cstring)
| Could_not_remove_compressed (p : cstring)
| Could_not_remove_log (p : cstring).

(** What the process does that can be seen from outside. *)
Inductive event : Type :=
| ev_time
| ev_lseek (fd : Z)
| ev_open (p : cstring)
| ev_close (fd : Z)
| ev_flock (fd : Z) (op : flock_op)
| ev_rename (from to : cstring)
| ev_unlink (p : cstring)
| ev_remove (p : cstring)
| ev_stat (p : cstring)
| ev_opendir (p : cstring)
| ev_readdir
| ev_closedir
| ev_compress (p : cstring)
| ev_cerr (d : diag)
| ev_base_append.      (* FileAppender::_append(event) *)

(** The mutable part: the appender's [_fd], [errno], the number of calls
    answered so far and the events so far, oldest first. *)
Record state : Type := mk_state {
  st_fd : Z;
  st_errno : Z;
  st_tick : nat;
  st_trace : list event
}.

(** A computation that may throw. *)
Definition M (A : Type) : Type := state -> result A * state.

Definition ret {A} (a : A) : M A := fun st => (Ok a, st).

Definition throw {A} (e : exn) : M A := fun st => (Throw e, st).

Definition bind {A B} (m : M A) (k : A -> M B) : M B :=
  fun st =>
    match m st with
    | (Ok a, st') => k a st'
    | (Throw e, st') => (Throw e, st')
    end.

Declare Scope sys_scope.
Delimit Scope sys_scope with sys.
Notation "x <- c1 ;; c2" := (bind c1 (fun x => c2))
  (at level 61, c1 at next level, right associativity) : sys_scope.
Notation "c1 ;; c2" := (bind c1 (fun _ => c2))
  (at level 61, right associativity) : sys_scope.
Open Scope sys_scope.

(** A throwing helper called from stateful code. *)
Definition lift {A} (r : result A) : M A := fun st => (r, st).

Definition emit (ev : event) : M unit :=
  fun st => (Ok tt, mk_state (st_fd st) (st_errno st) (st_tick st)
                             (st_trace st ++ [ev])).

(** A line on [std::cerr]. The write is taken to succeed: it leaves [errno]
    as it is. *)
Definition cerr (d : diag) : M unit := emit (ev_cerr d).

Definition set_errno (e : Z) : M unit :=
  fun st => (Ok tt, mk_state (st_fd st) e (st_tick st) (st_trace st)).

Definition get_errno : M Z := fun st => (Ok (st_errno st), st).

Definition set_fd (fd : Z) : M unit :=
  fun st => (Ok tt, mk_state fd (st_errno st) (st_tick st) (st_trace st)).

Definition get_fd : M Z := fun st => (Ok (st_fd st), st).

(** One call into the system: the event is recorded, the oracle answers,
    a failure stores its [errno], a success leaves [errno] alone. *)
Definition syscall {A} (ev : event) (answer : nat -> outcome A)
  : M (outcome A) :=
  fun st =>
    let r := answer (st_tick st) in
    (Ok r,
     mk_state (st_fd st)
              (match r with failed e => Z.pos e | done _ => st_errno st end)
              (S (st_tick st))
              (st_trace st ++ [ev])).

(** [std::time(nullptr)] *)
Definition GetCurrentTimestampInSeconds (env : Env) : M Z :=
  fun st =>
    (Ok (os_time env (st_tick st)),
     mk_state (st_fd st) (st_errno st) (S (st_tick st))
              (st_trace st ++ [ev_time])).

(** The return value of a call that gives a descriptor or an offset:
    -1 on failure. *)
Definition int_of (r : outcome N) : Z :=
  match r with
  | failed _ => (-1)%Z
  | done n => Z.of_N n
  end.

(** "Returned non-zero." *)
Definition is_failed {A} (r : outcome A) : bool :=
  match r with
  | failed _ => true
  | done _ => false
  end.

(** ** The appender *)

(** The members fixed at construction. [_fileName], [_flags] and [_mode]
    belong to [FileAppender]; the flags and the mode only travel to
    [::open]. *)
Record appender : Type := mk_appender {
  _fileName : cstring;
  _maxFileSize : Z;
  _maxBackupCount : Z;
  _maxBackupDays : Z;
  _lockFilePath : cstring;
  _compressFunc : option (nat -> cstring -> compressed)
}.

Fixpoint cstring_eqb (a b : cstring) : bool :=
  match a, b with
  | [], [] => true
  | x :: a', y :: b' => chr_eqb x y && cstring_eqb a' b'
  | _, _ => false
  end.

(** Modelled from the spec: [FileAppender::_append] is not among the sources;
    the spec has the base file appender append the formatted record bytes. It
    is recorded as one event. *)
Definition FileAppender_append : M unit := emit ev_base_append.

(** [GetLastModifiedTimestamp] *)
Definition GetLastModifiedTimestamp (env : Env) (file_path : cstring) : M Z :=
  r <- syscall (ev_stat file_path) (fun n => os_stat env n file_path) ;;
  match r with
  | failed _ => cerr (Could_not_stat_file file_path) ;; ret (-1)%Z
  | done (_, mtime) => ret mtime
  end.

(** [ExistRegularFile] *)
Definition ExistRegularFile (env : Env) (file_path : cstring) : M bool :=
  if is_empty file_path then ret false
  else
    r <- syscall (ev_stat file_path) (fun n => os_stat env n file_path) ;;
    match r with
    | failed _ => throw runtime_error
    | done (is_reg, _) => ret is_reg
    end.

(** Calling [_compressFunc]. *)
Definition call_compress (f : nat -> cstring -> compressed)
  (log_file_path : cstring) : M (bool * cstring) :=
  fun st =>
    let c := f (st_tick st) log_file_path in
    (Ok (cr_ok c, cr_path c),
     mk_state (st_fd st)
              (match cr_errno c with Some e => Z.pos e | None => st_errno st end)
              (S (st_tick st))
              (st_trace st ++ [ev_compress log_file_path])).

(** [CompressLog(log_file_path, compressed_file_path)]: the return value
    and [compressed_file_path] on return. *)
Definition CompressLog (env : Env) (app : appender) (log_file_path : cstring)
  : M (bool * cstring) :=
  match _compressFunc app with
  | None => ret (true, log_file_path)
  | Some f =>
      r <- call_compress f log_file_path ;;
      let '(ok, compressed_file_path) := r in
      if negb ok then
        cerr (Could_not_compress log_file_path compressed_file_path) ;;
        rm <- syscall (ev_remove compressed_file_path)
                      (fun n => os_remove env n compressed_file_path) ;;
        (if is_failed rm
         then cerr (Could_not_remove_compressed compressed_file_path)
         else ret tt) ;;
        ret (false, compressed_file_path)
      else
        rm <- syscall (ev_remove log_file_path)
                      (fun n => os_remove env n log_file_path) ;;
        (if is_failed rm then cerr (Could_not_remove_log log_file_path)
         else ret tt) ;;
        ret (true, compressed_file_path)
  end.

(** [HandleLegacyLogFile]: the return value, [timestamp] and
    [final_file_path]. *)
Definition HandleLegacyLogFile (env : Env) (app : appender)
  (file_path : cstring) : M (bool * Z * cstring) :=
  timestamp <- GetLastModifiedTimestamp env file_path ;;
  if (timestamp <? 0)%Z then
    cerr (Could_not_get_last_modified file_path) ;;
    ret (false, timestamp, [])
  else
    dt <- lift (GetDatetimeStr (os_localtime env) timestamp) ;;
    let new_file_path := _fileName app ++ str "." ++ dt in
    rn <- syscall (ev_rename file_path new_file_path)
                  (fun n => os_rename env n file_path new_file_path) ;;
    if is_failed rn then
      cerr (Could_not_rename_file file_path new_file_path) ;;
      ret (false, timestamp, [])
    else
      c <- CompressLog env app new_file_path ;;
      let '(ok, final_file_path) := c in
      ret (true, timestamp, if ok then final_file_path else new_file_path).

(** [HandleBackupLogFile] *)
Definition HandleBackupLogFile (env : Env) (app : appender)
  (file_name base_dir_path base_file_name : cstring)
  : M (bool * Z * cstring) :=
  if (length file_name <=? length base_file_name)%nat
     || negb (cstring_eqb (firstn (length base_file_name) file_name)
                          base_file_name)
  then ret (false, 0%Z, [])
  else
    let file_path := base_dir_path ++ str "/" ++ file_name in
    reg <- ExistRegularFile env file_path ;;
    if negb reg then ret (false, 0%Z, [])
    else
      let suffix := skipn (length base_file_name) file_name in
      match ExtractTimestamp suffix with
      | Some timestamp => ret (true, timestamp, file_path)
      | None =>
          cerr (Could_not_extract_timestamp file_path) ;;
          match ExtractIndex suffix with
          | Some _ => HandleLegacyLogFile env app file_path
          | None =>
              cerr (Could_not_extract_index file_path) ;;
              ret (false, 0%Z, [])
          end
      end.

(** The [while ((entry = ::readdir(dir)))] loop over the entries that
    [readdir] hands out, [res] being the vector so far. *)
Fixpoint readdir_loop (env : Env) (app : appender)
  (base_dir_path base_file_name : cstring) (entries : list dirent)
  (res : list entry) : M (list entry) :=
  match entries with
  | [] => ret res
  | entry :: rest =>
      emit ev_readdir ;;
      if negb (d_is_reg entry)
      then readdir_loop env app base_dir_path base_file_name rest res
      else if cstring_eqb (d_name entry) (str ".")
              || cstring_eqb (d_name entry) (str "..")
      then readdir_loop env app base_dir_path base_file_name rest res
      else
        h <- HandleBackupLogFile env app (d_name entry) base_dir_path
                                 base_file_name ;;
        let '(ok, timestamp, file_path) := h in
        readdir_loop env app base_dir_path base_file_name rest
                     (if ok then res ++ [(timestamp, file_path)] else res)
  end.

(** The [readdir] that returns NULL and ends the loop. *)
Definition readdir_end (stop : option positive) : M unit :=
  emit ev_readdir ;;
  match stop with
  | Some e => set_errno (Z.pos e)
  | None => ret tt
  end.

(** [FilterTimeBasedFilePaths] *)
Definition FilterTimeBasedFilePaths (env : Env) (app : appender)
  (base_file_path : cstring) : M (list entry) :=
  let '(base_dir_path, base_file_name) :=
    SplitPathIntoDirAndFile base_file_path in
  if is_empty base_file_name then ret []
  else
    d <- syscall (ev_opendir base_dir_path)
                 (fun n => os_opendir env n base_dir_path) ;;
    match d with
    | failed _ => cerr (Could_not_opendir base_dir_path) ;; ret []
    | done (entries, stop) =>
        set_errno 0 ;;
        res <- readdir_loop env app base_dir_path base_file_name entries [] ;;
        readdir_end stop ;;
        errno <- get_errno ;;
        res' <- (if negb (errno =? 0)%Z
                 then cerr (Could_not_readdir base_dir_path) ;; ret []
                 else ret res) ;;
        emit ev_closedir ;;
        ret res'
    end.

(** The [for] loop of [rollOver] over [[0, lower_bound)]. *)
Fixpoint unlink_all (env : Env) (paths : list cstring) : M unit :=
  match paths with
  | [] => ret tt
  | p :: rest =>
      syscall (ev_unlink p) (fun n => os_unlink env n p) ;;
      unlink_all env rest
  end.

(** [_fd = ::open(_fileName.c_str(), _flags, _mode)] and its diagnostic. *)
Definition reopen (env : Env) (app : appender) : M unit :=
  r <- syscall (ev_open (_fileName app))
               (fun n => os_open env n (_fileName app)) ;;
  set_fd (int_of r) ;;
  if is_failed r then cerr (Could_not_open_file (_fileName app)) else ret tt.

(** [rollOver] *)
Definition rollOver (env : Env) (app : appender) : M unit :=
  fd <- get_fd ;;
  cl <- syscall (ev_close fd) (fun n => os_close env n fd) ;;
  (if is_failed cl then cerr (Could_not_close_file (_fileName app))
   else ret tt) ;;
  now <- GetCurrentTimestampInSeconds env ;;
  datetime_now_str <- lift (GetDatetimeStr (os_localtime env) now) ;;
  let last_log_file_name := _fileName app ++ str "." ++ datetime_now_str in
  rn <- syscall (ev_rename (_fileName app) last_log_file_name)
                (fun n => os_rename env n (_fileName app) last_log_file_name) ;;
  (if is_failed rn
   then cerr (Could_not_rename_file (_fileName app) last_log_file_name)
   else ret tt) ;;
  CompressLog env app last_log_file_name ;;
  found <- FilterTimeBasedFilePaths env app (_fileName app) ;;
  let time_based_file_paths := sort_by fst found in
  now' <- (if (_maxBackupDays app >=? 0)%Z
           then GetCurrentTimestampInSeconds env else ret 0%Z) ;;
  let lower_bound :=
    retention_lower_bound (_maxBackupCount app) (_maxBackupDays app) now'
                          time_based_file_paths in
  unlink_all env (paths_to_unlink lower_bound time_based_file_paths) ;;
  reopen env app.

(** The body of the [do { ... } while (false)] of [_append]: the lock
    descriptor and whether the lock is held when the block is left. *)
Definition locked_block (env : Env) (app : appender) : M (Z * bool) :=
  lk <- syscall (ev_open (_lockFilePath app))
                (fun n => os_open env n (_lockFilePath app)) ;;
  let lock_fd := int_of lk in
  if (lock_fd <? 0)%Z then
    cerr (Could_not_open_lock_file (_lockFilePath app)) ;;
    ret (lock_fd, false)
  else
    fl <- syscall (ev_flock lock_fd LOCK_EX)
                  (fun n => os_flock env n lock_fd LOCK_EX) ;;
    if is_failed fl then
      cerr (Could_not_lock (_lockFilePath app)) ;;
      ret (lock_fd, false)
    else
      fd <- get_fd ;;
      (if (fd >=? 0)%Z then
         cl <- syscall (ev_close fd) (fun n => os_close env n fd) ;;
         if is_failed cl then cerr (Could_not_close_file (_fileName app))
         else ret tt
       else ret tt) ;;
      reopen env app ;;
      fd' <- get_fd ;;
      off <- syscall (ev_lseek fd') (fun n => os_lseek env n fd') ;;
      let offset := int_of off in
      (if (offset <? 0)%Z then ret tt
       else if (offset >=? _maxFileSize app)%Z then rollOver env app
       else ret tt) ;;
      ret (lock_fd, true).

(** [_append] *)
Definition _append (env : Env) (app : appender) : M unit :=
  fd <- get_fd ;;
  off <- syscall (ev_lseek fd) (fun n => os_lseek env n fd) ;;
  let offset := int_of off in
  (if (offset <? 0)%Z then ret tt
   else if (offset >=? _maxFileSize app)%Z then
     lb <- locked_block env app ;;
     let '(lock_fd, is_locked) := lb in
     if (lock_fd >=? 0)%Z then
       (if is_locked then
          ul <- syscall (ev_flock lock_fd LOCK_UN)
                        (fun n => os_flock env n lock_fd LOCK_UN) ;;
          if is_failed ul then cerr (Could_not_unlock (_lockFilePath app))
          else ret tt
        else ret tt) ;;
       cl <- syscall (ev_close lock_fd) (fun n => os_close env n lock_fd) ;;
       if is_failed cl then cerr (Could_not_close_lock_fd lock_fd)
       else ret tt
     else ret tt
   else ret tt) ;;
  FileAppender_append.

(** ** The specification's vocabulary *)

(** The value of a digit string read in base 10. *)
Definition decimal_from (acc : Z) (ds : cstring) : Z :=
  fold_left (fun acc c => (acc * 10 + digit_val c)%Z) ds acc.

Definition decimal (ds : cstring) : Z := decimal_from 0 ds.

(** [Z], or a sign and four digits. *)
Definition iso8601_zone (z : cstring) : Prop :=
  z = ["Z"%char] \/
  exists sign d4,
    (sign = "+"%char \/ sign = "-"%char) /\ length d4 = 4%nat /\
    all_of isdigit d4 = true /\ z = sign :: d4.

(** [s] is [.YYYYMMDDThhmmss(Z|[+-]hhmm)], alone or followed by a dot and
    anything, and [m] is the part between the leading dot and that tail. *)
Definition iso8601_suffix (s m : cstring) : Prop :=
  exists date time zone rest,
    length date = 8%nat /\ all_of isdigit date = true /\
    length time = 6%nat /\ all_of isdigit time = true /\
    iso8601_zone zone /\
    (rest = [] \/ exists r, rest = "."%char :: r) /\
    s = "."%char :: date ++ "T"%char :: time ++ zone ++ rest /\
    m = date ++ "T"%char :: time ++ zone.

(** [s] is a dot and the digits [m], at least 8 of them, alone or followed
    by a dot and anything. *)
Definition epoch_suffix (s m : cstring) : Prop :=
  exists rest,
    s = "."%char :: m ++ rest /\ all_of isdigit m = true /\
    (8 <= length m)%nat /\ (rest = [] \/ exists r, rest = "."%char :: r).

(** [s] is a dot and the digits [m], at least one, and nothing else. *)
Definition legacy_suffix (s m : cstring) : Prop :=
  s = "."%char :: m /\ m <> [] /\ all_of isdigit m = true.

(** Ascending by timestamp, as [std::sort] leaves the vector. *)
Definition time_sorted (paths : list entry) : Prop :=
  StronglySorted (fun a b => (fst a <= fst b)%Z) paths.

(** [i] is the smallest index whose timestamp is at least [threshold], and
    the length when there is none. *)
Definition smallest_index_at_least (threshold : Z) (paths : list entry)
  (i : nat) : Prop :=
  (i <= length paths)%nat /\
  (forall j p, (j < i)%nat -> nth_error paths j = Some p ->
               (fst p < threshold)%Z) /\
  (forall p, nth_error paths i = Some p -> (threshold <= fst p)%Z).

(** The computation hands back a value from every state: nothing is thrown. *)
Definition returns {A} (m : M A) : Prop :=
  forall st, exists a st', m st = (Ok a, st').

(** The character of a digit value. *)
Definition dchr (d : Z) : ascii := ascii_of_N (Z.to_N (48 + d)).

(** A number in two and in four decimal places. *)
Definition two (n : Z) : cstring := [dchr (n / 10)%Z; dchr (n mod 10)%Z].

Definition four (n : Z) : cstring :=
  [dchr (n / 1000)%Z; dchr (n / 100 mod 10)%Z; dchr (n / 10 mod 10)%Z;
   dchr (n mod 10)%Z].

(** The fields that [%4d%2d%2dT%2d%2d%2d] reads from 8 + 6 digits. *)
Definition fields_of (date time : cstring) : tm :=
  {| tm_sec := decimal (skipn 4 time);
     tm_min := decimal (firstn 2 (skipn 2 time));
     tm_hour := decimal (firstn 2 time);
     tm_mday := decimal (skipn 6 date);
     tm_mon := decimal (firstn 2 (skipn 4 date)) - 1;
     tm_year := decimal (firstn 4 date) - 1900;
     tm_gmtoff := 0 |}.

(** The offset of a zone [+hhmm] or [-hhmm] as the specification has it:
    sign * (hh * 3600 + mm * 60); 0 for [Z] and for no zone. *)
Definition zone_offset (zone : cstring) : Z :=
  match zone with
  | [sign; h1; h2; m1; m2] =>
      let offset := (decimal [h1; h2] * 3600 + decimal [m1; m2] * 60)%Z in
      if chr_eqb sign "-" then (- offset)%Z else offset
  | _ => 0%Z
  end.

(** The offset that [ParseTimezoneOffset] arrives at: the minutes are the
    last digit alone. *)
Definition zone_offset_as_parsed (zone : cstring) : Z :=
  match zone with
  | [sign; h1; h2; _; m2] =>
      let offset := (decimal [h1; h2] * 3600 + decimal [m2] * 60)%Z in
      if chr_eqb sign "-" then (- offset)%Z else offset
  | _ => 0%Z
  end.

(** The zone as [%z] prints it. *)
Definition zone_of (off : Z) : cstring :=
  (if (off <? 0)%Z then "-"%char else "+"%char)
    :: two (Z.abs off / 60 / 60)%Z ++ two (Z.abs off / 60 mod 60)%Z.

(** What [strftime] writes for the fields [b] in the zone [off], while the
    year has four digits. *)
Definition iso8601_of (b : tm) (off : Z) : cstring :=
  (four (tm_year b + 1900) ++ two (tm_mon b + 1) ++ two (tm_mday b))
    ++ "T"%char :: (two (tm_hour b) ++ two (tm_min b) ++ two (tm_sec b))
    ++ zone_of off.

(** ** A log directory to run the appender on *)

Module Scenario.

Definition gz_that_fails (n : nat) (from : cstring) : compressed :=
  {| cr_ok := false; cr_path := from ++ str ".gz"; cr_errno := None |}.

Definition gz (n : nat) (from : cstring) : compressed :=
  {| cr_ok := true; cr_path := from ++ str ".gz"; cr_errno := None |}.

(** The appender of the test: [max_file_size = 1], [max_backup_count = 3],
    [max_backup_days = 1]. *)
Definition app (compressFunc : option (nat -> cstring -> compressed))
  : appender :=
  {| _fileName := str "foo.log";
     _maxFileSize := 1;
     _maxBackupCount := 3;
     _maxBackupDays := 1;
     _lockFilePath := GenerateLockFilePath (str "foo.log");
     _compressFunc := compressFunc |}.

Definition listing : list dirent :=
  [ mk_dirent false (str ".");
    mk_dirent false (str "..");
    mk_dirent true (str "foo.log");
    mk_dirent true (str "foo.log.20231114T000000Z");
    mk_dirent true (str "foo.log.1600000000") ].

(** A system where every call succeeds but, as chosen, [stat] (ENOENT) and
    the end of the directory scan; [localtime] is that of a fixed zone, or
    fails. The file has 10 bytes; it is 2023-11-14 22:13:20 UTC. *)
Definition env (zone : option Z) (stat_fails : bool) (stop : option positive)
  : Env :=
  {| os_time := fun _ => 1700000000%Z;
     os_localtime :=
       match zone with
       | Some off => localtime_in (fun _ => off)
       | None => fun _ => None
       end;
     os_lseek := fun _ _ => done 10%N;
     os_open := fun _ _ => done 5%N;
     os_close := fun _ _ => done tt;
     os_flock := fun _ _ _ => done tt;
     os_rename := fun _ _ _ => done tt;
     os_unlink := fun _ _ => done tt;
     os_remove := fun _ _ => done tt;
     os_stat := fun _ _ =>
       if stat_fails then failed 2%positive else done (true, 1600000000%Z);
     os_opendir := fun _ _ => done (listing, stop) |}.

(** The appender has the log open on descriptor 3. *)
Definition st0 : state :=
  {| st_fd := 3; st_errno := 0; st_tick := 0; st_trace := [] |}.

(** Four backups in time order. *)
Definition backups : list entry :=
  [ (1699000000%Z, str "foo.log.1699000000");
    (1699900000%Z, str "foo.log.1699900000");
    (1699990000%Z, str "foo.log.1699990000");
    (1700000000%Z, str "foo.log.1700000000") ].

End Scenario.

(** ** Further members and vocabulary *)

(** [ExtractFileName] of the header: what follows the last [/]. *)
Definition ExtractFileName (path : cstring) : cstring :=
  match find_last_of (str "/") path with
  | None => path
  | Some pos => skipn (S pos) path
  end.

(** The two checks at the head of the constructor's body. *)
Definition constructor_checks (fileName : cstring) : result unit :=
  if is_empty fileName then Throw invalid_argument
  else if is_empty (ExtractFileName fileName) then Throw invalid_argument
  else Ok tt.

(** [log4cpp::threading::getThreadId] of PThreads.cpp:
    [snprintf(str, 42, "%d:%ld", pid, tid)] of the process id and the
    thread id; at most 41 characters are stored. *)
Definition getThreadId (pid tid : Z) : cstring :=
  firstn 41 (to_string pid ++ ":"%char :: to_string tid).

(** A system call as opposed to a line on [std::cerr]. *)
Definition is_call (e : event) : bool :=
  match e with
  | ev_cerr _ => false
  | _ => true
  end.

(** Whatever [m] adds to the trace satisfies [P], whether it returns or
    throws. *)
Definition emits {A} (P : event -> Prop) (m : M A) : Prop :=
  forall st, exists new,
    st_trace (snd (m st)) = st_trace st ++ new /\ Forall P new.

(** An event that, if it is an [unlink], is one of a path in [G]. *)
Definition unlinks_only (G : cstring -> Prop) (e : event) : Prop :=
  forall p, e = ev_unlink p -> G p.

(** The compressor, if there is one, never names [p] as its output. *)
Definition compressor_avoids (app : appender) (p : cstring) : Prop :=
  match _compressFunc app with
  | None => True
  | Some f => forall n q, cr_path (f n q) <> p
  end.

(** The paths under which the scan of [env] reports a backup of [app]'s log
    when there is no compressor: an entry of the log's directory whose name
    is the log's name and a suffix that carries a timestamp, or the name
    that a legacy backup was given. *)
Definition backup_path (env : Env) (app : appender) (p : cstring) : Prop :=
  let d := fst (SplitPathIntoDirAndFile (_fileName app)) in
  let b := snd (SplitPathIntoDirAndFile (_fileName app)) in
  (exists suffix t,
     p = d ++ str "/" ++ b ++ suffix /\ suffix <> [] /\
     ExtractTimestamp suffix = Some t) \/
  (exists t dt,
     p = _fileName app ++ str "." ++ dt /\
     GetDatetimeStr (os_localtime env) t = Ok dt).

(** Systems for the further properties. *)
Module Fixture.

(** A backup with an ISO 8601 name and a legacy backup. *)
Definition listing : list dirent :=
  [ mk_dirent true (str "foo.log.20231114T000000Z");
    mk_dirent true (str "foo.log.1") ].

(** [Scenario.env] in UTC, with a directory that holds [listing] and where
    no file can be renamed (EACCES). *)
Definition env_rename_fails : Env :=
  let e := Scenario.env (Some 0%Z) false None in
  {| os_time := os_time e; os_localtime := os_localtime e;
     os_lseek := os_lseek e; os_open := os_open e; os_close := os_close e;
     os_flock := os_flock e;
     os_rename := fun _ _ _ => failed 13%positive;
     os_unlink := os_unlink e; os_remove := os_remove e; os_stat := os_stat e;
     os_opendir := fun _ _ => done (listing, None) |}.

(** [Scenario.env] where the lock file cannot be opened (EACCES). *)
Definition env_lock_fails : Env :=
  let e := Scenario.env (Some 0%Z) false None in
  {| os_time := os_time e; os_localtime := os_localtime e;
     os_lseek := os_lseek e;
     os_open := fun _ p =>
       if cstring_eqb p (GenerateLockFilePath (str "foo.log"))
       then failed 13%positive else done 5%N;
     os_close := os_close e; os_flock := os_flock e; os_rename := os_rename e;
     os_unlink := os_unlink e; os_remove := os_remove e; os_stat := os_stat e;
     os_opendir := os_opendir e |}.

(** [Scenario.env] where a peer has rotated the log in the meantime: the
    first [lseek] sees 10 bytes, the next ones an empty file. *)
Definition env_peer_rotated : Env :=
  let e := Scenario.env (Some 0%Z) false None in
  {| os_time := os_time e; os_localtime := os_localtime e;
     os_lseek := fun n _ => match n with O => done 10%N | S _ => done 0%N end;
     os_open := os_open e; os_close := os_close e; os_flock := os_flock e;
     os_rename := os_rename e; os_unlink := os_unlink e;
     os_remove := os_remove e; os_stat := os_stat e;
     os_opendir := os_opendir e |}.

(** A compressor that works in place and fails: the path it stores is the
    source. *)
Definition in_place_that_fails (n : nat) (from : cstring) : compressed :=
  {| cr_ok := false; cr_path := from; cr_errno := None |}.

(** The appender of [Scenario] with room for 100 bytes. *)
Definition app_large : appender :=
  {| _fileName := str "foo.log";
     _maxFileSize := 100;
     _maxBackupCount := 3;
     _maxBackupDays := 1;
     _lockFilePath := GenerateLockFilePath (str "foo.log");
     _compressFunc := None |}.

End Fixture.

(** * Proofs *)

(** ** Characters and strings *)

Lemma chr_eqb_eq (a b : ascii) : chr_eqb a b = true <-> a = b.
Proof. apply Ascii.eqb_eq. Qed.

Arguments isdigit : simpl never.
Arguments chr_eqb : simpl never.

(** Boolean tests in the hypotheses as the facts they stand for. *)
Ltac split_bools :=
  repeat match goal with
  | H : _ && _ = true |- _ => apply andb_prop in H; destruct H
  | H : _ || _ = false |- _ => apply orb_false_elim in H; destruct H
  | H : negb _ = false |- _ => apply negb_false_iff in H
  | H : negb _ = true |- _ => apply negb_true_iff in H
  | H : chr_eqb _ _ = true |- _ => apply chr_eqb_eq in H; subst
  end.

(** Unfolds the index arithmetic of [ExtractDatetimeIso8601] on a string
    whose first characters are named. *)
Ltac iso_step :=
  cbn [length Nat.ltb Nat.leb orb andb negb at_ nth range Nat.sub firstn skipn
       all_of forallb substr_in Nat.eqb is_empty].

(** A non-empty result of [ExtractDatetimeIso8601] has the grammar's shape. *)
Lemma iso_sound s :
  ExtractDatetimeIso8601 s <> [] -> iso8601_suffix s (ExtractDatetimeIso8601 s).
Proof.
  destruct s as [|c0 s]; [cbn; congruence|].
  destruct s as [|c1 s]; [cbn; congruence|].
  destruct s as [|c2 s]; [cbn; congruence|].
  destruct s as [|c3 s]; [cbn; congruence|].
  destruct s as [|c4 s]; [cbn; congruence|].
  destruct s as [|c5 s]; [cbn; congruence|].
  destruct s as [|c6 s]; [cbn; congruence|].
  destruct s as [|c7 s]; [cbn; congruence|].
  destruct s as [|c8 s]; [cbn; congruence|].
  destruct s as [|c9 s]; [cbn; congruence|].
  destruct s as [|c10 s]; [cbn; congruence|].
  destruct s as [|c11 s]; [cbn; congruence|].
  destruct s as [|c12 s]; [cbn; congruence|].
  destruct s as [|c13 s]; [cbn; congruence|].
  destruct s as [|c14 s]; [cbn; congruence|].
  destruct s as [|c15 s]; [cbn; congruence|].
  destruct s as [|c16 s]; [cbn; congruence|].
  unfold ExtractDatetimeIso8601. iso_step.
  destruct (negb (chr_eqb c0 ".") || _) eqn:E1; [congruence|].
  destruct (negb (chr_eqb c9 "T") || _) eqn:E2; [congruence|].
  split_bools.
  destruct (chr_eqb c16 "Z") eqn:EZ.
  - split_bools.
    destruct s as [|d s]; iso_step.
    + intros _.
      exists [c1;c2;c3;c4;c5;c6;c7;c8], [c10;c11;c12;c13;c14;c15], ["Z"%char], [].
      cbn. rewrite !andb_true_iff. unfold iso8601_zone. intuition.
    + destruct (chr_eqb d ".") eqn:ED; [|congruence]. split_bools. intros _.
      exists [c1;c2;c3;c4;c5;c6;c7;c8], [c10;c11;c12;c13;c14;c15], ["Z"%char], ("."%char :: s).
      cbn. rewrite !andb_true_iff. unfold iso8601_zone. intuition eauto.
  - destruct (chr_eqb c16 "+" || chr_eqb c16 "-") eqn:ES; [|congruence].
    destruct s as [|c17 s]; [cbn; congruence|].
  destruct s as [|c18 s]; [cbn; congruence|].
  destruct s as [|c19 s]; [cbn; congruence|].
  destruct s as [|c20 s]; [cbn; congruence|].
    iso_step.
    destruct (negb _) eqn:E3; [congruence|]. split_bools.
    assert (Hs : c16 = "+"%char \/ c16 = "-"%char).
    { apply orb_true_iff in ES. destruct ES as [ES|ES]; apply chr_eqb_eq in ES; auto. }
    assert (Hz : iso8601_zone [c16;c17;c18;c19;c20]).
    { right; exists c16, [c17;c18;c19;c20]; cbn; rewrite !andb_true_iff; intuition. }
    destruct s as [|d s]; iso_step.
    + intros _.
      exists [c1;c2;c3;c4;c5;c6;c7;c8], [c10;c11;c12;c13;c14;c15], [c16;c17;c18;c19;c20], [].
      cbn. rewrite !andb_true_iff. intuition.
    + destruct (chr_eqb d ".") eqn:ED; [|congruence]. split_bools. intros _.
      exists [c1;c2;c3;c4;c5;c6;c7;c8], [c10;c11;c12;c13;c14;c15], [c16;c17;c18;c19;c20], ("."%char :: s).
      cbn. rewrite !andb_true_iff. intuition eauto.
Qed.

Lemma length_S_inv {A} (l : list A) n : length l = S n -> exists x l', l = x :: l' /\ length l' = n.
Proof. destruct l; cbn; [discriminate|]. intros [= H]. eauto. Qed.

(** A list of known length as that many named elements. *)
Ltac explode l :=
  match goal with
  | H : length l = S _ |- _ =>
      let x := fresh "c" in
      let t := fresh "t" in
      apply length_S_inv in H; destruct H as (x & t & -> & H); explode t
  | H : length l = O |- _ => apply length_zero_iff_nil in H; subst l
  end.

Lemma chr_eqb_refl c : chr_eqb c c = true.
Proof. apply chr_eqb_eq; reflexivity. Qed.

(** A string of the grammar's shape is matched. *)
Lemma iso_complete s m : iso8601_suffix s m -> ExtractDatetimeIso8601 s = m /\ m <> [].
Proof.
  intros (date & time & zone & rest & Hd & Dd & Ht & Dt & Hz & Hr & -> & ->).
  explode date. explode time.
  cbn in Dd, Dt. split_bools.
  split; [|cbn; congruence].
  destruct Hz as [->|(sign & d4 & Hsign & Hlen4 & Dig4 & ->)].
  - unfold ExtractDatetimeIso8601. cbn [app]. iso_step.
    repeat match goal with H : isdigit _ = true |- _ => rewrite H; clear H end.
    destruct Hr as [->|(r & ->)]; cbn; reflexivity.
  - explode d4. cbn in Dig4. split_bools.
    unfold ExtractDatetimeIso8601. cbn [app]. iso_step.
    repeat match goal with H : isdigit _ = true |- _ => rewrite H; clear H end.
    destruct Hsign as [->| ->]; destruct Hr as [->|(r & ->)]; cbn; reflexivity.
Qed.

Lemma isdigit_dot : isdigit "." = false.
Proof. reflexivity. Qed.

Lemma isdigit_T : isdigit "T" = false.
Proof. reflexivity. Qed.

Lemma digit_run_app ds rest i :
  all_of isdigit ds = true ->
  digit_run (ds ++ rest) i = digit_run rest (i + length ds).
Proof.
  revert i; induction ds as [|c ds IH]; intros i H; cbn in *.
  - f_equal; lia.
  - apply andb_prop in H; destruct H as [Hc Hds]. rewrite Hc, IH by assumption.
    f_equal; lia.
Qed.

Lemma digit_run_split s i :
  exists ds rest,
    s = ds ++ rest /\ all_of isdigit ds = true /\
    digit_run s i = (i + length ds)%nat /\
    (rest = [] \/ exists c r, rest = c :: r /\ isdigit c = false).
Proof.
  unfold all_of.
  revert i; induction s as [|c s IH]; intros i.
  - exists [], []; cbn; intuition.
  - cbn. destruct (isdigit c) eqn:Hc.
    + destruct (IH (S i)) as (ds & rest & -> & Hds & Hrun & Hrest).
      exists (c :: ds), rest; cbn. rewrite Hc, Hds, Hrun. intuition.
    + exists [], (c :: s); cbn. intuition eauto.
Qed.

Lemma wrap32_small x : (- 2147483648 <= x <= 2147483647)%Z -> wrap32 x = x.
Proof.
  intros H. unfold wrap32, wrap.
  change (2 ^ (32 - 1))%Z with 2147483648%Z. change (2 ^ 32)%Z with 4294967296%Z.
  rewrite Z.mod_small; lia.
Qed.

Lemma wrap64_small x : (INT64_MIN <= x <= INT64_MAX)%Z -> wrap64 x = x.
Proof.
  unfold INT64_MIN, INT64_MAX. intros H. unfold wrap64, wrap.
  change (2 ^ (64 - 1))%Z with 9223372036854775808%Z.
  change (2 ^ 64)%Z with 18446744073709551616%Z.
  rewrite Z.mod_small; lia.
Qed.

Lemma at_app_r (a b : cstring) : at_ (a ++ b) (length a) = at_ b 0.
Proof. unfold at_. rewrite app_nth2, Nat.sub_diag; auto. Qed.

Lemma digit_run_shift s : forall i, digit_run s i = (i + digit_run s 0)%nat.
Proof.
  induction s as [|c s IH]; intros i; cbn; [lia|].
  destruct (isdigit c); [|lia]. rewrite (IH (S i)), (IH 1%nat). lia.
Qed.

(** [ExtractDigits] after the leading dot, indices rebased to the rest. *)
Lemma ExtractDigits_dot t :
  ExtractDigits ("."%char :: t) =
  let n := digit_run t 0 in
  if (wrap32 (Z.of_nat n) <? 8)%Z then []
  else if (length t <=? n)%nat then t
  else if negb (chr_eqb (at_ t n) ".") then []
  else firstn n t.
Proof.
  unfold ExtractDigits.
  change (length ("."%char :: t) <? 1)%nat with false.
  change (at_ ("."%char :: t) 0) with "."%char.
  rewrite chr_eqb_refl. cbn [orb negb skipn].
  rewrite (digit_run_shift t 1). cbv zeta.
  replace (Z.of_nat (1 + digit_run t 0) - 1)%Z with (Z.of_nat (digit_run t 0)) by lia.
  change (length ("."%char :: t) <=? 1 + digit_run t 0)%nat
    with (length t <=? digit_run t 0)%nat.
  change (at_ ("."%char :: t) (1 + digit_run t 0)) with (at_ t (digit_run t 0)).
  unfold substr_in. cbn [skipn].
  replace (1 + digit_run t 0 - 1)%nat with (digit_run t 0) by lia.
  reflexivity.
Qed.

Lemma digit_run_digits m rest :
  all_of isdigit m = true ->
  (rest = [] \/ exists r, rest = "."%char :: r) ->
  digit_run (m ++ rest) 0 = length m.
Proof.
  intros Hm Hrest. rewrite digit_run_app by assumption.
  destruct Hrest as [->|(r & ->)]; cbn; [reflexivity|]. now rewrite isdigit_dot.
Qed.

(** [ExtractDigits] against the epoch grammar, both ways. *)
Lemma epoch_complete s m :
  (Z.of_nat (length s) <= INT32_MAX)%Z ->
  epoch_suffix s m -> ExtractDigits s = m /\ m <> [].
Proof.
  intros Hlen (rest & -> & Hm & H8 & Hrest).
  assert (Hne : m <> []) by (destruct m; cbn in H8; [lia | congruence]).
  split; [|assumption].
  rewrite ExtractDigits_dot, digit_run_digits by assumption. cbv zeta.
  cbn [length] in Hlen. rewrite length_app in Hlen. unfold INT32_MAX in Hlen.
  rewrite wrap32_small by lia.
  destruct (Z.of_nat (length m) <? 8)%Z eqn:E; [apply Z.ltb_lt in E; lia|].
  rewrite length_app, at_app_r.
  destruct Hrest as [->|(r & ->)].
  - rewrite app_nil_r. rewrite (proj2 (Nat.leb_le _ _)) by (cbn; lia). reflexivity.
  - rewrite (proj2 (Nat.leb_gt _ _)) by (cbn; lia).
    cbn [at_ nth]. rewrite chr_eqb_refl. cbn [negb].
    rewrite <- (Nat.add_0_r (length m)), firstn_app_2. cbn. apply app_nil_r.
Qed.

Lemma epoch_sound s :
  ExtractDigits s <> [] -> epoch_suffix s (ExtractDigits s).
Proof.
  destruct s as [|c0 t]; [cbn; congruence|].
  destruct (chr_eqb c0 ".") eqn:E0.
  2:{ unfold ExtractDigits. cbn [length Nat.ltb Nat.leb orb at_ nth].
      rewrite E0. cbn. congruence. }
  apply chr_eqb_eq in E0; subst c0.
  rewrite ExtractDigits_dot. cbv zeta.
  destruct (digit_run_split t 0) as (ds & rest & -> & Hds & Hrun & Hrest).
  rewrite Hrun. cbn [Nat.add].
  destruct (wrap32 (Z.of_nat (length ds)) <? 8)%Z eqn:E8; [congruence|].
  apply Z.ltb_ge in E8.
  assert (H8 : (8 <= length ds)%nat).
  { destruct (le_lt_dec 8 (length ds)); [assumption|].
    rewrite wrap32_small in E8 by lia. lia. }
  rewrite length_app, at_app_r.
  destruct Hrest as [->|(c & r & -> & Hc)].
  - rewrite app_nil_r. rewrite (proj2 (Nat.leb_le _ _)) by (cbn; lia). intros _.
    exists []. rewrite app_nil_r. intuition.
  - rewrite (proj2 (Nat.leb_gt _ _)) by (cbn; lia).
    cbn [at_ nth].
    destruct (chr_eqb c ".") eqn:Ec; [|cbn; congruence]. apply chr_eqb_eq in Ec; subst c.
    cbn [negb].
    rewrite <- (Nat.add_0_r (length ds)), firstn_app_2. cbn [firstn]. rewrite app_nil_r.
    intros _. exists ("."%char :: r). intuition eauto.
Qed.

(** [ExtractDigits1] against the legacy grammar. *)
Lemma legacy_iff s m :
  (ExtractDigits1 s = m /\ m <> []) <-> legacy_suffix s m.
Proof.
  unfold ExtractDigits1, legacy_suffix. split.
  - intros [E NE]. destruct s as [|c0 [|c1 s]]; try (cbn in E; congruence).
    cbn [length Nat.leb orb at_ nth skipn] in E.
    destruct (chr_eqb c0 ".") eqn:E0; [|cbn in E; congruence].
    apply chr_eqb_eq in E0; subst c0. cbn [negb] in E.
    destruct (all_of isdigit (c1 :: s)) eqn:Ed; [|congruence].
    subst m. intuition.
  - intros (-> & NE & Hd). destruct m as [|c1 m]; [congruence|].
    cbn [length Nat.leb orb at_ nth skipn]. rewrite chr_eqb_refl. cbn [negb].
    rewrite Hd. intuition.
Qed.

Lemma digit_val_range c : isdigit c = true -> (0 <= digit_val c <= 9)%Z.
Proof.
  unfold isdigit, digit_val. intros H. apply andb_prop in H. destruct H as [H1 H2].
  apply Z.leb_le in H1, H2. lia.
Qed.

Lemma decimal_from_ge ds : forall acc,
  all_of isdigit ds = true -> (0 <= acc)%Z -> (acc <= decimal_from acc ds)%Z.
Proof.
  induction ds as [|c ds IH]; intros acc Hd Hacc; cbn in *; [lia|].
  apply andb_prop in Hd; destruct Hd as [Hc Hds].
  pose proof (digit_val_range _ Hc).
  specialize (IH (acc * 10 + digit_val c)%Z Hds). unfold decimal_from in IH. lia.
Qed.

Lemma ConvertStrToInt64_loop_fits ds : forall acc,
  all_of isdigit ds = true -> (0 <= acc)%Z ->
  (decimal_from acc ds <= INT64_MAX)%Z ->
  ConvertStrToInt64_loop acc ds = Ok (decimal_from acc ds).
Proof.
  induction ds as [|c ds IH]; intros acc Hd Hacc Hfit; cbn in *; [reflexivity|].
  apply andb_prop in Hd; destruct Hd as [Hc Hds].
  pose proof (digit_val_range _ Hc).
  pose proof (decimal_from_ge ds (acc * 10 + digit_val c)%Z Hds ltac:(lia)) as Hge.
  unfold decimal_from in Hge.
  rewrite wrap64_small by (unfold INT64_MIN; lia).
  destruct (acc * 10 + digit_val c <? 0)%Z eqn:E; [apply Z.ltb_lt in E; lia|].
  apply IH; auto; lia.
Qed.

(** Digits whose value fits into 63 bits are converted to that value. *)
Lemma ConvertStrToInt64_fits ds :
  ds <> [] -> all_of isdigit ds = true -> (decimal ds <= INT64_MAX)%Z ->
  ConvertStrToInt64 ds = Ok (decimal ds).
Proof.
  intros NE Hd Hfit. unfold ConvertStrToInt64. destruct ds as [|c ds]; [congruence|].
  rewrite Hd. cbn [negb]. unfold decimal in *.
  apply ConvertStrToInt64_loop_fits; auto; lia.
Qed.

(** ** Retention *)
Lemma StronglySorted_nth_error {A} (R : A -> A -> Prop) (l : list A) :
  StronglySorted R l ->
  forall i j a b, (i < j)%nat -> nth_error l i = Some a -> nth_error l j = Some b -> R a b.
Proof.
  induction 1 as [|x l Hs IH Hall]; intros i j a b Hij Ha Hb.
  - destruct i; discriminate.
  - destruct j as [|j]; [lia|]. cbn in Hb. destruct i as [|i]; cbn in Ha.
    + injection Ha as <-. rewrite Forall_forall in Hall. apply Hall.
      eapply nth_error_In; eassumption.
    + eapply IH; [|eassumption..]. lia.
Qed.

Lemma time_sorted_mono paths :
  time_sorted paths ->
  forall i j a b, (i <= j)%nat -> nth_error paths i = Some a -> nth_error paths j = Some b ->
                  (fst a <= fst b)%Z.
Proof.
  intros Hs i j a b Hij Ha Hb.
  destruct (Nat.eq_dec i j) as [->|Hne].
  - rewrite Ha in Hb. injection Hb as <-. lia.
  - eapply (StronglySorted_nth_error _ _ Hs); [|eassumption..]. lia.
Qed.

Lemma div2_lt n : (Nat.div2 (S n) < S n)%nat.
Proof. apply Nat.lt_div2. lia. Qed.

Lemma lower_bound_loop_spec (paths : list entry) (v : Z) :
  time_sorted paths ->
  forall fuel first len,
    (len <= fuel)%nat -> (first + len <= length paths)%nat ->
    (forall j p, (j < first)%nat -> nth_error paths j = Some p -> (fst p < v)%Z) ->
    (forall j p, (first + len <= j)%nat -> nth_error paths j = Some p -> (v <= fst p)%Z) ->
    let r := lower_bound_loop fuel fst paths v first len in
    (first <= r <= first + len)%nat /\
    (forall j p, (j < r)%nat -> nth_error paths j = Some p -> (fst p < v)%Z) /\
    (forall j p, (r <= j)%nat -> nth_error paths j = Some p -> (v <= fst p)%Z).
Proof.
  intros Hs. induction fuel as [|fuel IH]; intros first len Hfuel Hlen Hlo Hhi.
  - assert (len = 0)%nat by lia. subst len. cbn. repeat split; try lia; auto.
    intros j p Hj. apply Hhi. lia.
  - cbn [lower_bound_loop]. destruct len as [|len'].
    + repeat split; try lia; auto. intros j p Hj. apply Hhi. lia.
    + set (len := S len') in *. set (half := Nat.div2 len).
      assert (Hhalf : (half < len)%nat) by apply div2_lt.
      cbv zeta. fold half.
      destruct (nth_error paths (first + half)) as [x|] eqn:Hx.
      2:{ apply nth_error_None in Hx. lia. }
      destruct (fst x <? v)%Z eqn:Hcmp.
      * apply Z.ltb_lt in Hcmp.
        destruct (IH (S (first + half)) (len - half - 1)%nat) as (Hr1 & Hr2 & Hr3);
          try lia.
        -- intros j p Hj Hp.
           pose proof (time_sorted_mono _ Hs j (first + half)%nat _ _ ltac:(lia) Hp Hx). lia.
        -- intros j p Hj. apply Hhi. lia.
        -- repeat split; auto; lia.
      * apply Z.ltb_ge in Hcmp.
        destruct (IH first half) as (Hr1 & Hr2 & Hr3); try lia; auto.
        -- intros j p Hj Hp.
           pose proof (time_sorted_mono _ Hs (first + half)%nat j _ _ ltac:(lia) Hx Hp). lia.
        -- repeat split; auto; lia.
Qed.

(** On a sorted vector the bisection lands on the smallest index whose key
    is at least [v]. *)
Lemma lower_bound_smallest paths v :
  time_sorted paths -> smallest_index_at_least v paths (lower_bound fst paths v).
Proof.
  intros Hs. unfold lower_bound.
  destruct (lower_bound_loop_spec paths v Hs (length paths) 0%nat (length paths))
    as (Hr1 & Hr2 & Hr3); try lia.
  - intros j p Hj Hp. assert (nth_error paths j = None) by (apply nth_error_None; lia). congruence.
  - unfold smallest_index_at_least. repeat split; auto; try lia.
    intros p Hp. eapply Hr3; [|eassumption]. lia.
Qed.

Lemma smallest_index_unique th paths i j :
  smallest_index_at_least th paths i -> smallest_index_at_least th paths j -> i = j.
Proof.
  intros (Hi1 & Hi2 & Hi3) (Hj1 & Hj2 & Hj3).
  destruct (Nat.lt_trichotomy i j) as [H|[H|H]]; [|assumption|].
  - destruct (nth_error paths i) as [p|] eqn:Hp.
    + pose proof (Hi3 p eq_refl). pose proof (Hj2 i p H Hp). lia.
    + apply nth_error_None in Hp. lia.
  - destruct (nth_error paths j) as [p|] eqn:Hp.
    + pose proof (Hj3 p eq_refl). pose proof (Hi2 j p H Hp). lia.
    + apply nth_error_None in Hp. lia.
Qed.


(** ** The classifier *)
Lemma is_empty_false (s : cstring) : negb (is_empty s) = true <-> s <> [].
Proof. destruct s; cbn; split; congruence. Qed.

Lemma all_of_app p (a b : cstring) : all_of p (a ++ b) = all_of p a && all_of p b.
Proof. apply forallb_app. Qed.

Lemma iso_not_epoch s : ExtractDatetimeIso8601 s <> [] -> ExtractDigits s = [].
Proof.
  intros H. apply iso_sound in H.
  destruct H as (date & time & zone & rest & Hd & Dd & Ht & Dt & Hz & Hr & Hs & _).
  rewrite Hs, ExtractDigits_dot. cbv zeta.
  rewrite digit_run_app by assumption. cbn [digit_run Nat.add]. rewrite isdigit_T, Hd.
  change (wrap32 (Z.of_nat 8) <? 8)%Z with false. cbv iota.
  rewrite length_app, Hd. cbn [length Nat.add Nat.leb].
  rewrite <- Hd, at_app_r. cbn [at_ nth]. reflexivity.
Qed.

Lemma iso_not_legacy s : ExtractDatetimeIso8601 s <> [] -> ExtractDigits1 s = [].
Proof.
  intros H. apply iso_sound in H.
  destruct H as (date & time & zone & rest & Hd & Dd & Ht & Dt & Hz & Hr & Hs & _).
  rewrite Hs. unfold ExtractDigits1. cbn [skipn].
  rewrite all_of_app. cbn [all_of forallb]. rewrite isdigit_T.
  rewrite andb_false_r. destruct (_ || _); reflexivity.
Qed.

Lemma epoch_and_legacy s :
  ExtractDigits s <> [] -> ExtractDigits1 s <> [] ->
  exists m, s = "."%char :: m /\ all_of isdigit m = true /\ (8 <= length m)%nat /\
            ExtractDigits s = m /\ ExtractDigits1 s = m.
Proof.
  intros He Hl. apply epoch_sound in He.
  destruct (proj1 (legacy_iff s (ExtractDigits1 s)) (conj eq_refl Hl)) as (Hs1 & _ & Hd1).
  remember (ExtractDigits s) as m eqn:Em. remember (ExtractDigits1 s) as m1 eqn:Em1.
  destruct He as (rest & Hs & Hm & H8 & Hrest).
  assert (E : m ++ rest = m1) by congruence.
  destruct Hrest as [->|(r & ->)].
  - rewrite app_nil_r in E. subst m1. exists m. rewrite app_nil_r in Hs. intuition.
  - rewrite <- E, all_of_app in Hd1. cbn [all_of forallb] in Hd1.
    rewrite isdigit_dot, andb_false_r in Hd1. discriminate.
Qed.

Lemma classify_legacy s :
  classify s = cls_legacy ->
  rule_matches rule_legacy s = true /\ rule_matches rule_epoch s = false /\
  rule_matches rule_iso8601 s = false.
Proof.
  unfold classify. destruct (ExtractTimestamp s) as [t|] eqn:Et.
  { destruct (rule_matches rule_iso8601 s); discriminate. }
  destruct (ExtractIndex s) as [i|] eqn:Ei; [intros _|discriminate].
  unfold ExtractIndex in Ei. destruct (is_empty s) eqn:Es; [discriminate|].
  destruct (negb (is_empty (ExtractDigits1 s))) eqn:El; [|discriminate].
  assert (Hl : ExtractDigits1 s <> []) by (apply is_empty_false; assumption).
  cbn [rule_matches]. rewrite El.
  destruct (negb (is_empty (ExtractDatetimeIso8601 s))) eqn:Ei8.
  { apply is_empty_false, iso_not_legacy in Ei8. congruence. }
  split; [reflexivity|split; [|reflexivity]].
  destruct (negb (is_empty (ExtractDigits s))) eqn:Ee; [|reflexivity].
  exfalso. unfold ExtractTimestamp in Et. rewrite Es, Ei8, Ee in Et.
  apply is_empty_false in Ee.
  destruct (epoch_and_legacy s Ee Hl) as (m & _ & _ & _ & E1 & E2).
  rewrite E1 in Et. rewrite E2 in Ei. congruence.
Qed.

Lemma classify_timestamp s :
  (forall t, classify s = cls_iso8601 t -> rule_matches rule_iso8601 s = true) /\
  (forall t, classify s = cls_epoch t ->
             rule_matches rule_epoch s = true /\ rule_matches rule_iso8601 s = false).
Proof.
  unfold classify. destruct (ExtractTimestamp s) as [t0|] eqn:Et.
  2:{ destruct (ExtractIndex s); split; intros; discriminate. }
  destruct (rule_matches rule_iso8601 s) eqn:Ei; split; intros t H; try discriminate; auto.
  split; [|reflexivity].
  unfold ExtractTimestamp in Et. cbn [rule_matches] in *.
  destruct (is_empty s); [discriminate|]. rewrite Ei in Et.
  destruct (negb (is_empty (ExtractDigits s))); [reflexivity|discriminate].
Qed.

(** ** Effects *)
Lemma returns_ret {A} (a : A) : returns (ret a).
Proof. intros st; unfold ret; eauto. Qed.

Lemma returns_bind {A B} (m : M A) (k : A -> M B) :
  returns m -> (forall a, returns (k a)) -> returns (bind m k).
Proof.
  intros Hm Hk st. unfold bind. destruct (Hm st) as (a & st' & ->). apply Hk.
Qed.

Lemma returns_emit ev : returns (emit ev).
Proof. intros st; unfold emit; eauto. Qed.

Lemma returns_syscall {A} ev (answer : nat -> outcome A) : returns (syscall ev answer).
Proof. intros st; unfold syscall; eauto. Qed.

Lemma returns_set_errno e : returns (set_errno e).
Proof. intros st; unfold set_errno; eauto. Qed.

Lemma returns_set_fd fd : returns (set_fd fd).
Proof. intros st; unfold set_fd; eauto. Qed.

Lemma returns_get_fd : returns get_fd.
Proof. intros st; unfold get_fd; eauto. Qed.

Lemma returns_get_errno : returns get_errno.
Proof. intros st; unfold get_errno; eauto. Qed.

Lemma returns_time env : returns (GetCurrentTimestampInSeconds env).
Proof. intros st; unfold GetCurrentTimestampInSeconds; eauto. Qed.

Lemma returns_call_compress f p : returns (call_compress f p).
Proof. intros st; unfold call_compress; eauto. Qed.

Lemma returns_lift {A} (r : result A) : (exists a, r = Ok a) -> returns (lift r).
Proof. intros (a & ->) st; unfold lift; eauto. Qed.

Create HintDb returns.
#[local] Hint Resolve returns_ret returns_emit returns_syscall returns_set_errno
  returns_set_fd returns_get_fd returns_get_errno returns_time
  returns_call_compress : returns.

Ltac returns_step :=
  match goal with
  | |- returns (bind _ _) => apply returns_bind; [|intros]
  | |- returns (cerr _) => apply returns_emit
  | |- returns (if ?b then _ else _) => destruct b
  | |- returns (match ?x with _ => _ end) => destruct x
  | |- returns (let '(_, _) := ?x in _) => destruct x
  | |- returns _ => solve [auto with returns]
  end.

Lemma returns_CompressLog env app p : returns (CompressLog env app p).
Proof. unfold CompressLog. repeat returns_step. Qed.

Lemma returns_GetLastModifiedTimestamp env p : returns (GetLastModifiedTimestamp env p).
Proof. unfold GetLastModifiedTimestamp. repeat returns_step. Qed.

Lemma returns_unlink_all env ps : returns (unlink_all env ps).
Proof. induction ps; cbn [unlink_all]; repeat returns_step. Qed.

Lemma returns_reopen env app : returns (reopen env app).
Proof. unfold reopen. repeat returns_step. Qed.

Section NoThrow.
Variable env : Env.
Variable app : appender.

(** [::stat] never fails and [strftime] always has room. *)
Hypothesis stat_ok : forall n p, is_failed (os_stat env n p) = false.
Hypothesis strftime_ok :
  forall t, ConvertTimeToIso8601 (os_localtime env) t <> Throw runtime_error.

Lemma GetDatetimeStr_ok t : exists s, GetDatetimeStr (os_localtime env) t = Ok s.
Proof.
  unfold GetDatetimeStr. pose proof (strftime_ok t) as H.
  destruct (ConvertTimeToIso8601 (os_localtime env) t) as [s|e] eqn:E.
  - cbn. destruct s; eauto.
  - exfalso. apply H. unfold ConvertTimeToIso8601 in E.
    destruct (os_localtime env t); [|discriminate].
    destruct (strftime_iso 40 t0); congruence.
Qed.

Lemma returns_ExistRegularFile p : returns (ExistRegularFile env p).
Proof.
  unfold ExistRegularFile. destruct (is_empty p); [auto with returns|].
  intros st. unfold bind, syscall. pose proof (stat_ok (st_tick st) p) as H.
  destruct (os_stat env (st_tick st) p) as [e|[r m]]; [discriminate|].
  unfold ret. eauto.
Qed.

Lemma returns_HandleLegacyLogFile p : returns (HandleLegacyLogFile env app p).
Proof.
  unfold HandleLegacyLogFile.
  apply returns_bind; [apply returns_GetLastModifiedTimestamp|intros ts].
  destruct (ts <? 0)%Z; [repeat returns_step|].
  apply returns_bind; [apply returns_lift, GetDatetimeStr_ok|intros dt].
  apply returns_bind; [auto with returns|intros rn].
  destruct (is_failed rn); [repeat returns_step|].
  apply returns_bind; [apply returns_CompressLog|intros [ok fp]].
  auto with returns.
Qed.

Lemma returns_HandleBackupLogFile f d b : returns (HandleBackupLogFile env app f d b).
Proof.
  unfold HandleBackupLogFile.
  destruct (_ || _); [auto with returns|].
  apply returns_bind; [apply returns_ExistRegularFile|intros reg].
  destruct (negb reg); [auto with returns|].
  destruct (ExtractTimestamp _); [auto with returns|].
  apply returns_bind; [apply returns_emit|intros _].
  destruct (ExtractIndex _); [apply returns_HandleLegacyLogFile|].
  repeat returns_step.
Qed.

Lemma returns_readdir_loop d b entries :
  forall res, returns (readdir_loop env app d b entries res).
Proof.
  induction entries as [|entry rest IH]; intros res; cbn [readdir_loop].
  - auto with returns.
  - apply returns_bind; [apply returns_emit|intros _].
    destruct (negb (d_is_reg entry)); [apply IH|].
    destruct (_ || _); [apply IH|].
    apply returns_bind; [apply returns_HandleBackupLogFile|intros [[ok ts] fp]].
    apply IH.
Qed.

Lemma returns_FilterTimeBasedFilePaths p : returns (FilterTimeBasedFilePaths env app p).
Proof.
  unfold FilterTimeBasedFilePaths.
  destruct (SplitPathIntoDirAndFile p) as [d b].
  destruct (is_empty b); [auto with returns|].
  apply returns_bind; [auto with returns|intros [e|[entries stop]]].
  - repeat returns_step.
  - apply returns_bind; [auto with returns|intros _].
    apply returns_bind; [apply returns_readdir_loop|intros res].
    apply returns_bind.
    { unfold readdir_end. repeat returns_step. }
    intros _. repeat returns_step.
Qed.

Lemma returns_rollOver : returns (rollOver env app).
Proof.
  unfold rollOver.
  apply returns_bind; [auto with returns|intros fd].
  apply returns_bind; [auto with returns|intros cl].
  apply returns_bind; [repeat returns_step|intros _].
  apply returns_bind; [auto with returns|intros now].
  apply returns_bind; [apply returns_lift, GetDatetimeStr_ok|intros dt].
  apply returns_bind; [auto with returns|intros rn].
  apply returns_bind; [repeat returns_step|intros _].
  apply returns_bind; [apply returns_CompressLog|intros _].
  apply returns_bind; [apply returns_FilterTimeBasedFilePaths|intros found].
  apply returns_bind; [repeat returns_step|intros now'].
  apply returns_bind; [apply returns_unlink_all|intros _].
  apply returns_reopen.
Qed.

Lemma returns_locked_block : returns (locked_block env app).
Proof.
  unfold locked_block.
  apply returns_bind; [auto with returns|intros lk].
  destruct (int_of lk <? 0)%Z; [repeat returns_step|].
  apply returns_bind; [auto with returns|intros fl].
  destruct (is_failed fl); [repeat returns_step|].
  apply returns_bind; [auto with returns|intros fd].
  apply returns_bind; [repeat returns_step|intros _].
  apply returns_bind; [apply returns_reopen|intros _].
  apply returns_bind; [auto with returns|intros fd'].
  apply returns_bind; [auto with returns|intros off].
  apply returns_bind; [|intros _; auto with returns].
  destruct (int_of off <? 0)%Z; [auto with returns|].
  destruct (int_of off >=? _)%Z; [apply returns_rollOver|auto with returns].
Qed.
End NoThrow.

(** X20. Short of a failing [stat] and of a [strftime] without room, [_append]
    returns, and the last thing it does is the write of the base class. *)
Theorem append_completes env app :
  (forall n p, is_failed (os_stat env n p) = false) ->
  (forall t, ConvertTimeToIso8601 (os_localtime env) t <> Throw runtime_error) ->
  forall st, exists st' tr,
    _append env app st = (Ok tt, st') /\ st_trace st' = tr ++ [ev_base_append].
Proof.
  intros Hstat Hfmt st. unfold _append.
  unfold bind at 1. unfold get_fd at 1. unfold bind at 1. unfold syscall at 1.
  set (off := int_of _). set (st1 := mk_state _ _ _ _).
  unfold bind at 1.
  match goal with
  | |- context [match ?m st1 with _ => _ end] => assert (Hm : returns m)
  end.
  { destruct (off <? 0)%Z; [auto with returns|].
    destruct (off >=? _)%Z; [|auto with returns].
    apply returns_bind; [apply returns_locked_block; assumption|intros [lock_fd is_locked]].
    repeat returns_step. }
  destruct (Hm st1) as ([] & st2 & ->).
  unfold FileAppender_append, emit.
  eexists; exists (st_trace st2); split; reflexivity.
Qed.


(** [FilterTimeBasedFilePaths] once [opendir] has succeeded on a stream that
    ends in an error: what the loop left is dropped. *)
Lemma scan_after_readdir_error env app base st entries e :
  is_empty (snd (SplitPathIntoDirAndFile base)) = false ->
  os_opendir env (st_tick st) (fst (SplitPathIntoDirAndFile base)) = done (entries, Some e) ->
  let d := fst (SplitPathIntoDirAndFile base) in
  let b := snd (SplitPathIntoDirAndFile base) in
  let st1 := mk_state (st_fd st) 0 (S (st_tick st)) (st_trace st ++ [ev_opendir d]) in
  FilterTimeBasedFilePaths env app base st =
  match readdir_loop env app d b entries [] st1 with
  | (Ok _, st2) =>
      (Ok [], mk_state (st_fd st2) (Z.pos e) (st_tick st2)
                       (st_trace st2 ++ [ev_readdir; ev_cerr (Could_not_readdir d);
                                         ev_closedir]))
  | (Throw x, st2) => (Throw x, st2)
  end.
Proof.
  intros Hname Hdir. unfold FilterTimeBasedFilePaths.
  destruct (SplitPathIntoDirAndFile base) as [d b]. cbn [fst snd] in *.
  rewrite Hname. cbv zeta.
  unfold bind at 1. unfold syscall at 1. rewrite Hdir.
  unfold bind at 1. unfold set_errno at 1. cbn [st_fd st_errno st_tick st_trace].
  unfold bind at 1.
  destruct (readdir_loop env app d b entries [] _) as [[res|x] st2]; [|reflexivity].
  unfold readdir_end, cerr, bind, emit, set_errno, get_errno, ret.
  cbn [st_fd st_errno st_tick st_trace Z.eqb negb].
  rewrite <- !app_assoc. reflexivity.
Qed.

(** ** Decoding a well-formed date-time *)

Arguments isspace : simpl never.

Lemma digit_not_space c : isdigit c = true -> isspace c = false.
Proof.
  unfold isdigit, isspace. intros H. apply andb_prop in H. destruct H as [H1 H2].
  apply Z.leb_le in H1, H2.
  apply orb_false_iff. split; [apply Z.eqb_neq; lia|].
  apply andb_false_iff. right. apply Z.leb_gt. lia.
Qed.

(** A digit differs from every character that is not one. *)
Lemma digit_neq c d :
  isdigit c = true -> isdigit d = false ->
  chr_eqb c d = false /\ chr_eqb d c = false.
Proof.
  intros Hc Hd. split.
  - destruct (chr_eqb c d) eqn:E; [apply chr_eqb_eq in E; subst; congruence|reflexivity].
  - destruct (chr_eqb d c) eqn:E; [apply chr_eqb_eq in E; subst; congruence|reflexivity].
Qed.

(** Settles the tests that the scanners make on characters known to be
    digits. *)
Ltac digit_rewrite :=
  repeat match goal with
  | H : isdigit ?c = true |- context [isdigit ?c] => rewrite H
  | H : isdigit ?c = true |- context [isspace ?c] => rewrite (digit_not_space c H)
  | H : isdigit ?c = true |- context [chr_eqb ?c ?d] =>
      rewrite (proj1 (digit_neq c d H eq_refl))
  | H : isdigit ?c = true |- context [chr_eqb ?d ?c] =>
      rewrite (proj2 (digit_neq c d H eq_refl))
  end.

(** [sscanf] reads eight and six digits around the [T] as the six fields. *)
Lemma ToTm_wellformed date time zone :
  length date = 8%nat -> all_of isdigit date = true ->
  length time = 6%nat -> all_of isdigit time = true ->
  ConvertDatetimeIso8601ToTm (date ++ "T"%char :: time ++ zone) = Ok (fields_of date time).
Proof.
  intros Hd Dd Ht Dt. explode date. explode time.
  cbn in Dd, Dt. split_bools.
  unfold ConvertDatetimeIso8601ToTm, scan_d.
  cbn [app skip_ws]. digit_rewrite.
  cbn [scan_digits]. digit_rewrite.
  cbn [skip_ws]. digit_rewrite. cbn [scan_digits]. digit_rewrite.
  cbn [skip_ws]. digit_rewrite. cbn [scan_digits]. digit_rewrite.
  cbn [scan_lit]. rewrite chr_eqb_refl.
  cbn [skip_ws]. digit_rewrite. cbn [scan_digits]. digit_rewrite.
  cbn [skip_ws]. digit_rewrite. cbn [scan_digits]. digit_rewrite.
  cbn [skip_ws]. digit_rewrite. cbn [scan_digits]. digit_rewrite.
  unfold fields_of, decimal, decimal_from. cbn [firstn skipn fold_left Z.mul Z.add].
  reflexivity.
Qed.

Lemma contains_app c (a b : cstring) : contains c (a ++ b) = contains c a || contains c b.
Proof. apply existsb_app. Qed.

Lemma contains_digits c ds :
  isdigit c = false -> all_of isdigit ds = true -> contains c ds = false.
Proof.
  intros Hc. unfold contains, all_of. induction ds as [|d ds IH]; cbn; [reflexivity|].
  intros H. apply andb_prop in H. destruct H as [Hd Hds].
  rewrite (proj2 (digit_neq d c Hd Hc)), IH by assumption. reflexivity.
Qed.

Lemma find_last_of_app_none set (a b : cstring) :
  find_last_of set b = None ->
  find_last_of set (a ++ b) = find_last_of set a.
Proof.
  intros Hb. induction a as [|c a IH]; cbn; [assumption|]. now rewrite IH.
Qed.

Lemma find_last_of_app_some set (a b : cstring) p :
  find_last_of set b = Some p ->
  find_last_of set (a ++ b) = Some (length a + p)%nat.
Proof.
  intros Hb. induction a as [|c a IH]; cbn; [assumption|]. now rewrite IH.
Qed.

Lemma find_last_of_digits set ds :
  (forall c, isdigit c = true -> contains c set = false) ->
  all_of isdigit ds = true -> find_last_of set ds = None.
Proof.
  intros Hset. unfold all_of. induction ds as [|d ds IH]; cbn; [reflexivity|].
  intros H. apply andb_prop in H. destruct H as [Hd Hds].
  rewrite IH, Hset by assumption. reflexivity.
Qed.

Lemma digit_not_sign c : isdigit c = true -> contains c (str "+-") = false.
Proof.
  intros H. cbn. rewrite (proj1 (digit_neq c "+" H eq_refl)), (proj1 (digit_neq c "-" H eq_refl)).
  reflexivity.
Qed.

Lemma contains_datetime c date time :
  isdigit c = false -> chr_eqb c "T" = false ->
  all_of isdigit date = true -> all_of isdigit time = true ->
  contains c (date ++ "T"%char :: time) = false.
Proof.
  intros Hc HT Dd Dt. rewrite contains_app. unfold contains at 2. cbn [existsb].
  fold (contains c time). rewrite HT, !contains_digits by assumption. reflexivity.
Qed.

(** [ParseTimezoneOffset] on a signed zone: the hours from both digits, the
    minutes from the last one. *)
Lemma ParseTimezoneOffset_signed dt sign h1 h2 m1 m2 :
  contains "Z" dt = false ->
  sign = "+"%char \/ sign = "-"%char ->
  isdigit h1 = true -> isdigit h2 = true ->
  isdigit m1 = true -> isdigit m2 = true ->
  ParseTimezoneOffset (dt ++ [sign; h1; h2; m1; m2])
  = Ok (zone_offset_as_parsed [sign; h1; h2; m1; m2]).
Proof.
  intros HcZ Hsign Hh1 Hh2 Hm1 Hm2.
  assert (HsZ : chr_eqb "Z" sign = false)
    by (destruct Hsign as [->| ->]; reflexivity).
  assert (Hss : contains sign (str "+-") = true)
    by (destruct Hsign as [->| ->]; reflexivity).
  pose proof (digit_val_range h1 Hh1). pose proof (digit_val_range h2 Hh2).
  pose proof (digit_val_range m2 Hm2).
  unfold ParseTimezoneOffset.
  rewrite contains_app, HcZ. cbn [orb contains existsb]. rewrite HsZ.
  digit_rewrite. cbn [orb].
  rewrite (find_last_of_app_some _ dt _ 0).
  2:{ cbn [find_last_of]. rewrite !digit_not_sign by assumption. now rewrite Hss. }
  rewrite Nat.add_0_r, skipn_app, skipn_all, Nat.sub_diag. cbn [app skipn].
  unfold substr, stoi, scan_d.
  cbn [length Nat.ltb Nat.leb skipn firstn rbind skip_ws]. digit_rewrite.
  cbn [scan_digits]. digit_rewrite. cbn [scan_digits].
  unfold INT32_MAX.
  rewrite (proj2 (Z.ltb_ge ((0 * 10 + digit_val h1) * 10 + digit_val h2) _)) by lia.
  rewrite (proj2 (Z.ltb_ge _ ((0 * 10 + digit_val h1) * 10 + digit_val h2))) by lia.
  cbn [orb rbind skip_ws]. digit_rewrite. cbn [scan_digits]. digit_rewrite.
  cbn [scan_digits].
  rewrite (proj2 (Z.ltb_ge (0 * 10 + digit_val m2) _)) by lia.
  rewrite (proj2 (Z.ltb_ge _ (0 * 10 + digit_val m2))) by lia.
  cbn [orb rbind at_ nth].
  unfold zone_offset_as_parsed, decimal, decimal_from. cbn [fold_left].
  reflexivity.
Qed.

(** What [ConvertDatetimeIso8601ToTimestamp] returns on every string of the
    grammar, with or without zone: [timegm] of the fields less the offset as
    [ParseTimezoneOffset] reads it. *)
Lemma decode_wellformed date time zone :
  length date = 8%nat -> all_of isdigit date = true ->
  length time = 6%nat -> all_of isdigit time = true ->
  zone = [] \/ iso8601_zone zone ->
  ConvertDatetimeIso8601ToTimestamp (date ++ "T"%char :: time ++ zone)
  = Ok (timegm (fields_of date time) - zone_offset_as_parsed zone)%Z.
Proof.
  intros Hd Dd Ht Dt Hz. unfold ConvertDatetimeIso8601ToTimestamp.
  rewrite ToTm_wellformed by assumption. cbn [rbind].
  set (t := timegm _).
  assert (HcZ : contains "Z" (date ++ "T"%char :: time) = false)
    by (apply contains_datetime; auto).
  assert (Hcp : contains "+" (date ++ "T"%char :: time) = false)
    by (apply contains_datetime; auto).
  assert (Hcm : contains "-" (date ++ "T"%char :: time) = false)
    by (apply contains_datetime; auto).
  assert (Hfl : find_last_of (str "+-") (date ++ "T"%char :: time) = None).
  { rewrite find_last_of_app_none;
      [apply find_last_of_digits; [apply digit_not_sign|assumption]|].
    cbn [find_last_of].
    rewrite find_last_of_digits; [reflexivity|apply digit_not_sign|assumption]. }
  replace (date ++ "T"%char :: time ++ zone)
    with ((date ++ "T"%char :: time) ++ zone)
    by (rewrite <- app_assoc; reflexivity).
  set (dt := date ++ "T"%char :: time) in *.
  destruct Hz as [->|[->|(sign & d4 & Hsign & H4 & D4 & ->)]].
  - rewrite app_nil_r. unfold ParseTimezoneOffset. rewrite HcZ, Hfl. cbn [rbind].
    rewrite Hcp, Hcm. cbn. f_equal. lia.
  - unfold ParseTimezoneOffset. rewrite !contains_app, HcZ.
    unfold contains at 1 2. cbn [existsb]. rewrite chr_eqb_refl.
    cbn [orb negb andb rbind zone_offset_as_parsed]. reflexivity.
  - apply length_S_inv in H4. destruct H4 as (h1 & d3 & -> & H4).
    apply length_S_inv in H4. destruct H4 as (h2 & d2 & -> & H4).
    apply length_S_inv in H4. destruct H4 as (m1 & d1 & -> & H4).
    apply length_S_inv in H4. destruct H4 as (m2 & d0 & -> & H4).
    apply length_zero_iff_nil in H4. rewrite H4 in *. clear H4 d0.
    cbn [all_of forallb] in D4.
    apply andb_prop in D4. destruct D4 as [Hh1 D4].
    apply andb_prop in D4. destruct D4 as [Hh2 D4].
    apply andb_prop in D4. destruct D4 as [Hm1 D4].
    apply andb_prop in D4. destruct D4 as [Hm2 _].
    rewrite ParseTimezoneOffset_signed by assumption. cbn [rbind].
    rewrite !contains_app, HcZ, Hcp, Hcm.
    replace (negb (false || contains "Z" [sign; h1; h2; m1; m2]) &&
             negb (false || contains "+" [sign; h1; h2; m1; m2]) &&
             negb (false || contains "-" [sign; h1; h2; m1; m2])) with false.
    + reflexivity.
    + unfold contains. cbn [existsb orb].
      destruct Hsign as [->| ->].
      * rewrite (chr_eqb_refl "+"). cbn [orb negb andb].
        now rewrite andb_false_r.
      * rewrite (chr_eqb_refl "-"). cbn [orb negb andb].
        now rewrite andb_false_r.
Qed.

(** The decoder's zone offset is the grammar's exactly when the tens digit
    of the minutes is 0. *)
Lemma zone_offset_as_parsed_correct_iff sign h1 h2 m1 m2 :
  isdigit m1 = true ->
  zone_offset_as_parsed [sign; h1; h2; m1; m2] = zone_offset [sign; h1; h2; m1; m2]
  <-> digit_val m1 = 0%Z.
Proof.
  intros Hm1. pose proof (digit_val_range m1 Hm1).
  unfold zone_offset_as_parsed, zone_offset, decimal, decimal_from. cbn [fold_left].
  destruct (chr_eqb sign "-"); split; intros; lia.
Qed.

(** ** Encoding, and the way back *)

Local Open Scope Z_scope.

(** The character of a digit value. *)
(** Two and four decimal places. *)
(** A decidable property of the numbers below [N], checked by running it. *)
Lemma Z_bounded_check (P : Z -> bool) (N : Z) :
  forallb P (map Z.of_nat (seq 0 (Z.to_nat N))) = true ->
  forall n, (0 <= n < N)%Z -> P n = true.
Proof.
  rewrite forallb_forall. intros H n Hn. apply H. apply in_map_iff.
  exists (Z.to_nat n). split; [lia|]. apply in_seq. lia.
Qed.

Lemma cstring_eqb_eq (a b : cstring) : cstring_eqb a b = true -> a = b.
Proof.
  revert b; induction a as [|x a IH]; intros [|y b]; cbn; try discriminate; auto.
  intros H. apply andb_prop in H. destruct H as [Hx Hab].
  apply chr_eqb_eq in Hx. subst. f_equal. auto.
Qed.

Lemma dchr_digit d : (0 <= d <= 9)%Z -> isdigit (dchr d) = true /\ digit_val (dchr d) = d.
Proof.
  intros Hd.
  pose proof (Z_bounded_check
    (fun d => isdigit (dchr d) && (digit_val (dchr d) =? d)%Z) 10%Z eq_refl d ltac:(lia)) as H.
  cbv beta in H. apply andb_prop in H. destruct H as [H1 H2].
  apply Z.eqb_eq in H2. auto.
Qed.

Lemma fmt_num_2 n : (0 <= n < 100)%Z -> fmt_num 2 n = two n.
Proof.
  intros Hn. apply cstring_eqb_eq.
  apply (Z_bounded_check
    (fun n => cstring_eqb (fmt_num 2 n) (two n)) 100%Z); [|lia].
  vm_compute. reflexivity.
Qed.

Lemma fmt_num_4 n :
  (0 <= n < 10000)%Z ->
  fmt_num 4 n = four n.
Proof.
  intros Hn. apply cstring_eqb_eq.
  apply (Z_bounded_check
    (fun n => cstring_eqb (fmt_num 4 n) (four n)) 10000%Z); [|lia].
  vm_compute. reflexivity.
Qed.

Ltac bool_to_Z :=
  repeat match goal with
  | H : (_ <? _) = true |- _ => apply Z.ltb_lt in H
  | H : (_ <? _) = false |- _ => apply Z.ltb_ge in H
  | H : (_ <=? _) = true |- _ => apply Z.leb_le in H
  | H : (_ <=? _) = false |- _ => apply Z.leb_gt in H
  end.

Lemma yoe_range doe :
  0 <= doe <= 146096 ->
  let yoe := (doe - doe / 1460 + doe / 36524 - doe / 146096) / 365 in
  let doy := doe - (365 * yoe + yoe / 4 - yoe / 100) in
  0 <= yoe <= 399 /\ 0 <= doy <= 365.
Proof.
  intros H. cbv zeta. Z.div_mod_to_equations. lia.
Qed.

Lemma mp_range doy :
  0 <= doy <= 365 ->
  let mp := (5 * doy + 2) / 153 in
  let d := doy - (153 * mp + 2) / 5 + 1 in
  0 <= mp <= 11 /\ 1 <= d <= 31 /\ (153 * mp + 2) / 5 + d - 1 = doy.
Proof.
  intros H. cbv zeta. Z.div_mod_to_equations. lia.
Qed.

(** The calendar date of a day number has that day number. *)
Lemma civil_roundtrip z y m d :
  civil_from_days z = (y, m, d) ->
  days_from_civil y m d = z /\ 1 <= m <= 12 /\ 1 <= d <= 31.
Proof.
  unfold civil_from_days. cbv zeta.
  set (z' := z + 719468). set (era := z' / 146097).
  set (doe := z' - era * 146097).
  assert (Hdoe : 0 <= doe <= 146096) by (subst doe era; Z.div_mod_to_equations; lia).
  pose proof (yoe_range doe Hdoe) as Hy. cbv zeta in Hy.
  set (yoe := (doe - doe / 1460 + doe / 36524 - doe / 146096) / 365) in *.
  set (doy := doe - (365 * yoe + yoe / 4 - yoe / 100)) in *.
  destruct Hy as [Hyoe Hdoy].
  pose proof (mp_range doy Hdoy) as Hm. cbv zeta in Hm.
  set (mp := (5 * doy + 2) / 153) in *.
  set (dd := doy - (153 * mp + 2) / 5 + 1) in *.
  destruct Hm as (Hmp & Hd & Hdoy').
  intros E. injection E as <- <- <-.
  assert (Hm : (if mp <? 10 then mp + 3 else mp - 9) = (if mp <? 10 then mp + 3 else mp - 9)) by reflexivity.
  unfold days_from_civil. cbv zeta.
  destruct (mp <? 10) eqn:E1; bool_to_Z.
  - destruct (mp + 3 <=? 2) eqn:E2; bool_to_Z; [lia|].
    replace ((mp + 3 + 9) mod 12) with mp by (Z.div_mod_to_equations; lia).
    replace ((yoe + era * 400) / 400) with era by (Z.div_mod_to_equations; lia).
    replace (yoe + era * 400 - era * 400) with yoe by lia.
    rewrite Hdoy'. subst doy doe z'. lia.
  - destruct (mp - 9 <=? 2) eqn:E2; bool_to_Z; [|lia].
    replace ((mp - 9 + 9) mod 12) with mp by (Z.div_mod_to_equations; lia).
    replace ((yoe + era * 400 + 1 - 1) / 400) with era by (Z.div_mod_to_equations; lia).
    replace (yoe + era * 400 + 1 - 1 - era * 400) with yoe by lia.
    rewrite Hdoy'. subst doy doe z'. lia.
Qed.

Lemma civil_year_range z y m d :
  civil_from_days z = (y, m, d) ->
  0 <= z < 2932897 -> 1970 <= y <= 9999.
Proof.
  unfold civil_from_days. cbv zeta.
  set (z' := z + 719468). set (era := z' / 146097).
  set (doe := z' - era * 146097).
  assert (Hdoe : 0 <= doe <= 146096) by (subst doe era; Z.div_mod_to_equations; lia).
  pose proof (yoe_range doe Hdoe) as Hy. cbv zeta in Hy.
  set (yoe := (doe - doe / 1460 + doe / 36524 - doe / 146096) / 365) in *.
  set (doy := doe - (365 * yoe + yoe / 4 - yoe / 100)) in *.
  destruct Hy as [Hyoe Hdoy].
  pose proof (mp_range doy Hdoy) as Hm. cbv zeta in Hm.
  set (mp := (5 * doy + 2) / 153) in *.
  set (dd := doy - (153 * mp + 2) / 5 + 1) in *.
  destruct Hm as (Hmp & Hd & Hdoy').
  intros E Hz. injection E as <- _ _.
  assert (Hera : 4 <= era <= 24) by (subst era z'; Z.div_mod_to_equations; lia).
  assert (Hlo : era = 4 -> 135080 <= doe) by (intros; subst doe era z'; Z.div_mod_to_equations; lia).
  assert (Hhi : era = 24 -> doe < 146037) by (intros; subst doe era z'; Z.div_mod_to_equations; lia).
  destruct (mp <? 10) eqn:E1; bool_to_Z.
  - destruct (mp + 3 <=? 2) eqn:E2; bool_to_Z; [lia|].
    split.
    + assert (era = 4 -> 370 <= yoe); [|lia].
      intros He. specialize (Hlo He). subst mp doy yoe. Z.div_mod_to_equations. lia.
    + assert (era = 24 -> yoe <= 399); lia.
  - destruct (mp - 9 <=? 2) eqn:E2; bool_to_Z; [|lia].
    split.
    + assert (era = 4 -> 369 <= yoe); [|lia].
      intros He. specialize (Hlo He). subst yoe. Z.div_mod_to_equations. lia.
    + assert (era = 24 -> yoe <= 398); [|lia].
      intros He. specialize (Hhi He). subst mp doy yoe. Z.div_mod_to_equations. lia.
Qed.

Lemma days_from_civil_day y m d : days_from_civil y m d = days_from_civil y m 1 + (d - 1).
Proof. unfold days_from_civil. cbv zeta. lia. Qed.

(** [timegm] undoes [gmtime]. *)
Lemma timegm_broken_down t off : timegm (broken_down t off) = t.
Proof.
  unfold broken_down. destruct (civil_from_days (t / 86400)) as [[y m] d] eqn:E.
  destruct (civil_roundtrip _ _ _ _ E) as (Hr & Hm & Hd).
  unfold timegm. cbn [tm_year tm_mon tm_mday tm_hour tm_min tm_sec].
  replace (y - 1900 + 1900 + (m - 1) / 12) with y by (Z.div_mod_to_equations; lia).
  replace ((m - 1) mod 12 + 1) with m by (Z.div_mod_to_equations; lia).
  rewrite <- days_from_civil_day, Hr.
  Z.div_mod_to_equations; lia.
Qed.

Lemma broken_down_ranges t off :
  0 <= t < 253402300800 ->
  let b := broken_down t off in
  0 <= tm_year b + 1900 < 10000 /\ 0 <= tm_mon b + 1 < 100 /\
  0 <= tm_mday b < 100 /\ 0 <= tm_hour b < 100 /\ 0 <= tm_min b < 100 /\
  0 <= tm_sec b < 100.
Proof.
  intros Ht. unfold broken_down.
  destruct (civil_from_days (t / 86400)) as [[y m] d] eqn:E.
  destruct (civil_roundtrip _ _ _ _ E) as (_ & Hm & Hd).
  assert (Hy : 1970 <= y <= 9999).
  { apply (civil_year_range _ _ _ _ E). Z.div_mod_to_equations. lia. }
  cbn [tm_year tm_mon tm_mday tm_hour tm_min tm_sec].
  repeat split; try lia; Z.div_mod_to_equations; lia.
Qed.


Lemma two_digits n :
  0 <= n < 100 -> all_of isdigit (two n) = true /\ decimal (two n) = n.
Proof.
  intros Hn. unfold two, decimal, decimal_from. cbn [all_of forallb fold_left].
  destruct (dchr_digit (n / 10)) as [H1 V1]; [Z.div_mod_to_equations; lia|].
  destruct (dchr_digit (n mod 10)) as [H2 V2]; [Z.div_mod_to_equations; lia|].
  rewrite H1, H2, V1, V2. split; [reflexivity|]. Z.div_mod_to_equations; lia.
Qed.

Lemma four_digits n :
  0 <= n < 10000 -> all_of isdigit (four n) = true /\ decimal (four n) = n.
Proof.
  intros Hn. unfold four, decimal, decimal_from. cbn [all_of forallb fold_left].
  destruct (dchr_digit (n / 1000)) as [H1 V1]; [Z.div_mod_to_equations; lia|].
  destruct (dchr_digit (n / 100 mod 10)) as [H2 V2]; [Z.div_mod_to_equations; lia|].
  destruct (dchr_digit (n / 10 mod 10)) as [H3 V3]; [Z.div_mod_to_equations; lia|].
  destruct (dchr_digit (n mod 10)) as [H4 V4]; [Z.div_mod_to_equations; lia|].
  rewrite H1, H2, H3, H4, V1, V2, V3, V4. split; [reflexivity|].
  Z.div_mod_to_equations; lia.
Qed.

Lemma fmt_z_zone_of off : Z.abs off < 360000 -> fmt_z off = zone_of off.
Proof.
  intros H. unfold fmt_z, zone_of. cbv zeta.
  assert (E1 : pad0 2 (to_digits (Z.abs off / 60 / 60)) = two (Z.abs off / 60 / 60)).
  { rewrite <- fmt_num_2 by (Z.div_mod_to_equations; lia). unfold fmt_num.
    rewrite (proj2 (Z.ltb_ge _ _)); [reflexivity|Z.div_mod_to_equations; lia]. }
  assert (E2 : pad0 2 (to_digits (Z.abs off / 60 mod 60)) = two (Z.abs off / 60 mod 60)).
  { rewrite <- fmt_num_2 by (Z.div_mod_to_equations; lia). unfold fmt_num.
    rewrite (proj2 (Z.ltb_ge _ _)); [reflexivity|Z.div_mod_to_equations; lia]. }
  rewrite E1, E2. reflexivity.
Qed.

Lemma chr_eqb_sym a b : chr_eqb a b = chr_eqb b a.
Proof.
  destruct (chr_eqb a b) eqn:E1, (chr_eqb b a) eqn:E2; try reflexivity.
  - apply chr_eqb_eq in E1. subst. now rewrite chr_eqb_refl in E2.
  - apply chr_eqb_eq in E2. subst. now rewrite chr_eqb_refl in E1.
Qed.

Lemma RemoveChar_absent s c : contains c s = false -> RemoveChar s c = s.
Proof.
  unfold contains, RemoveChar. induction s as [|x s IH]; cbn; [reflexivity|].
  intros H. apply orb_false_elim in H. destruct H as [Hx Hs].
  rewrite chr_eqb_sym, Hx. cbn. now rewrite IH.
Qed.

Lemma ConvertTimeToIso8601_formatted localtime timer buf :
  localtime timer = Some buf -> strftime_iso 40 buf <> [] ->
  ConvertTimeToIso8601 localtime timer
  = Ok (RemoveChar (strftime_iso 40 buf) ":").
Proof.
  intros Hl Hs. unfold ConvertTimeToIso8601. rewrite Hl.
  destruct (strftime_iso 40 buf); [congruence|reflexivity].
Qed.

Lemma strftime_iso_shape b :
  0 <= tm_year b + 1900 < 10000 -> 0 <= tm_mon b + 1 < 100 ->
  0 <= tm_mday b < 100 -> 0 <= tm_hour b < 100 -> 0 <= tm_min b < 100 ->
  0 <= tm_sec b < 100 -> Z.abs (tm_gmtoff b) < 360000 ->
  strftime_iso 40 b = iso8601_of b (tm_gmtoff b).
Proof.
  intros Hy Hm Hd Hh Hmi Hs Hoff. unfold strftime_iso, iso8601_of.
  rewrite fmt_num_4, !fmt_num_2, fmt_z_zone_of by assumption. cbv zeta.
  rewrite !length_app. cbn [length]. rewrite !length_app.
  change (length (four (tm_year b + 1900))) with 4%nat.
  repeat match goal with
  | |- context [length (two ?n)] => change (length (two n)) with 2%nat
  end.
  change (length (zone_of (tm_gmtoff b))) with 5%nat.
  cbn [Nat.add Nat.ltb Nat.leb].
  rewrite <- !app_assoc. reflexivity.
Qed.

Lemma contains_iso8601_of c b off :
  0 <= tm_year b + 1900 < 10000 -> 0 <= tm_mon b + 1 < 100 ->
  0 <= tm_mday b < 100 -> 0 <= tm_hour b < 100 -> 0 <= tm_min b < 100 ->
  0 <= tm_sec b < 100 -> Z.abs off < 360000 ->
  isdigit c = false -> chr_eqb c "T" = false ->
  chr_eqb c "+" = false -> chr_eqb c "-" = false ->
  contains c (iso8601_of b off) = false.
Proof.
  intros Hy Hm Hd Hh Hmi Hs Hoff Hc HT Hp Hn.
  assert (Hhh : 0 <= Z.abs off / 60 / 60 < 100) by (Z.div_mod_to_equations; lia).
  assert (Hmm : 0 <= Z.abs off / 60 mod 60 < 100) by (Z.div_mod_to_equations; lia).
  unfold iso8601_of, zone_of.
  rewrite contains_app.
  rewrite (contains_digits c (four _ ++ two _ ++ two _)); [|assumption|].
  2:{ rewrite !all_of_app, (proj1 (four_digits _ Hy)), (proj1 (two_digits _ Hm)),
        (proj1 (two_digits _ Hd)). reflexivity. }
  unfold contains at 1. cbn [existsb]. rewrite HT.
  fold (contains c ((two (tm_hour b) ++ two (tm_min b) ++ two (tm_sec b)) ++
                    (if off <? 0 then "-"%char else "+"%char)
                    :: two (Z.abs off / 60 / 60) ++ two (Z.abs off / 60 mod 60))).
  rewrite contains_app.
  rewrite (contains_digits c (two _ ++ two _ ++ two _)); [|assumption|].
  2:{ rewrite !all_of_app, (proj1 (two_digits _ Hh)), (proj1 (two_digits _ Hmi)),
        (proj1 (two_digits _ Hs)). reflexivity. }
  unfold contains at 1. cbn [existsb].
  fold (contains c (two (Z.abs off / 60 / 60) ++ two (Z.abs off / 60 mod 60))).
  rewrite (contains_digits c (two _ ++ two _)); [|assumption|].
  2:{ rewrite all_of_app, (proj1 (two_digits _ Hhh)), (proj1 (two_digits _ Hmm)).
      reflexivity. }
  destruct (off <? 0); rewrite ?Hp, ?Hn; reflexivity.
Qed.

Lemma encode_shape off t :
  0 <= t + off < 253402300800 -> Z.abs off < 360000 ->
  ConvertTimeToIso8601 (localtime_in (fun _ => off)) t =
  Ok (iso8601_of (broken_down (t + off) off) off).
Proof.
  intros Ht Hoff.
  destruct (broken_down_ranges (t + off) off Ht) as (Hy & Hm & Hd & Hh & Hmi & Hs).
  set (b := broken_down (t + off) off) in *.
  assert (Hg : tm_gmtoff b = off).
  { subst b. unfold broken_down. destruct (civil_from_days _) as [[? ?] ?].
    reflexivity. }
  assert (Hl : localtime_in (fun _ => off) t = Some b).
  { unfold localtime_in. cbv zeta. fold b. unfold INT32_MAX.
    rewrite (proj2 (Z.leb_le _ _)) by lia. rewrite (proj2 (Z.leb_le _ _)) by lia.
    reflexivity. }
  assert (Hf : strftime_iso 40 b = iso8601_of b off).
  { rewrite <- Hg at 1. apply strftime_iso_shape; rewrite ?Hg; assumption. }
  rewrite (ConvertTimeToIso8601_formatted _ _ b Hl); rewrite Hf.
  - rewrite RemoveChar_absent; [reflexivity|].
    apply contains_iso8601_of; auto.
  - unfold iso8601_of, four. cbn [app]. discriminate.
Qed.

Lemma zone_offset_as_parsed_zone_of off :
  Z.abs off < 360000 -> Z.abs off mod 60 = 0 -> Z.abs off / 60 mod 60 < 10 ->
  zone_offset_as_parsed (zone_of off) = off.
Proof.
  intros Hoff Hsec Hmin. unfold zone_of, two. cbn [app].
  unfold zone_offset_as_parsed, decimal, decimal_from. cbn [fold_left].
  rewrite !(fun d H => proj2 (dchr_digit d H)) by (Z.div_mod_to_equations; lia).
  destruct (off <? 0) eqn:E; bool_to_Z.
  - change (chr_eqb "-" "-") with true. cbv iota. Z.div_mod_to_equations; lia.
  - change (chr_eqb "+" "-") with false. cbv iota. Z.div_mod_to_equations; lia.
Qed.

(** An instant written by [ConvertTimeToIso8601] in a zone whose offset is
    whole minutes with less than ten of them past the hour, in the local
    years 1970 to 9999, is read back by [ConvertDatetimeIso8601ToTimestamp]
    as the same instant. *)
Theorem round_trip_minutes_below_ten (off t : Z) :
  0 <= t + off < 253402300800 ->
  Z.abs off < 360000 -> Z.abs off mod 60 = 0 -> Z.abs off / 60 mod 60 < 10 ->
  rbind (ConvertTimeToIso8601 (localtime_in (fun _ => off)) t)
        ConvertDatetimeIso8601ToTimestamp = Ok t.
Proof.
  intros Ht Hoff Hsec Hmin.
  rewrite encode_shape by assumption. cbn [rbind]. unfold iso8601_of.
  set (b := broken_down (t + off) off).
  destruct (broken_down_ranges (t + off) off Ht) as (Hy & Hm & Hd & Hh & Hmi & Hs).
  fold b in Hy, Hm, Hd, Hh, Hmi, Hs.
  destruct (four_digits _ Hy) as [Dy Vy]. destruct (two_digits _ Hm) as [Dm Vm].
  destruct (two_digits _ Hd) as [Dd Vd]. destruct (two_digits _ Hh) as [Dh Vh].
  destruct (two_digits _ Hmi) as [Dmi Vmi]. destruct (two_digits _ Hs) as [Ds Vs].
  assert (Hhh : 0 <= Z.abs off / 60 / 60 < 100) by (Z.div_mod_to_equations; lia).
  assert (Hmm : 0 <= Z.abs off / 60 mod 60 < 100) by (Z.div_mod_to_equations; lia).
  destruct (two_digits _ Hhh) as [Dhh Vhh]. destruct (two_digits _ Hmm) as [Dmm Vmm].
  rewrite decode_wellformed.
  - f_equal.
    assert (Hf : timegm (fields_of (four (tm_year b + 1900) ++ two (tm_mon b + 1) ++ two (tm_mday b))
                                   (two (tm_hour b) ++ two (tm_min b) ++ two (tm_sec b)))
                 = timegm b).
    { unfold fields_of, timegm. cbn [tm_year tm_mon tm_mday tm_hour tm_min tm_sec].
      change (firstn 4 (four (tm_year b + 1900) ++ two (tm_mon b + 1) ++ two (tm_mday b)))
        with (four (tm_year b + 1900)).
      change (firstn 2 (skipn 4 (four (tm_year b + 1900) ++ two (tm_mon b + 1) ++ two (tm_mday b))))
        with (two (tm_mon b + 1)).
      change (skipn 6 (four (tm_year b + 1900) ++ two (tm_mon b + 1) ++ two (tm_mday b)))
        with (two (tm_mday b)).
      change (firstn 2 (two (tm_hour b) ++ two (tm_min b) ++ two (tm_sec b)))
        with (two (tm_hour b)).
      change (firstn 2 (skipn 2 (two (tm_hour b) ++ two (tm_min b) ++ two (tm_sec b))))
        with (two (tm_min b)).
      change (skipn 4 (two (tm_hour b) ++ two (tm_min b) ++ two (tm_sec b)))
        with (two (tm_sec b)).
      rewrite Vy, Vm, Vd, Vh, Vmi, Vs.
      replace (tm_year b + 1900 - 1900) with (tm_year b) by lia.
      replace (tm_mon b + 1 - 1) with (tm_mon b) by lia. reflexivity. }
    rewrite Hf. subst b. rewrite timegm_broken_down.
    assert (Hz := zone_offset_as_parsed_zone_of off Hoff Hsec Hmin).
    rewrite Hz. lia.
  - reflexivity.
  - rewrite !all_of_app, Dy, Dm, Dd. reflexivity.
  - reflexivity.
  - rewrite !all_of_app, Dh, Dmi, Ds. reflexivity.
  - right. right. exists (if off <? 0 then "-"%char else "+"%char),
      (two (Z.abs off / 60 / 60) ++ two (Z.abs off / 60 mod 60)).
    repeat split.
    + destruct (off <? 0); auto.
    + rewrite all_of_app, Dhh, Dmm. reflexivity.
Qed.

Local Close Scope Z_scope.

(** ** [std::sort], as modelled, sorts *)

Lemma insert_by_perm (x : entry) (xs : list entry) :
  Permutation (x :: xs) (insert_by fst x xs).
Proof.
  induction xs as [|y ys IH]; cbn; [reflexivity|].
  destruct (fst y <=? fst x)%Z; [|reflexivity].
  rewrite perm_swap. now apply perm_skip.
Qed.

Lemma sort_by_perm (xs : list entry) : Permutation xs (sort_by fst xs).
Proof.
  induction xs as [|x xs IH]; cbn; [reflexivity|].
  rewrite <- insert_by_perm. now apply perm_skip.
Qed.

Lemma insert_by_sorted (x : entry) (xs : list entry) :
  time_sorted xs -> time_sorted (insert_by fst x xs).
Proof.
  unfold time_sorted. induction 1 as [|y ys Hs IH Hall]; cbn.
  - repeat constructor.
  - destruct (fst y <=? fst x)%Z eqn:E.
    + apply Z.leb_le in E. constructor; [assumption|].
      rewrite <- insert_by_perm. constructor; assumption.
    + apply Z.leb_gt in E. constructor; [constructor; assumption|].
      constructor; [lia|].
      eapply Forall_impl; [|exact Hall]. cbn. intros a Ha. lia.
Qed.

Lemma sort_by_sorted (xs : list entry) : time_sorted (sort_by fst xs).
Proof.
  induction xs as [|x xs IH]; cbn; [constructor|]. now apply insert_by_sorted.
Qed.

(** The [for] loop of [rollOver] issues one [unlink] per path, in order,
    whatever [unlink] answers. *)
Lemma unlink_all_trace env ps : forall st,
  exists st', unlink_all env ps st = (Ok tt, st') /\
              st_trace st' = st_trace st ++ map ev_unlink ps.
Proof.
  induction ps as [|p ps IH]; intros st; cbn [unlink_all].
  - unfold ret. exists st. rewrite app_nil_r. auto.
  - unfold bind at 1. unfold syscall at 1.
    match goal with |- context [unlink_all env ps ?s] => destruct (IH s) as (st' & -> & Ht) end.
    exists st'. split; [reflexivity|]. rewrite Ht. cbn. now rewrite <- app_assoc.
Qed.

(** ** Running the stateful code backwards *)

Lemma bind_Ok_inv {A B} (m : M A) (k : A -> M B) st b st' :
  bind m k st = (Ok b, st') ->
  exists a st1, m st = (Ok a, st1) /\ k a st1 = (Ok b, st').
Proof.
  unfold bind. destruct (m st) as [[a|e] st1]; [eauto|discriminate].
Qed.

Lemma in_firstn {A} (x : A) n (l : list A) : In x (firstn n l) -> In x l.
Proof.
  intros H. rewrite <- (firstn_skipn n l). apply in_or_app. now left.
Qed.

(** ** What reaches the trace *)

Section Emits.
Context {A : Type} (P : event -> Prop).

Lemma emits_silent (m : M A) :
  (forall st, st_trace (snd (m st)) = st_trace st) -> emits P m.
Proof.
  intros H st. exists []. rewrite app_nil_r. split; [apply H|constructor].
Qed.

Lemma emits_ret (a : A) : emits P (ret a).
Proof. apply emits_silent. reflexivity. Qed.

Lemma emits_throw (e : exn) : emits P (throw e : M A).
Proof. apply emits_silent. reflexivity. Qed.

Lemma emits_lift (r : result A) : emits P (lift r).
Proof. apply emits_silent. reflexivity. Qed.

Lemma emits_syscall (ev : event) (answer : nat -> outcome A) :
  P ev -> emits P (syscall ev answer).
Proof.
  intros H st. exists [ev]. unfold syscall.
  destruct (answer (st_tick st)); cbn [snd st_trace]; auto.
Qed.

Lemma emits_bind {B} (m : M B) (k : B -> M A) :
  emits P m ->
  (forall b, (exists st, fst (m st) = Ok b) -> emits P (k b)) ->
  emits P (bind m k).
Proof.
  intros Hm Hk st. unfold bind.
  destruct (Hm st) as (n1 & E1 & F1).
  destruct (m st) as [[b|e] st1] eqn:E; cbn [snd] in E1.
  - destruct (Hk b (ex_intro _ st (f_equal fst E)) st1) as (n2 & E2 & F2).
    exists (n1 ++ n2). rewrite E2, E1, app_assoc. split; [reflexivity|].
    apply Forall_app. auto.
  - exists n1. auto.
Qed.
End Emits.

Lemma emits_emit P ev : P ev -> emits P (emit ev).
Proof. intros H st. exists [ev]. cbn. auto. Qed.

Lemma emits_get_fd P : emits P get_fd.
Proof. apply emits_silent. reflexivity. Qed.

Lemma emits_set_fd P fd : emits P (set_fd fd).
Proof. apply emits_silent. reflexivity. Qed.

Lemma emits_get_errno P : emits P get_errno.
Proof. apply emits_silent. reflexivity. Qed.

Lemma emits_set_errno P e : emits P (set_errno e).
Proof. apply emits_silent. reflexivity. Qed.

Lemma emits_time P env : P ev_time -> emits P (GetCurrentTimestampInSeconds env).
Proof. intros H st. exists [ev_time]. cbn. auto. Qed.

Lemma emits_call_compress P f p :
  P (ev_compress p) -> emits P (call_compress f p).
Proof. intros H st. exists [ev_compress p]. cbn. auto. Qed.

Ltac other_event := solve [intros ? ?; discriminate].

Ltac emits_step :=
  match goal with
  | |- emits _ (bind _ _) => apply emits_bind; [|intros ? _]
  | |- emits _ (ret _) => apply emits_ret
  | |- emits _ (throw _) => apply emits_throw
  | |- emits _ (lift _) => apply emits_lift
  | |- emits _ get_fd => apply emits_get_fd
  | |- emits _ (set_fd _) => apply emits_set_fd
  | |- emits _ get_errno => apply emits_get_errno
  | |- emits _ (set_errno _) => apply emits_set_errno
  | |- emits _ (cerr _) => apply emits_emit; other_event
  | |- emits _ (emit _) => apply emits_emit; other_event
  | |- emits _ FileAppender_append => apply emits_emit; other_event
  | |- emits _ (syscall _ _) => apply emits_syscall; other_event
  | |- emits _ (GetCurrentTimestampInSeconds _) => apply emits_time; other_event
  | |- emits _ (call_compress _ _) => apply emits_call_compress; other_event
  | |- emits _ (if ?b then _ else _) => destruct b
  | |- emits _ (match ?x with _ => _ end) => destruct x
  | |- emits _ (let '(_, _) := ?x in _) => destruct x
  end.

(** Nothing but the loop at the end of [rollOver] calls [unlink]; that loop
    unlinks the paths it is given. *)
Section Unlinks.
Variable env : Env.
Variable app : appender.
Variable G : cstring -> Prop.

Lemma emits_CompressLog q : emits (unlinks_only G) (CompressLog env app q).
Proof. unfold CompressLog. repeat emits_step. Qed.

Lemma emits_GetLastModifiedTimestamp q :
  emits (unlinks_only G) (GetLastModifiedTimestamp env q).
Proof. unfold GetLastModifiedTimestamp. repeat emits_step. Qed.

Lemma emits_ExistRegularFile q :
  emits (unlinks_only G) (ExistRegularFile env q).
Proof. unfold ExistRegularFile. repeat emits_step. Qed.

Lemma emits_HandleLegacyLogFile q :
  emits (unlinks_only G) (HandleLegacyLogFile env app q).
Proof.
  unfold HandleLegacyLogFile.
  apply emits_bind; [apply emits_GetLastModifiedTimestamp|intros ts _].
  destruct (ts <? 0)%Z; [repeat emits_step|].
  apply emits_bind; [apply emits_lift|intros dt _].
  apply emits_bind; [repeat emits_step|intros rn _].
  destruct (is_failed rn); [repeat emits_step|].
  apply emits_bind; [apply emits_CompressLog|intros [ok fp] _].
  apply emits_ret.
Qed.

Lemma emits_HandleBackupLogFile f d b :
  emits (unlinks_only G) (HandleBackupLogFile env app f d b).
Proof.
  unfold HandleBackupLogFile.
  destruct (_ || _); [apply emits_ret|].
  apply emits_bind; [apply emits_ExistRegularFile|intros reg _].
  destruct (negb reg); [apply emits_ret|].
  destruct (ExtractTimestamp _); [apply emits_ret|].
  apply emits_bind; [repeat emits_step|intros _ _].
  destruct (ExtractIndex _); [apply emits_HandleLegacyLogFile|].
  repeat emits_step.
Qed.

Lemma emits_readdir_loop d b entries :
  forall res, emits (unlinks_only G) (readdir_loop env app d b entries res).
Proof.
  induction entries as [|entry rest IH]; intros res; cbn [readdir_loop].
  - apply emits_ret.
  - apply emits_bind; [repeat emits_step|intros _ _].
    destruct (negb (d_is_reg entry)); [apply IH|].
    destruct (_ || _); [apply IH|].
    apply emits_bind; [apply emits_HandleBackupLogFile|intros [[ok ts] fp] _].
    apply IH.
Qed.

Lemma emits_FilterTimeBasedFilePaths q :
  emits (unlinks_only G) (FilterTimeBasedFilePaths env app q).
Proof.
  unfold FilterTimeBasedFilePaths.
  destruct (SplitPathIntoDirAndFile q) as [d b].
  destruct (is_empty b); [apply emits_ret|].
  apply emits_bind; [repeat emits_step|intros [e|[entries stop]] _].
  - repeat emits_step.
  - apply emits_bind; [repeat emits_step|intros _ _].
    apply emits_bind; [apply emits_readdir_loop|intros res _].
    apply emits_bind.
    { unfold readdir_end. repeat emits_step. }
    intros _ _. repeat emits_step.
Qed.

Lemma emits_unlink_all ps :
  Forall G ps -> emits (unlinks_only G) (unlink_all env ps).
Proof.
  induction 1 as [|q ps Hq Hps IH]; cbn [unlink_all].
  - apply emits_ret.
  - apply emits_bind.
    + apply emits_syscall. intros p [= <-]. exact Hq.
    + intros _ _. exact IH.
Qed.

Lemma emits_reopen : emits (unlinks_only G) (reopen env app).
Proof. unfold reopen. repeat emits_step. Qed.

(** What the scan of the appender's directory returns lies in [G]. *)
Hypothesis scan_in_G : forall st found,
  fst (FilterTimeBasedFilePaths env app (_fileName app) st) = Ok found ->
  Forall (fun e => G (snd e)) found.

Lemma to_unlink_in_G st found lb :
  fst (FilterTimeBasedFilePaths env app (_fileName app) st) = Ok found ->
  Forall G (paths_to_unlink lb (sort_by fst found)).
Proof.
  intros H. pose proof (scan_in_G st found H) as Hall.
  rewrite Forall_forall in *. intros p Hin. unfold paths_to_unlink in Hin.
  apply in_map_iff in Hin. destruct Hin as ([ts q] & Hp & Hin).
  cbn [snd] in Hp. subst q. apply in_firstn in Hin.
  apply (Permutation_in _ (Permutation_sym (sort_by_perm found))) in Hin.
  exact (Hall _ Hin).
Qed.

Lemma emits_rollOver : emits (unlinks_only G) (rollOver env app).
Proof.
  unfold rollOver.
  apply emits_bind; [repeat emits_step|intros fd _].
  apply emits_bind; [repeat emits_step|intros cl _].
  apply emits_bind; [repeat emits_step|intros _ _].
  apply emits_bind; [repeat emits_step|intros now _].
  apply emits_bind; [repeat emits_step|intros dt _].
  apply emits_bind; [repeat emits_step|intros rn _].
  apply emits_bind; [repeat emits_step|intros _ _].
  apply emits_bind; [apply emits_CompressLog|intros _ _].
  apply emits_bind; [apply emits_FilterTimeBasedFilePaths|intros found (st & Hf)].
  apply emits_bind; [repeat emits_step|intros now' _].
  apply emits_bind; [|intros _ _; apply emits_reopen].
  apply emits_unlink_all. eapply to_unlink_in_G; eassumption.
Qed.

Lemma emits_append : emits (unlinks_only G) (_append env app).
Proof.
  unfold _append.
  apply emits_bind; [repeat emits_step|intros fd _].
  apply emits_bind; [repeat emits_step|intros off _].
  apply emits_bind; [|intros _ _; repeat emits_step].
  destruct (int_of off <? 0)%Z; [apply emits_ret|].
  destruct (int_of off >=? _)%Z; [|apply emits_ret].
  apply emits_bind; [|intros [lock_fd locked] _; repeat emits_step].
  unfold locked_block.
  apply emits_bind; [repeat emits_step|intros lk _].
  destruct (int_of lk <? 0)%Z; [repeat emits_step|].
  apply emits_bind; [repeat emits_step|intros fl _].
  destruct (is_failed fl); [repeat emits_step|].
  apply emits_bind; [repeat emits_step|intros fd0 _].
  apply emits_bind; [repeat emits_step|intros _ _].
  apply emits_bind; [apply emits_reopen|intros _ _].
  apply emits_bind; [repeat emits_step|intros fd' _].
  apply emits_bind; [repeat emits_step|intros off' _].
  apply emits_bind; [|intros _ _; apply emits_ret].
  destruct (int_of off' <? 0)%Z; [apply emits_ret|].
  destruct (int_of off' >=? _)%Z; [apply emits_rollOver|apply emits_ret].
Qed.

(** Read on one run. *)
Lemma unlinked_in_G {A} (m : M A) st :
  emits (unlinks_only G) m ->
  exists new, st_trace (snd (m st)) = st_trace st ++ new /\
              forall p, In (ev_unlink p) new -> G p.
Proof.
  intros Hm. destruct (Hm st) as (new & E & F). exists new.
  split; [exact E|]. intros p Hin. rewrite Forall_forall in F.
  exact (F _ Hin p eq_refl).
Qed.
End Unlinks.

(** ** One run of [rollOver] *)

(** A step that returns, with what it added to the trace. *)
Lemma bind_Ok_emits {A B} (P : event -> Prop) (m : M A) (k : A -> M B)
  st b st' :
  emits P m ->
  bind m k st = (Ok b, st') ->
  exists a st1 new,
    m st = (Ok a, st1) /\ st_trace st1 = st_trace st ++ new /\
    Forall P new /\ k a st1 = (Ok b, st').
Proof.
  intros Hm H. apply bind_Ok_inv in H. destruct H as (a & st1 & E & H).
  destruct (Hm st) as (new & Ht & Hn). rewrite E in Ht. cbn [snd] in Ht.
  exists a, st1, new. auto.
Qed.

Lemma no_unlink_in (new : list event) :
  Forall (unlinks_only (fun _ => False)) new ->
  forall p, ~ In (ev_unlink p) new.
Proof.
  intros H p Hin. rewrite Forall_forall in H. exact (H _ Hin p eq_refl).
Qed.

(** [rollOver] that returns: what it does before the scan, the scan, the
    clock read if the age limit is on, the [unlink] of the paths below the
    bound in the sorted vector, and the [open]. Only the loop calls
    [unlink]. *)
Lemma rollOver_run env app st st' :
  rollOver env app st = (Ok tt, st') ->
  exists st_a found st_b before during after,
    st_trace st_a = st_trace st ++ before /\
    FilterTimeBasedFilePaths env app (_fileName app) st_a = (Ok found, st_b) /\
    st_trace st_b = st_trace st_a ++ during /\
    (forall p, ~ In (ev_unlink p) (before ++ during)) /\
    (forall p, ~ In (ev_unlink p) after) /\
    let paths := sort_by fst found in
    let now := if (_maxBackupDays app >=? 0)%Z
               then os_time env (st_tick st_b) else 0%Z in
    let lb := retention_lower_bound (_maxBackupCount app) (_maxBackupDays app)
                                    now paths in
    st_trace st' =
      st_trace st_b
      ++ (if (_maxBackupDays app >=? 0)%Z then [ev_time] else [])
      ++ map ev_unlink (paths_to_unlink lb paths) ++ after.
Proof.
  intros H. unfold rollOver in H.
  set (P := unlinks_only (fun _ : cstring => False)).
  apply (bind_Ok_emits P) in H; [|repeat emits_step].
  destruct H as (fd & s1 & n1 & _ & T1 & F1 & H).
  apply (bind_Ok_emits P) in H; [|repeat emits_step].
  destruct H as (cl & s2 & n2 & _ & T2 & F2 & H).
  apply (bind_Ok_emits P) in H; [|repeat emits_step].
  destruct H as (? & s3 & n3 & _ & T3 & F3 & H).
  apply (bind_Ok_emits P) in H; [|repeat emits_step].
  destruct H as (now0 & s4 & n4 & _ & T4 & F4 & H).
  apply (bind_Ok_emits P) in H; [|repeat emits_step].
  destruct H as (dt & s5 & n5 & _ & T5 & F5 & H).
  apply (bind_Ok_emits P) in H; [|repeat emits_step].
  destruct H as (rn & s6 & n6 & _ & T6 & F6 & H).
  apply (bind_Ok_emits P) in H; [|repeat emits_step].
  destruct H as (? & s7 & n7 & _ & T7 & F7 & H).
  apply (bind_Ok_emits P) in H; [|apply emits_CompressLog].
  destruct H as (? & s8 & n8 & _ & T8 & F8 & H).
  apply (bind_Ok_emits P) in H; [|apply emits_FilterTimeBasedFilePaths].
  destruct H as (found & s9 & n9 & Hscan & T9 & F9 & H).
  apply bind_Ok_inv in H. destruct H as (now' & s10 & Hnow & H).
  apply bind_Ok_inv in H. destruct H as ([] & s11 & Hun & H).
  destruct (emits_reopen env app (fun _ => False) s11) as (n12 & T12 & F12).
  rewrite H in T12. cbn [snd] in T12.
  destruct (unlink_all_trace env
              (paths_to_unlink
                 (retention_lower_bound (_maxBackupCount app)
                    (_maxBackupDays app) now' (sort_by fst found))
                 (sort_by fst found)) s10) as (s11' & Hun' & T11).
  rewrite Hun in Hun'. injection Hun' as <-.
  exists s8, found, s9, (n1 ++ n2 ++ n3 ++ n4 ++ n5 ++ n6 ++ n7 ++ n8), n9, n12.
  split.
  { rewrite T8, T7, T6, T5, T4, T3, T2, T1, <- !app_assoc. reflexivity. }
  split; [exact Hscan|]. split; [exact T9|]. split.
  { apply no_unlink_in. repeat (apply Forall_app; split); assumption. }
  split; [apply no_unlink_in; exact F12|].
  cbv zeta. rewrite T12, T11.
  destruct (_maxBackupDays app >=? 0)%Z.
  - unfold GetCurrentTimestampInSeconds in Hnow. injection Hnow as <- <-.
    cbn [st_trace]. rewrite <- !app_assoc. reflexivity.
  - unfold ret in Hnow. injection Hnow as <- <-.
    rewrite <- !app_assoc. reflexivity.
Qed.

(** The scan returns at most one entry for each entry of the directory. *)
Lemma readdir_loop_length env app d b entries : forall res st found st',
  readdir_loop env app d b entries res st = (Ok found, st') ->
  (length found <= length res + length entries)%nat.
Proof.
  induction entries as [|entry rest IH]; intros res st found st' H;
    cbn [readdir_loop] in H.
  - unfold ret in H. injection H as <- _. lia.
  - apply bind_Ok_inv in H. destruct H as (? & st1 & _ & H). cbn [length].
    destruct (negb (d_is_reg entry)); [apply IH in H; lia|].
    destruct (_ || _); [apply IH in H; lia|].
    apply bind_Ok_inv in H. destruct H as ([[ok ts] fp] & st2 & _ & H).
    apply IH in H. destruct ok; [rewrite length_app in H; cbn [length] in H|];
      lia.
Qed.

Lemma scan_length env app base st found st' (bound : Z) :
  (forall n d entries stop,
     os_opendir env n d = done (entries, stop) ->
     (Z.of_nat (length entries) <= bound)%Z) ->
  (0 <= bound)%Z ->
  FilterTimeBasedFilePaths env app base st = (Ok found, st') ->
  (Z.of_nat (length found) <= bound)%Z.
Proof.
  intros Hdir Hb H. unfold FilterTimeBasedFilePaths in H.
  destruct (SplitPathIntoDirAndFile base) as [d b].
  destruct (is_empty b); [unfold ret in H; injection H as <- _; cbn; lia|].
  apply bind_Ok_inv in H. destruct H as (o & st1 & Ho & H).
  unfold syscall in Ho. injection Ho as <- _.
  destruct (os_opendir env (st_tick st) d) as [e|[entries stop]] eqn:Eo.
  { apply bind_Ok_inv in H. destruct H as (? & ? & _ & H).
    unfold ret in H. injection H as <- _. cbn; lia. }
  apply Hdir in Eo.
  apply bind_Ok_inv in H. destruct H as (? & st2 & _ & H).
  apply bind_Ok_inv in H. destruct H as (res & st3 & Hloop & H).
  apply bind_Ok_inv in H. destruct H as (? & st4 & _ & H).
  apply bind_Ok_inv in H. destruct H as (errno & st5 & _ & H).
  apply bind_Ok_inv in H. destruct H as (res' & st6 & Hres & H).
  apply bind_Ok_inv in H. destruct H as (? & st7 & _ & H).
  unfold ret in H. injection H as <- _.
  apply readdir_loop_length in Hloop. cbn [length] in Hloop.
  destruct (negb (errno =? 0)%Z).
  - apply bind_Ok_inv in Hres. destruct Hres as (? & ? & _ & Hres).
    unfold ret in Hres. injection Hres as <- _. cbn; lia.
  - unfold ret in Hres. injection Hres as <- _. lia.
Qed.

(** * The claims *)

(** The bound that [rollOver] computes. On a time-sorted vector whose size
    fits [std::int32_t], with limits in [std::int32_t] and a threshold in
    [std::int64_t]: it is [max(0, len - max_backup_count)] when the count
    limit is set (0 when it is not), raised, when the age limit is set, to
    the smallest index whose timestamp is at least
    [now - max_backup_days * 86400], the length when there is none. *)
Lemma retention_lower_bound_spec
  (maxBackupCount maxBackupDays now : Z) (paths : list entry) :
  time_sorted paths ->
  (Z.of_nat (length paths) <= INT32_MAX)%Z ->
  (- INT32_MAX - 1 <= maxBackupCount <= INT32_MAX)%Z ->
  (- INT32_MAX - 1 <= maxBackupDays <= INT32_MAX)%Z ->
  (INT64_MIN <= now - maxBackupDays * 86400 <= INT64_MAX)%Z ->
  let len := Z.of_nat (length paths) in
  let count_bound :=
    if (maxBackupCount >=? 0)%Z then Z.max 0 (len - maxBackupCount)
    else 0%Z in
  let lb := retention_lower_bound maxBackupCount maxBackupDays now paths in
  ((maxBackupDays < 0)%Z -> lb = count_bound) /\
  ((0 <= maxBackupDays)%Z ->
     exists i,
       smallest_index_at_least (now - maxBackupDays * 86400) paths i /\
       lb = Z.max count_bound (Z.of_nat i)) /\
  (0 <= lb <= len)%Z /\
  paths_to_unlink lb paths = map snd (firstn (Z.to_nat lb) paths) /\
  paths = firstn (Z.to_nat lb) paths ++ paths_retained lb paths /\
  (forall env st, exists st',
     unlink_all env (paths_to_unlink lb paths) st = (Ok tt, st') /\
     st_trace st' =
       st_trace st ++ map ev_unlink (map snd (firstn (Z.to_nat lb) paths))).
Proof.
  intros Hs Hlen Hc Hd Hnow len count_bound lb.
  unfold INT32_MAX, INT64_MIN, INT64_MAX in *.
  assert (Hlb1 : (if (maxBackupCount >=? 0)%Z
                  then Z.max 0 (Z.max 0 (wrap32 (wrap32 len - maxBackupCount)))
                  else 0%Z) = count_bound).
  { subst count_bound. destruct (maxBackupCount >=? 0)%Z eqn:E; [|reflexivity].
    apply Z.geb_le in E. rewrite (wrap32_small len) by lia.
    rewrite wrap32_small by lia. lia. }
  assert (Hcb : (0 <= count_bound <= len)%Z).
  { subst count_bound. destruct (maxBackupCount >=? 0)%Z eqn:E; [|lia].
    apply Z.geb_le in E. lia. }
  assert (Hth : wrap64 (now - wrap64 (maxBackupDays * 24 * 60 * 60))
                = (now - maxBackupDays * 86400)%Z).
  { rewrite (wrap64_small (maxBackupDays * 24 * 60 * 60))
      by (unfold INT64_MIN, INT64_MAX; lia).
    rewrite wrap64_small by (unfold INT64_MIN, INT64_MAX; lia). lia. }
  pose proof (lower_bound_smallest paths (now - maxBackupDays * 86400)%Z Hs)
    as Hsm.
  assert (Hlbv :
    lb = if (maxBackupDays >=? 0)%Z
         then Z.max count_bound
                (Z.of_nat (lower_bound fst paths (now - maxBackupDays * 86400)))
         else count_bound).
  { subst lb. unfold retention_lower_bound. fold len. cbv zeta.
    rewrite Hlb1, Hth.
    destruct (maxBackupDays >=? 0)%Z; [|reflexivity].
    destruct Hsm as (Hle & _).
    destruct (lower_bound fst paths (now - maxBackupDays * 86400)
              =? length paths)%nat eqn:E.
    - apply Nat.eqb_eq in E. rewrite E. cbn [negb].
      rewrite wrap32_small by lia. fold len. lia.
    - cbn [negb]. rewrite wrap32_small by lia. reflexivity. }
  repeat split.
  - intros Hneg. rewrite Hlbv.
    destruct (maxBackupDays >=? 0)%Z eqn:E; [|reflexivity].
    apply Z.geb_le in E. lia.
  - intros Hpos.
    exists (lower_bound fst paths (now - maxBackupDays * 86400)).
    split; [assumption|].
    rewrite Hlbv. destruct (maxBackupDays >=? 0)%Z eqn:E; [reflexivity|].
    rewrite Z.geb_leb in E. apply Z.leb_gt in E. lia.
  - rewrite Hlbv. destruct (maxBackupDays >=? 0)%Z; lia.
  - rewrite Hlbv. destruct Hsm as (Hle & _).
    destruct (maxBackupDays >=? 0)%Z; lia.
  - unfold paths_retained. symmetry. apply firstn_skipn.
  - intros env st. apply unlink_all_trace.
Qed.

(** C1. Retention evaluation, on a run of [rollOver]. With the limits in
    [std::int32_t], a clock whose threshold fits [std::int64_t] and
    directories of at most [INT_MAX] entries, a [rollOver] that returns has
    scanned the directory, sorted what the scan returned into a time-sorted
    vector [paths], read the clock when the age limit is set, and then
    unlinked the paths at [[0, lb)] of the vector, each once and in order,
    where [lb] is [max(0, len - max_backup_count)] when the count limit is
    set (0 when it is not), raised, when the age limit is set, to the
    smallest index whose timestamp is at least
    [now - max_backup_days * 86400], the length when there is none. Nothing
    else is unlinked in the run: the entries from [lb] on are left. *)
Theorem retention_lower_bound_correct (env : Env) (app : appender)
  (st st' : state) :
  (- INT32_MAX - 1 <= _maxBackupCount app <= INT32_MAX)%Z ->
  (- INT32_MAX - 1 <= _maxBackupDays app <= INT32_MAX)%Z ->
  (forall n, INT64_MIN <= os_time env n - _maxBackupDays app * 86400
             <= INT64_MAX)%Z ->
  (forall n d entries stop,
     os_opendir env n d = done (entries, stop) ->
     (Z.of_nat (length entries) <= INT32_MAX)%Z) ->
  rollOver env app st = (Ok tt, st') ->
  exists st_a found st_b paths lb before during after,
    st_trace st_a = st_trace st ++ before /\
    FilterTimeBasedFilePaths env app (_fileName app) st_a = (Ok found, st_b) /\
    st_trace st_b = st_trace st_a ++ during /\
    Permutation found paths /\ time_sorted paths /\
    let len := Z.of_nat (length paths) in
    let now := os_time env (st_tick st_b) in
    let count_bound :=
      if (_maxBackupCount app >=? 0)%Z
      then Z.max 0 (len - _maxBackupCount app) else 0%Z in
    ((_maxBackupDays app < 0)%Z -> lb = count_bound) /\
    ((0 <= _maxBackupDays app)%Z ->
       exists i,
         smallest_index_at_least (now - _maxBackupDays app * 86400) paths i /\
         lb = Z.max count_bound (Z.of_nat i)) /\
    (0 <= lb <= len)%Z /\
    st_trace st' =
      st_trace st_b
      ++ (if (_maxBackupDays app >=? 0)%Z then [ev_time] else [])
      ++ map ev_unlink (map snd (firstn (Z.to_nat lb) paths)) ++ after /\
    (forall p, ~ In (ev_unlink p) (before ++ during)) /\
    (forall p, ~ In (ev_unlink p) after).
Proof.
  intros Hc Hd Hnow Hdir H.
  destruct (rollOver_run env app st st' H)
    as (st_a & found & st_b & before & during & after
        & Ta & Hscan & Tb & Hpre & Hpost & Ht).
  cbv zeta in Ht.
  set (paths := sort_by fst found) in *.
  set (now := if (_maxBackupDays app >=? 0)%Z
              then os_time env (st_tick st_b) else 0%Z) in *.
  assert (Hlen : (Z.of_nat (length paths) <= INT32_MAX)%Z).
  { unfold paths. rewrite <- (Permutation_length (sort_by_perm found)).
    eapply scan_length; [exact Hdir|unfold INT32_MAX; lia|exact Hscan]. }
  assert (Hth : (INT64_MIN <= now - _maxBackupDays app * 86400 <= INT64_MAX)%Z).
  { unfold now. destruct (_maxBackupDays app >=? 0)%Z; [apply Hnow|].
    unfold INT32_MAX, INT64_MIN, INT64_MAX in *. lia. }
  destruct (retention_lower_bound_spec (_maxBackupCount app)
              (_maxBackupDays app) now paths (sort_by_sorted found)
              Hlen Hc Hd Hth) as (L1 & L2 & L3 & L4 & _).
  exists st_a, found, st_b, paths,
    (retention_lower_bound (_maxBackupCount app) (_maxBackupDays app) now paths),
    before, during, after.
  split; [exact Ta|]. split; [exact Hscan|]. split; [exact Tb|].
  split; [apply sort_by_perm|]. split; [apply sort_by_sorted|].
  cbv zeta. split; [exact L1|]. split.
  { intros Hpos. destruct (L2 Hpos) as (i & Hi & Hlb).
    assert (Hn : now = os_time env (st_tick st_b))
      by (unfold now; rewrite (proj2 (Z.geb_le _ _) Hpos); reflexivity).
    rewrite <- Hn. eauto. }
  split; [exact L3|]. split; [|split; assumption].
  rewrite <- L4. exact Ht.
Qed.

Lemma retention_lower_bound_correct_witness :
  (exists lb (paths : list entry) before after,
    (0 <= lb <= Z.of_nat (length paths))%Z /\
    st_trace (snd (rollOver (Scenario.env (Some 0%Z) false None)
                            (Scenario.app None) Scenario.st0))
    = before ++ map ev_unlink (map snd (firstn (Z.to_nat lb) paths)) ++ after) /\
  st_trace (snd (rollOver (Scenario.env (Some 0%Z) false None)
                          (Scenario.app None) Scenario.st0))
  = [ev_close 3; ev_time;
     ev_rename (str "foo.log") (str "foo.log.20231114T221320+0000");
     ev_opendir (str "."); ev_readdir; ev_readdir; ev_readdir; ev_readdir;
     ev_stat (str "./foo.log.20231114T000000Z"); ev_readdir;
     ev_stat (str "./foo.log.1600000000"); ev_readdir; ev_closedir; ev_time;
     ev_unlink (str "./foo.log.1600000000"); ev_open (str "foo.log")].
Proof.
  split; [|vm_compute; reflexivity].
  destruct (retention_lower_bound_correct
              (Scenario.env (Some 0%Z) false None) (Scenario.app None)
              Scenario.st0
              (snd (rollOver (Scenario.env (Some 0%Z) false None)
                             (Scenario.app None) Scenario.st0)))
    as (st_a & found & st_b & paths & lb & before & during & after
        & Ta & _ & Tb & _ & _ & _ & _ & Hlb & Ht & _).
  - unfold INT32_MAX. cbn. lia.
  - unfold INT32_MAX. cbn. lia.
  - intros n. unfold INT64_MIN, INT64_MAX. cbn. lia.
  - intros n d entries stop [= <- _]. unfold INT32_MAX. cbn. lia.
  - vm_compute. reflexivity.
  - exists lb, paths,
      (before ++ during
       ++ (if (_maxBackupDays (Scenario.app None) >=? 0)%Z
           then [ev_time] else [])), after.
    split; [exact Hlb|].
    rewrite Ht, Tb, Ta. cbn [Scenario.st0 st_trace List.app].
    rewrite <- !app_assoc. reflexivity.
Defined.

(** C2. On a rotation, a [stat] that fails on a candidate backup makes
    [ExistRegularFile] throw; nothing between it and [_append] catches, so
    [_append] is left by the exception: the record is not written, the lock
    is neither released nor closed, and [_fd] stays closed. *)
Theorem append_raises_on_stat_failure :
  _append (Scenario.env (Some 0%Z) true None) (Scenario.app None) Scenario.st0 =
  (Throw runtime_error,
   {| st_fd := 5;
      st_errno := 2;
      st_tick := 11;
      st_trace :=
        [ ev_lseek 3;
          ev_open (str "./.foo.log.lock");
          ev_flock 5 LOCK_EX;
          ev_close 3;
          ev_open (str "foo.log");
          ev_lseek 5;
          ev_close 5;
          ev_time;
          ev_rename (str "foo.log") (str "foo.log.20231114T221320+0000");
          ev_opendir (str ".");
          ev_readdir; ev_readdir; ev_readdir; ev_readdir;
          ev_stat (str "./foo.log.20231114T000000Z") ] |}).
Proof. vm_compute. reflexivity. Qed.

(** C3. The minutes of a [+hhmm] zone are read from [substr(4, 2)], which is
    the last digit alone: for [+0530] the offset taken is 5 h 0 min, not
    5 h 30 min, and the decoded instant is 1800 s late. *)
Theorem timezone_minutes_misparsed :
  ParseTimezoneOffset (str "20240115T120000+0530") = Ok 18000%Z /\
  ConvertDatetimeIso8601ToTimestamp (str "20240115T120000+0530")
  = Ok 1705302000%Z /\
  ConvertDatetimeIso8601ToTm (str "20240115T120000+0530")
  = Ok (mk_tm 0 0 12 15 0 124 0) /\
  (timegm (mk_tm 0 0 12 15 0 124 0) - 1 * (5 * 3600 + 30 * 60)
   = 1705300200)%Z.
Proof. repeat split; vm_compute; reflexivity. Qed.

(** C4. In a zone 5 h 30 min east of UTC the instant 0 is written
    [19700101T053000+0530] and read back as 1800. *)
Theorem round_trip_fails_in_half_hour_zone :
  ConvertTimeToIso8601 (localtime_in (fun _ => 19800%Z)) 0
  = Ok (str "19700101T053000+0530") /\
  ConvertDatetimeIso8601ToTimestamp (str "19700101T053000+0530")
  = Ok 1800%Z.
Proof. split; vm_compute; reflexivity. Qed.

(** Where the zone is a whole number of hours the same instants come back. *)
Example round_trip_utc_0 :
  rbind (ConvertTimeToIso8601 (localtime_in (fun _ => 0%Z)) 0)
        ConvertDatetimeIso8601ToTimestamp = Ok 0%Z.
Proof. vm_compute. reflexivity. Qed.

Example round_trip_minus_0800 :
  rbind (ConvertTimeToIso8601 (localtime_in (fun _ => (-28800)%Z)) 1577836800)
        ConvertDatetimeIso8601ToTimestamp = Ok 1577836800%Z.
Proof. vm_compute. reflexivity. Qed.

(** A suffix the ISO-8601 rule matches always decodes: it is classified
    ISO-8601. *)
Lemma classify_iso (s : cstring) :
  rule_matches rule_iso8601 s = true -> exists t, classify s = cls_iso8601 t.
Proof.
  intros Hr. pose proof Hr as Hne. cbn [rule_matches] in Hne.
  apply is_empty_false in Hne. pose proof (iso_sound s Hne) as Hi.
  destruct Hi as (date & time & zone & rest & Hd & Dd & Ht & Dt & Hz & _ & Hs & Hm).
  assert (He : ExtractTimestamp s
               = Some (timegm (fields_of date time)
                       - zone_offset_as_parsed zone)%Z).
  { unfold ExtractTimestamp. rewrite Hs at 1. cbn [is_empty].
    rewrite (proj2 (is_empty_false _) Hne), Hm.
    rewrite decode_wellformed by auto. reflexivity. }
  unfold classify. rewrite He, Hr. eauto.
Qed.

(** C5 as stated fails: a dot and eight digits is matched by the epoch rule
    and by the legacy rule. *)
Lemma classifier_rules_overlap :
  rule_matches rule_epoch (str ".12345678") = true /\
  rule_matches rule_legacy (str ".12345678") = true /\
  rule_epoch <> rule_legacy.
Proof. repeat split; try (vm_compute; reflexivity). discriminate. Qed.

(** C5, amended. Every suffix gets one classification. The ISO-8601 rule
    shares no string with the epoch rule or the legacy rule. The epoch rule
    and the legacy rule share exactly the strings made of a dot and eight or
    more digits; the order of the rules settles those: a suffix is classified
    legacy only when the epoch rule does not match it, as ISO-8601 or epoch
    only when that rule matches, and always as ISO-8601 when that rule
    matches. *)
Theorem classifier_total_and_ordered (s : cstring) :
  (exists! c, classify s = c) /\
  (rule_matches rule_iso8601 s = true ->
     rule_matches rule_epoch s = false /\
     rule_matches rule_legacy s = false) /\
  (rule_matches rule_epoch s = true /\ rule_matches rule_legacy s = true ->
     exists m, s = "."%char :: m /\ all_of isdigit m = true /\
               (8 <= length m)%nat) /\
  (forall m,
     (Z.of_nat (length s) <= INT32_MAX)%Z ->
     s = "."%char :: m -> all_of isdigit m = true -> (8 <= length m)%nat ->
     rule_matches rule_epoch s = true /\ rule_matches rule_legacy s = true) /\
  (classify s = cls_legacy ->
     rule_matches rule_legacy s = true /\
     rule_matches rule_epoch s = false /\
     rule_matches rule_iso8601 s = false) /\
  (forall t, classify s = cls_iso8601 t ->
     rule_matches rule_iso8601 s = true) /\
  (forall t, classify s = cls_epoch t ->
     rule_matches rule_epoch s = true /\
     rule_matches rule_iso8601 s = false) /\
  (rule_matches rule_iso8601 s = true ->
     exists t, classify s = cls_iso8601 t).
Proof.
  split; [|split; [|split; [|split; [|split; [|split; [|split]]]]]].
  - exists (classify s). split; [reflexivity|]. intros c H. exact H.
  - cbn [rule_matches]. intros H. apply is_empty_false in H.
    rewrite (iso_not_epoch s H), (iso_not_legacy s H). auto.
  - cbn [rule_matches]. intros [He Hl].
    apply is_empty_false in He, Hl.
    destruct (epoch_and_legacy s He Hl) as (m & Hs & Hd & H8 & _). eauto.
  - intros m Hlen Hs Hd H8. cbn [rule_matches].
    assert (Hne : m <> []) by (destruct m; cbn in H8; [lia|congruence]).
    destruct (epoch_complete s m Hlen) as [He _].
    { exists []. rewrite app_nil_r. auto. }
    destruct (proj2 (legacy_iff s m)) as [Hl _]; [repeat split; assumption|].
    rewrite He, Hl. split; apply is_empty_false; assumption.
  - apply classify_legacy.
  - apply (proj1 (classify_timestamp s)).
  - apply (proj2 (classify_timestamp s)).
  - apply classify_iso.
Qed.

(** C6. ISO-8601 suffix recognition: [ExtractDatetimeIso8601] returns a
    non-empty match [m] exactly when the string is
    [.YYYYMMDDThhmmss] followed by [Z] or by a sign and four digits, alone or
    followed by a dot and anything; [m] is the date-time with its zone,
    without the leading dot. *)
Theorem ExtractDatetimeIso8601_recognises (s m : cstring) :
  (ExtractDatetimeIso8601 s = m /\ m <> []) <-> iso8601_suffix s m.
Proof.
  split.
  - intros [<- NE]. apply iso_sound. assumption.
  - apply iso_complete.
Qed.

(** C7 as stated fails: [.9223372036854775808] has the epoch form, and no
    timestamp comes out of it. *)
Lemma epoch_value_not_yielded :
  epoch_suffix (str ".9223372036854775808") (str "9223372036854775808") /\
  ExtractTimestamp (str ".9223372036854775808")
  <> Some (decimal (str "9223372036854775808")).
Proof.
  split.
  - exists []. repeat split; try (vm_compute; reflexivity).
    + cbn. lia.
    + left; reflexivity.
  - vm_compute. discriminate.
Qed.

Lemma epoch_not_iso (s m : cstring) :
  (Z.of_nat (length s) <= INT32_MAX)%Z ->
  epoch_suffix s m -> ExtractDatetimeIso8601 s = [].
Proof.
  intros Hlen He. destruct (ExtractDatetimeIso8601 s) as [|c r] eqn:E;
    [reflexivity|exfalso].
  assert (Hi : ExtractDatetimeIso8601 s <> []) by congruence.
  apply iso_not_epoch in Hi. destruct (epoch_complete s m Hlen He). congruence.
Qed.

(** C7, amended. For a suffix whose size fits [int]: [ExtractDigits] returns
    a non-empty match [m] exactly when the suffix is a dot and the digits
    [m], at least 8, alone or followed by a dot and anything, and then
    [ExtractTimestamp] yields the value of [m] as the timestamp when that
    value is at most [INT64_MAX]; [ExtractDigits1] returns a non-empty match
    [m] exactly when the suffix is a dot followed by the digits [m], at least
    one, and nothing more. *)
Theorem epoch_and_legacy_recognition (s m : cstring) :
  (Z.of_nat (length s) <= INT32_MAX)%Z ->
  ((ExtractDigits s = m /\ m <> []) <-> epoch_suffix s m) /\
  (epoch_suffix s m -> (decimal m <= INT64_MAX)%Z ->
     ExtractTimestamp s = Some (decimal m)) /\
  ((ExtractDigits1 s = m /\ m <> []) <-> legacy_suffix s m).
Proof.
  intros Hlen. split; [|split].
  - split.
    + intros [<- NE]. apply epoch_sound. assumption.
    + apply epoch_complete. assumption.
  - intros He Hfit.
    pose proof (epoch_not_iso s m Hlen He) as Hiso.
    destruct (epoch_complete s m Hlen He) as [Hd Hne].
    destruct He as (rest & Hs & Hm & H8 & _).
    unfold ExtractTimestamp. rewrite Hs at 1. cbn [is_empty].
    rewrite Hiso, Hd. cbn [is_empty negb].
    rewrite (proj2 (is_empty_false m) Hne).
    rewrite ConvertStrToInt64_fits by assumption. reflexivity.
  - apply legacy_iff.
Qed.

Lemma epoch_and_legacy_recognition_witness :
  (Z.of_nat (length (str ".1577836800.gz")) <= INT32_MAX)%Z /\
  ExtractTimestamp (str ".1577836800.gz") = Some 1577836800%Z.
Proof.
  assert (Hlen : (Z.of_nat (length (str ".1577836800.gz")) <= INT32_MAX)%Z)
    by (cbn; unfold INT32_MAX; lia).
  split; [exact Hlen|].
  refine (proj1 (proj2 (epoch_and_legacy_recognition
                          (str ".1577836800.gz") (str "1577836800") Hlen))
                _ _).
  - exists (str ".gz"). repeat split; try (vm_compute; reflexivity).
    + cbn. lia.
    + right. exists (str "gz"). reflexivity.
  - vm_compute. discriminate.
Defined.

(** C8 as stated fails twice. When the compressor fails,
    [compressed_file_path] comes back as the compressor left it, not empty;
    and the source is not always left in place: what is removed is the path
    the compressor stored, which a compressor that works in place makes the
    source itself. *)
Lemma CompressLog_failure_keeps_path :
  (fst (CompressLog (Scenario.env (Some 0%Z) false None)
                    (Scenario.app (Some Scenario.gz_that_fails))
                    (str "foo.log.1") Scenario.st0)
   = Ok (false, str "foo.log.1.gz") /\
   str "foo.log.1.gz" <> []) /\
  CompressLog (Scenario.env (Some 0%Z) false None)
              (Scenario.app (Some Fixture.in_place_that_fails))
              (str "foo.log.1") Scenario.st0
  = (Ok (false, str "foo.log.1"),
     mk_state 3 0 2
       [ev_compress (str "foo.log.1");
        ev_cerr (Could_not_compress (str "foo.log.1") (str "foo.log.1"));
        ev_remove (str "foo.log.1")]).
Proof.
  split; [split; [vm_compute; reflexivity|discriminate]|].
  vm_compute. reflexivity.
Qed.

(** C8, amended. Without a compressor [CompressLog] returns [(true, S)] and
    calls nothing. With one, it returns what the compressor returned together
    with the path the compressor stored, which is not reset; after a success
    the only call that follows is [remove(S)]; after a failure it is [remove]
    of the stored path. So there is exactly one [remove], and the source is
    removed exactly when the compressor succeeded or the path it stored is
    the source; otherwise it is left as it is. A [remove] that fails only
    adds a diagnostic. *)
Theorem CompressLog_contract (env : Env) (app : appender) (S : cstring)
  (st : state) :
  (_compressFunc app = None ->
     CompressLog env app S st = (Ok (true, S), st)) /\
  (forall f, _compressFunc app = Some f ->
     let c := f (st_tick st) S in
     exists st',
       CompressLog env app S st = (Ok (cr_ok c, cr_path c), st') /\
       exists diags,
         st_trace st' =
           st_trace st ++
           (if cr_ok c
            then [ev_compress S; ev_remove S]
            else [ev_compress S;
                  ev_cerr (Could_not_compress S (cr_path c));
                  ev_remove (cr_path c)])
           ++ map ev_cerr diags) /\
  (forall f, _compressFunc app = Some f ->
     let c := f (st_tick st) S in
     forall new,
       st_trace (snd (CompressLog env app S st)) = st_trace st ++ new ->
       (forall p, In (ev_remove p) new <->
                  p = (if cr_ok c then S else cr_path c)) /\
       (In (ev_remove S) new <-> cr_ok c = true \/ cr_path c = S)).
Proof.
  assert (H2 : forall f, _compressFunc app = Some f ->
     let c := f (st_tick st) S in
     exists st',
       CompressLog env app S st = (Ok (cr_ok c, cr_path c), st') /\
       exists diags,
         st_trace st' =
           st_trace st ++
           (if cr_ok c
            then [ev_compress S; ev_remove S]
            else [ev_compress S;
                  ev_cerr (Could_not_compress S (cr_path c));
                  ev_remove (cr_path c)])
           ++ map ev_cerr diags).
  { intros f H c. unfold CompressLog. rewrite H.
    unfold bind at 1. unfold call_compress. fold c.
    destruct (cr_ok c); cbn [negb].
    + unfold cerr, bind, syscall, emit, ret. cbn.
      match goal with |- context [is_failed ?r] => destruct (is_failed r) end.
      * eexists; split; [reflexivity|]. exists [Could_not_remove_log S]. cbn.
        rewrite <- !app_assoc. reflexivity.
      * eexists; split; [reflexivity|]. exists []. cbn.
        rewrite <- !app_assoc. reflexivity.
    + unfold cerr, bind, syscall, emit, ret. cbn.
      match goal with |- context [is_failed ?r] => destruct (is_failed r) end.
      * eexists; split; [reflexivity|].
        exists [Could_not_remove_compressed (cr_path c)]. cbn.
        rewrite <- !app_assoc. reflexivity.
      * eexists; split; [reflexivity|]. exists []. cbn.
        rewrite <- !app_assoc. reflexivity. }
  split; [|split; [exact H2|]].
  - intros H. unfold CompressLog. rewrite H. reflexivity.
  - intros f H c new Hnew.
    destruct (H2 f H) as (st' & E & diags & Ht). fold c in E, Ht.
    rewrite E in Hnew. cbn [snd] in Hnew. rewrite Ht in Hnew.
    apply app_inv_head in Hnew. subst new.
    assert (Hd : forall p, ~ In (ev_remove p) (map ev_cerr diags)).
    { intros p Hin. apply in_map_iff in Hin. destruct Hin as (d & Hd & _).
      discriminate. }
    assert (Hall : forall p,
              In (ev_remove p)
                 ((if cr_ok c
                   then [ev_compress S; ev_remove S]
                   else [ev_compress S;
                         ev_cerr (Could_not_compress S (cr_path c));
                         ev_remove (cr_path c)]) ++ map ev_cerr diags)
              <-> p = (if cr_ok c then S else cr_path c)).
    { intros p. rewrite in_app_iff. split.
      - intros [Hin|Hin]; [|exact (False_ind _ (Hd p Hin))].
        destruct (cr_ok c); cbn [In] in Hin;
          repeat (destruct Hin as [Hin|Hin]; try discriminate);
          try contradiction; congruence.
      - intros ->. left. destruct (cr_ok c); cbn [In]; auto. }
    split; [exact Hall|]. rewrite Hall.
    destruct (cr_ok c); split; auto.
    + intros [Hf|Hp]; [discriminate|auto].
Qed.

Lemma CompressLog_contract_witness :
  exists st',
    CompressLog (Scenario.env (Some 0%Z) false None) (Scenario.app (Some Scenario.gz))
                (str "foo.log.1") Scenario.st0
    = (Ok (true, str "foo.log.1.gz"), st').
Proof.
  destruct (proj1 (proj2 (CompressLog_contract
                     (Scenario.env (Some 0%Z) false None) (Scenario.app (Some Scenario.gz))
                     (str "foo.log.1") Scenario.st0))
                  Scenario.gz eq_refl) as (st' & H & _).
  exists st'. exact H.
Defined.

(** C9. Scanner atomicity on enumeration failure. When the directory of
    a non-empty base name opens and [readdir] ends the enumeration with an
    error: once the loop gets to that error, whatever it has gathered is
    dropped and the empty vector is returned after the [readdir] diagnostic;
    no non-empty vector is ever returned; where [stat] does not fail and
    [strftime] has room the scan does return; and on the empty vector
    [rollOver] unlinks nothing. *)
Theorem scan_discards_on_readdir_error (env : Env) (app : appender)
  (base : cstring) (st : state) (entries : list dirent) (e : positive) :
  is_empty (snd (SplitPathIntoDirAndFile base)) = false ->
  os_opendir env (st_tick st) (fst (SplitPathIntoDirAndFile base))
  = done (entries, Some e) ->
  let d := fst (SplitPathIntoDirAndFile base) in
  let b := snd (SplitPathIntoDirAndFile base) in
  let st1 :=
    mk_state (st_fd st) 0 (S (st_tick st)) (st_trace st ++ [ev_opendir d]) in
  (forall gathered st2,
     readdir_loop env app d b entries [] st1 = (Ok gathered, st2) ->
     FilterTimeBasedFilePaths env app base st =
     (Ok [],
      mk_state (st_fd st2) (Z.pos e) (st_tick st2)
               (st_trace st2 ++ [ev_readdir; ev_cerr (Could_not_readdir d);
                                 ev_closedir])))
  /\
  (forall found st', FilterTimeBasedFilePaths env app base st = (Ok found, st')
                     -> found = [])
  /\
  ((forall n p, is_failed (os_stat env n p) = false) ->
   (forall t, ConvertTimeToIso8601 (os_localtime env) t
              <> Throw runtime_error) ->
   exists st', FilterTimeBasedFilePaths env app base st = (Ok [], st'))
  /\
  (forall now,
     paths_to_unlink
       (retention_lower_bound (_maxBackupCount app) (_maxBackupDays app) now
                              (sort_by fst []))
       (sort_by fst []) = []).
Proof.
  intros Hname Hdir d b st1.
  rewrite (scan_after_readdir_error env app base st entries e Hname Hdir).
  cbv zeta. fold d b st1. split; [|split; [|split]].
  - intros gathered st2 ->. reflexivity.
  - intros found st'.
    destruct (readdir_loop env app d b entries [] st1) as [[res|x] st2];
      congruence.
  - intros Hstat Hfmt.
    destruct (returns_readdir_loop env app Hstat Hfmt d b entries [] st1)
      as (res & st2 & ->).
    eauto.
  - intros now. unfold paths_to_unlink. cbn [sort_by].
    rewrite firstn_nil. reflexivity.
Qed.

Lemma scan_discards_on_readdir_error_witness :
  exists st',
    FilterTimeBasedFilePaths (Scenario.env None false (Some 5%positive))
                             (Scenario.app None) (str "foo.log") Scenario.st0
    = (Ok [], st').
Proof.
  refine (proj1 (proj2 (proj2 (scan_discards_on_readdir_error
                     (Scenario.env None false (Some 5%positive))
                     (Scenario.app None)
                     (str "foo.log") Scenario.st0 Scenario.listing 5%positive
                     eq_refl eq_refl))) _ _).
  - intros n p. reflexivity.
  - intros t. cbn. discriminate.
Defined.

(** C10. [ConvertStrToInt64] tests the sign after each step; a step that
    overflows past the sign bit goes unseen. The 20 digits of 2^64 + 1 come
    back as 1, the suffix made of them is accepted with timestamp 1, and the
    scan keeps the file under that timestamp. *)
Theorem ConvertStrToInt64_wraps_past_overflow :
  all_of isdigit (str "18446744073709551617") = true /\
  decimal (str "18446744073709551617") = 18446744073709551617%Z /\
  (INT64_MAX < decimal (str "18446744073709551617"))%Z /\
  ConvertStrToInt64 (str "18446744073709551617") = Ok 1%Z /\
  ExtractTimestamp (str ".18446744073709551617") = Some 1%Z /\
  fst (HandleBackupLogFile (Scenario.env (Some 0%Z) false None)
                           (Scenario.app None)
                           (str "foo.log.18446744073709551617")
                           (str ".") (str "foo.log") Scenario.st0)
  = Ok (true, 1%Z, str "./foo.log.18446744073709551617").
Proof. repeat split; vm_compute; reflexivity. Qed.

(** * Further properties *)

(** ** Decimal printing *)

Lemma decimal_from_app acc (a b : cstring) :
  decimal_from acc (a ++ b) = decimal_from (decimal_from acc a) b.
Proof. unfold decimal_from. apply fold_left_app. Qed.

Lemma dchr_mod10 n : (0 <= n)%Z ->
  isdigit (dchr (n mod 10)) = true /\ digit_val (dchr (n mod 10)) = (n mod 10)%Z.
Proof. intros H. apply dchr_digit. Z.div_mod_to_equations. lia. Qed.

Lemma pow10_pos k : (0 < 10 ^ Z.of_nat k)%Z.
Proof. apply Z.pow_pos_nonneg; lia. Qed.

Lemma pow10_S k : (10 ^ Z.of_nat (S k) = 10 * 10 ^ Z.of_nat k)%Z.
Proof. rewrite Nat2Z.inj_succ, Z.pow_succ_r by lia. reflexivity. Qed.

(** With fuel for every digit, [digits_fuel] puts the decimal digits of [n]
    before [acc]: as many as [n] has. *)
Lemma digits_fuel_spec fuel : forall n acc,
  (0 <= n < 2 ^ Z.of_nat fuel)%Z -> (1 <= fuel)%nat ->
  exists ds,
    digits_fuel fuel n acc = ds ++ acc /\ all_of isdigit ds = true /\
    decimal ds = n /\ (1 <= length ds)%nat /\
    (forall k, (n < 10 ^ Z.of_nat k)%Z -> (1 <= k)%nat -> (length ds <= k)%nat) /\
    (forall k, (10 ^ Z.of_nat k <= n)%Z -> (k < length ds)%nat).
Proof.
  induction fuel as [|fuel IH]; intros n acc Hn Hf; [lia|].
  cbn [digits_fuel].
  change (ascii_of_N (Z.to_N (48 + n mod 10))) with (dchr (n mod 10)).
  destruct (dchr_mod10 n ltac:(lia)) as [Hd Hv].
  destruct (n <? 10)%Z eqn:E.
  - apply Z.ltb_lt in E. exists [dchr (n mod 10)]. cbn [app length all_of forallb].
    rewrite Hd. repeat split; auto.
    + unfold decimal, decimal_from. cbn [fold_left]. rewrite Hv.
      Z.div_mod_to_equations. lia.
    + intros k Hk. destruct k as [|k]; [cbn in Hk; lia|].
      rewrite pow10_S in Hk. pose proof (pow10_pos k). lia.
  - apply Z.ltb_ge in E.
    assert (Hfuel : (1 <= fuel)%nat).
    { destruct fuel; [|lia]. cbn in Hn. lia. }
    assert (Hn' : (0 <= n / 10 < 2 ^ Z.of_nat fuel)%Z).
    { rewrite Nat2Z.inj_succ, Z.pow_succ_r in Hn by lia.
      Z.div_mod_to_equations. lia. }
    destruct (IH (n / 10)%Z (dchr (n mod 10) :: acc) Hn' Hfuel)
      as (ds & Eq & Hds & Hval & Hlen & Hup & Hlo).
    exists (ds ++ [dchr (n mod 10)]). rewrite Eq, <- app_assoc. cbn [app].
    rewrite length_app. cbn [length].
    repeat split.
    + unfold all_of in *. rewrite forallb_app, Hds. cbn. now rewrite Hd.
    + unfold decimal in *. rewrite decimal_from_app, Hval.
      unfold decimal_from. cbn [fold_left]. rewrite Hv.
      Z.div_mod_to_equations. lia.
    + lia.
    + intros k Hk Hk1. destruct k as [|k]; [lia|].
      destruct k as [|k]; [cbn in Hk; lia|].
      rewrite pow10_S in Hk.
      assert (length ds <= S k)%nat; [|lia].
      apply Hup; [|lia]. Z.div_mod_to_equations. lia.
    + intros k Hk. destruct k as [|k]; [lia|].
      rewrite pow10_S in Hk.
      assert (k < length ds)%nat; [|lia].
      apply Hlo. Z.div_mod_to_equations. lia.
Qed.

Lemma to_digits_spec n :
  (0 <= n)%Z ->
  all_of isdigit (to_digits n) = true /\ decimal (to_digits n) = n /\
  (1 <= length (to_digits n))%nat /\
  (forall k, (n < 10 ^ Z.of_nat k)%Z -> (1 <= k)%nat ->
             (length (to_digits n) <= k)%nat) /\
  (forall k, (10 ^ Z.of_nat k <= n)%Z -> (k < length (to_digits n))%nat).
Proof.
  intros Hn. unfold to_digits.
  destruct (digits_fuel_spec (S (Z.to_nat (Z.log2 n))) n []) as (ds & Eq & H);
    [|lia|].
  - split; [lia|]. rewrite Nat2Z.inj_succ, Z2Nat.id by apply Z.log2_nonneg.
    destruct (Z.eq_dec n 0) as [->|Hz]; [cbn; lia|].
    apply Z.log2_spec. lia.
  - rewrite Eq, app_nil_r. exact H.
Qed.

(** ** [ConvertStrToInt64], in full *)

Lemma decimal_from_linear ds : forall acc,
  decimal_from acc ds = (acc * 10 ^ Z.of_nat (length ds) + decimal ds)%Z.
Proof.
  unfold decimal.
  induction ds as [|c ds IH]; intros acc; cbn [length].
  - cbn. lia.
  - unfold decimal_from in *. cbn [fold_left].
    rewrite (IH (acc * 10 + digit_val c)%Z), (IH (0 * 10 + digit_val c)%Z).
    rewrite pow10_S. lia.
Qed.

Lemma decimal_lt_pow10 ds :
  all_of isdigit ds = true -> (0 <= decimal ds < 10 ^ Z.of_nat (length ds))%Z.
Proof.
  unfold decimal, all_of.
  induction ds as [|c ds IH]; intros Hd; cbn [length].
  - cbn. lia.
  - cbn [forallb] in Hd. apply andb_prop in Hd. destruct Hd as [Hc Hds].
    pose proof (digit_val_range c Hc). specialize (IH Hds).
    unfold decimal_from in *. cbn [fold_left].
    change (fold_left (fun acc c => (acc * 10 + digit_val c)%Z) ds
                      (0 * 10 + digit_val c)%Z)
      with (decimal_from (0 * 10 + digit_val c) ds).
    rewrite decimal_from_linear, pow10_S. unfold decimal, decimal_from.
    pose proof (pow10_pos (length ds)). nia.
Qed.

Lemma wrap64_range x : (INT64_MIN <= wrap64 x <= INT64_MAX)%Z.
Proof.
  unfold wrap64, wrap, INT64_MIN, INT64_MAX.
  change (2 ^ (64 - 1))%Z with 9223372036854775808%Z.
  change (2 ^ 64)%Z with 18446744073709551616%Z.
  pose proof (Z.mod_pos_bound (x + 9223372036854775808) 18446744073709551616).
  lia.
Qed.

Lemma wrap64_multiple x :
  (0 <= x)%Z -> exists k, (0 <= k)%Z /\ (x = wrap64 x + k * 2 ^ 64)%Z.
Proof.
  intros Hx. unfold wrap64, wrap.
  change (2 ^ (64 - 1))%Z with 9223372036854775808%Z.
  change (2 ^ 64)%Z with 18446744073709551616%Z.
  exists ((x + 9223372036854775808) / 18446744073709551616)%Z.
  Z.div_mod_to_equations. lia.
Qed.

Lemma wrap64_high x :
  (INT64_MAX < x < 2 ^ 64)%Z -> (wrap64 x < 0)%Z.
Proof.
  unfold INT64_MAX. change (2 ^ 64)%Z with 18446744073709551616%Z. intros Hx.
  unfold wrap64, wrap.
  change (2 ^ (64 - 1))%Z with 9223372036854775808%Z.
  change (2 ^ 64)%Z with 18446744073709551616%Z.
  Z.div_mod_to_equations. lia.
Qed.

Lemma ConvertStrToInt64_loop_exact ds : forall acc,
  all_of isdigit ds = true -> (0 <= acc <= INT64_MAX)%Z ->
  (decimal_from acc ds < 2 ^ 64)%Z ->
  ConvertStrToInt64_loop acc ds =
  if (decimal_from acc ds <=? INT64_MAX)%Z then Ok (decimal_from acc ds)
  else Throw overflow_error.
Proof.
  unfold all_of.
  induction ds as [|c ds IH]; intros acc Hd Hacc Hlt.
  - cbn. rewrite (proj2 (Z.leb_le _ _)) by lia. reflexivity.
  - cbn [forallb] in Hd. apply andb_prop in Hd. destruct Hd as [Hc Hds].
    pose proof (digit_val_range c Hc) as Hr.
    cbn [ConvertStrToInt64_loop]. unfold decimal_from in *. cbn [fold_left] in *.
    pose proof (decimal_from_ge ds (acc * 10 + digit_val c)%Z Hds ltac:(lia))
      as Hge. unfold decimal_from in Hge.
    destruct (Z_le_gt_dec (acc * 10 + digit_val c) INT64_MAX) as [Hfit|Hover].
    + rewrite wrap64_small by (unfold INT64_MIN, INT64_MAX in *; lia).
      rewrite (proj2 (Z.ltb_ge _ _)) by lia.
      apply IH; auto. lia.
    + rewrite (proj2 (Z.ltb_lt _ _)) by (apply wrap64_high; lia).
      rewrite (proj2 (Z.leb_gt _ _)) by lia. reflexivity.
Qed.

Lemma ConvertStrToInt64_loop_result ds : forall acc v,
  all_of isdigit ds = true -> (0 <= acc <= INT64_MAX)%Z ->
  ConvertStrToInt64_loop acc ds = Ok v ->
  (0 <= v <= INT64_MAX)%Z /\
  exists k, (0 <= k)%Z /\ (decimal_from acc ds = v + k * 2 ^ 64)%Z.
Proof.
  unfold all_of.
  induction ds as [|c ds IH]; intros acc v Hd Hacc Hv.
  - cbn in Hv. injection Hv as <-. split; [assumption|]. exists 0%Z. cbn. lia.
  - cbn [forallb] in Hd. apply andb_prop in Hd. destruct Hd as [Hc Hds].
    pose proof (digit_val_range c Hc) as Hr.
    cbn [ConvertStrToInt64_loop] in Hv.
    destruct (wrap64 (acc * 10 + digit_val c) <? 0)%Z eqn:E; [discriminate|].
    apply Z.ltb_ge in E.
    pose proof (wrap64_range (acc * 10 + digit_val c)) as Hw.
    destruct (IH (wrap64 (acc * 10 + digit_val c)) v Hds (conj E (proj2 Hw)) Hv)
      as (Hrange & k & Hk & Heq).
    split; [assumption|].
    destruct (wrap64_multiple (acc * 10 + digit_val c) ltac:(lia))
      as (j & Hj & Hx).
    exists (k + j * 10 ^ Z.of_nat (length ds))%Z.
    pose proof (pow10_pos (length ds)).
    split; [nia|].
    unfold decimal_from at 1. cbn [fold_left].
    change (fold_left (fun acc c => (acc * 10 + digit_val c)%Z) ds
                      (acc * 10 + digit_val c)%Z)
      with (decimal_from (acc * 10 + digit_val c) ds).
    rewrite decimal_from_linear in Heq |- *.
    rewrite Hx at 1. lia.
Qed.

(** X1. On a non-empty string of at most 19 digits [ConvertStrToInt64] is
    exact: it returns the decimal value when that fits in [int64_t] and
    throws [std::overflow_error] when it does not. (The values that wrap
    unseen need 20 digits or more.) *)
Theorem ConvertStrToInt64_exact_up_to_19_digits (s : cstring) :
  s <> [] -> all_of isdigit s = true -> (length s <= 19)%nat ->
  ConvertStrToInt64 s =
  if (decimal s <=? INT64_MAX)%Z then Ok (decimal s)
  else Throw overflow_error.
Proof.
  intros Hne Hd Hlen. unfold ConvertStrToInt64.
  destruct s as [|c s']; [congruence|]. rewrite Hd. cbn [negb].
  unfold decimal. apply ConvertStrToInt64_loop_exact; auto.
  - unfold INT64_MAX. lia.
  - pose proof (decimal_lt_pow10 _ Hd) as Hlt. unfold decimal in Hlt.
    assert (10 ^ Z.of_nat (length (c :: s')) <= 10 ^ 19)%Z
      by (apply Z.pow_le_mono_r; lia).
    assert (10 ^ 19 < 2 ^ 64)%Z by reflexivity. lia.
Qed.

Lemma ConvertStrToInt64_exact_up_to_19_digits_witness :
  ConvertStrToInt64 (str "9223372036854775808") = Throw overflow_error.
Proof.
  exact (ConvertStrToInt64_exact_up_to_19_digits (str "9223372036854775808")
           ltac:(discriminate) eq_refl ltac:(cbn; lia)).
Defined.

(** X2. Whatever [ConvertStrToInt64] returns, the input was a non-empty
    string of digits, the result lies in [[0, INT64_MAX]], and it is the
    decimal value of the input less a non-negative multiple of 2^64. *)
Theorem ConvertStrToInt64_result (s : cstring) (v : Z) :
  ConvertStrToInt64 s = Ok v ->
  s <> [] /\ all_of isdigit s = true /\ (0 <= v <= INT64_MAX)%Z /\
  exists k, (0 <= k)%Z /\ (decimal s = v + k * 2 ^ 64)%Z.
Proof.
  unfold ConvertStrToInt64. destruct s as [|c s']; [discriminate|].
  destruct (all_of isdigit (c :: s')) eqn:Hd; [|discriminate]. cbn [negb].
  intros Hv. split; [discriminate|]. split; [reflexivity|].
  apply (ConvertStrToInt64_loop_result (c :: s') 0%Z v Hd); [|assumption].
  unfold INT64_MAX. lia.
Qed.

Lemma ConvertStrToInt64_result_witness :
  (0 <= 1 <= INT64_MAX)%Z /\
  exists k, (0 <= k)%Z /\ (decimal (str "18446744073709551617") = 1 + k * 2 ^ 64)%Z.
Proof.
  exact (proj2 (proj2 (ConvertStrToInt64_result (str "18446744073709551617") 1
                         eq_refl))).
Defined.

(** ** Paths *)

Lemma in_slash c : contains c (str "/") = chr_eqb "/" c.
Proof. cbn. rewrite orb_false_r. apply chr_eqb_sym. Qed.

Lemma find_last_of_slash_none s :
  find_last_of (str "/") s = None <-> contains "/" s = false.
Proof.
  induction s as [|c s IH]; cbn [find_last_of contains existsb].
  - split; reflexivity.
  - fold (contains "/" s). rewrite <- in_slash.
    destruct (find_last_of (str "/") s) as [p|].
    + split; [discriminate|]. intros H. apply orb_false_elim in H.
      destruct H as [_ H]. apply IH in H. discriminate.
    + destruct (contains c (str "/")); cbn; [split; discriminate|].
      split; [intros _; now apply IH|reflexivity].
Qed.

Lemma find_last_of_slash_some d r :
  contains "/" r = false ->
  find_last_of (str "/") (d ++ "/"%char :: r) = Some (length d).
Proof.
  intros Hr. rewrite (find_last_of_app_some _ d _ 0); [f_equal; lia|].
  cbn [find_last_of]. rewrite (proj2 (find_last_of_slash_none r) Hr).
  reflexivity.
Qed.

Lemma find_last_of_slash_split s p :
  find_last_of (str "/") s = Some p ->
  s = firstn p s ++ "/"%char :: skipn (S p) s /\
  contains "/" (skipn (S p) s) = false.
Proof.
  revert p; induction s as [|c s IH]; intros p; cbn [find_last_of];
    [discriminate|].
  destruct (find_last_of (str "/") s) as [q|] eqn:E.
  - intros [= <-]. destruct (IH q eq_refl) as [Hs Hr].
    cbn [firstn skipn app]. split; [f_equal; exact Hs|exact Hr].
  - rewrite in_slash. destruct (chr_eqb "/" c) eqn:Ec; [|discriminate].
    intros [= <-]. apply chr_eqb_eq in Ec. subst c. cbn [firstn skipn app].
    split; [reflexivity|]. now apply find_last_of_slash_none.
Qed.

Lemma split_file_no_slash (file_path : cstring) :
  contains "/" (snd (SplitPathIntoDirAndFile file_path)) = false.
Proof.
  unfold SplitPathIntoDirAndFile.
  destruct (find_last_of (str "/") file_path) as [pos|] eqn:E; cbn [snd].
  - apply (find_last_of_slash_split _ _ E).
  - now apply find_last_of_slash_none.
Qed.

(** X3. [SplitPathIntoDirAndFile] cuts at the last [/]: the file part
    holds no [/] and is what [ExtractFileName] returns; with a [/] in the
    path, directory, [/] and file give the path back; without one the
    directory is [.] and the file is the whole path. *)
Theorem SplitPathIntoDirAndFile_recomposes (file_path : cstring) :
  let '(dir, file) := SplitPathIntoDirAndFile file_path in
  contains "/" file = false /\
  ExtractFileName file_path = file /\
  (contains "/" file_path = true -> dir ++ "/"%char :: file = file_path) /\
  (contains "/" file_path = false -> dir = str "." /\ file = file_path).
Proof.
  pose proof (split_file_no_slash file_path) as Hf. revert Hf.
  unfold SplitPathIntoDirAndFile, ExtractFileName.
  destruct (find_last_of (str "/") file_path) as [pos|] eqn:E; cbn [snd];
    intros Hf.
  - destruct (find_last_of_slash_split _ _ E) as [Hs Hr].
    split; [exact Hf|]. split; [reflexivity|]. split.
    + intros _. symmetry. exact Hs.
    + intros Hn. apply find_last_of_slash_none in Hn. congruence.
  - pose proof (proj1 (find_last_of_slash_none _) E) as Hn.
    split; [exact Hf|]. split; [reflexivity|]. split.
    + intros Hc. congruence.
    + intros _. split; reflexivity.
Qed.

(** [ExtractFileName] is empty exactly for the empty path and for a path
    that ends in [/]. *)
Lemma ExtractFileName_empty_iff (path : cstring) :
  ExtractFileName path = [] <-> path = [] \/ exists dir, path = dir ++ [ "/"%char ].
Proof.
  unfold ExtractFileName.
  destruct (find_last_of (str "/") path) as [pos|] eqn:E.
  - destruct (find_last_of_slash_split _ _ E) as [Hs Hr]. split.
    + intros H. right. exists (firstn pos path). rewrite H in Hs. exact Hs.
    + intros [->|(dir & ->)]; [discriminate|].
      rewrite (find_last_of_slash_some dir []) in E by reflexivity.
      injection E as <-. rewrite skipn_app, skipn_all2 by lia.
      replace (S (length dir) - length dir)%nat with 1%nat by lia. reflexivity.
  - split; [auto|]. intros [->|(dir & ->)]; [reflexivity|].
    rewrite (find_last_of_slash_some dir []) in E by reflexivity. discriminate.
Qed.

Lemma split_file_is_ExtractFileName (p : cstring) :
  snd (SplitPathIntoDirAndFile p) = ExtractFileName p.
Proof.
  unfold SplitPathIntoDirAndFile, ExtractFileName.
  destruct (find_last_of (str "/") p); reflexivity.
Qed.

(** X4. The constructor's checks accept a file name exactly when it is
    not empty and does not end in [/]; what they refuse, they refuse with
    [std::invalid_argument]; and a file name they accept has a non-empty
    file part, which is what [FilterTimeBasedFilePaths] asserts of
    [_fileName] before it scans. *)
Theorem constructor_accepts_iff (fileName : cstring) :
  (constructor_checks fileName = Ok tt <->
   fileName <> [] /\ ~ (exists dir, fileName = dir ++ [ "/"%char ])) /\
  (constructor_checks fileName <> Ok tt ->
   constructor_checks fileName = Throw invalid_argument) /\
  (constructor_checks fileName = Ok tt ->
   is_empty (snd (SplitPathIntoDirAndFile fileName)) = false).
Proof.
  pose proof (ExtractFileName_empty_iff fileName) as He.
  rewrite split_file_is_ExtractFileName. unfold constructor_checks.
  destruct fileName as [|c r]; cbn [is_empty].
  { split; [|split]; try discriminate; auto.
    split; [discriminate|]. intros [H _]. now contradiction H. }
  destruct (ExtractFileName (c :: r)) as [|x f]; cbn [is_empty].
  - split; [|split]; try discriminate; auto.
    split; [discriminate|]. intros [_ H]. exfalso. apply H.
    destruct (proj1 He eq_refl) as [E|E]; [discriminate|exact E].
  - split; [|split]; auto; [|intros H; now contradiction H].
    split; [|reflexivity]. intros _. split; [discriminate|].
    intros E. assert (H : x :: f = []) by (apply He; now right).
    discriminate.
Qed.

(** The lock file sits in the directory of the log, named [.], the name of
    the log, [.lock]. *)
Lemma GenerateLockFilePath_split (file_path : cstring) :
  SplitPathIntoDirAndFile (GenerateLockFilePath file_path) =
  (fst (SplitPathIntoDirAndFile file_path),
   "."%char :: snd (SplitPathIntoDirAndFile file_path) ++ str ".lock").
Proof.
  pose proof (split_file_no_slash file_path) as Hf.
  unfold GenerateLockFilePath.
  destruct (SplitPathIntoDirAndFile file_path) as [dir file]. cbn [fst snd] in *.
  change (dir ++ str "/." ++ file ++ str ".lock")
    with (dir ++ "/"%char :: ("."%char :: file ++ str ".lock")).
  unfold SplitPathIntoDirAndFile at 1.
  rewrite find_last_of_slash_some.
  - rewrite firstn_app, firstn_all, Nat.sub_diag. cbn [firstn].
    rewrite app_nil_r. f_equal.
    rewrite skipn_app, skipn_all2 by lia.
    replace (S (length dir) - length dir)%nat with 1%nat by lia. reflexivity.
  - change ("."%char :: file ++ str ".lock") with (["."%char] ++ file ++ str ".lock").
    rewrite !contains_app, Hf. reflexivity.
Qed.

Lemma skipn_length_cons {A} (b t : list A) : forall c,
  exists x, skipn (length b) (c :: b ++ t) = x :: t.
Proof.
  induction b as [|y b IH]; intros c; [exists c; reflexivity|].
  cbn [length skipn app]. apply IH.
Qed.

(** No character before [.lock] makes a suffix that carries a timestamp
    or an index. *)
Lemma lock_suffix_unclassified (x : ascii) :
  ExtractTimestamp (x :: str ".lock") = None /\
  ExtractIndex (x :: str ".lock") = None.
Proof.
  destruct x as [[] [] [] [] [] [] [] []]; vm_compute; split; reflexivity.
Qed.

(** X5. The lock file is never taken for a backup. [GenerateLockFilePath]
    puts it in the directory of the log under the name [.<log>.lock], and on
    that name [HandleBackupLogFile] answers false (or is left by the
    exception of a failed [stat]), having called nothing but, at most, that
    [stat]: the file is not renamed, compressed or listed for deletion. *)
Theorem lock_file_is_never_a_backup (file_path : cstring) :
  let d := fst (SplitPathIntoDirAndFile file_path) in
  let b := snd (SplitPathIntoDirAndFile file_path) in
  let name := "."%char :: b ++ str ".lock" in
  SplitPathIntoDirAndFile (GenerateLockFilePath file_path) = (d, name) /\
  forall (env : Env) (app : appender) (st : state),
  exists res st' new,
    HandleBackupLogFile env app name d b st = (res, st') /\
    (res = Ok (false, 0%Z, []) \/ res = Throw runtime_error) /\
    st_trace st' = st_trace st ++ new /\
    (filter is_call new = [] \/
     filter is_call new = [ev_stat (d ++ str "/" ++ name)]).
Proof.
  intros d b name. split; [apply GenerateLockFilePath_split|].
  intros env app st. unfold HandleBackupLogFile.
  destruct (_ || _).
  { exists (Ok (false, 0%Z, [])), st, []. rewrite app_nil_r. auto. }
  fold name.
  assert (Hp : is_empty (d ++ str "/" ++ name) = false)
    by (destruct d; reflexivity).
  set (path := d ++ str "/" ++ name) in *.
  unfold ExistRegularFile. rewrite Hp.
  unfold bind at 1. unfold bind at 1. unfold syscall at 1.
  destruct (os_stat env (st_tick st) path) as [e|[reg mtime]].
  { cbv beta iota zeta delta [throw].
    do 2 eexists. exists [ev_stat path]. cbn [st_trace]. auto. }
  destruct reg; cbv beta iota zeta delta [ret negb].
  2:{ do 2 eexists. exists [ev_stat path]. cbn [st_trace]. auto. }
  unfold name at 1 2.
  destruct (skipn_length_cons b (str ".lock") "."%char) as (x & ->).
  destruct (lock_suffix_unclassified x) as [-> ->].
  unfold bind, cerr, emit. cbv beta iota zeta.
  do 3 eexists. split; [reflexivity|]. split; [now left|].
  cbn [st_trace]. rewrite <- !app_assoc.
  split; [reflexivity|]. right. reflexivity.
Qed.

(** ** Names of backups, out and back *)

Lemma to_string_nonempty n : to_string n <> [].
Proof.
  unfold to_string. destruct (n <? 0)%Z eqn:E; [discriminate|].
  apply Z.ltb_ge in E. destruct (to_digits_spec n E) as (_ & _ & Hl & _).
  destruct (to_digits n); [cbn in Hl; lia|discriminate].
Qed.

(** X6. [GetDatetimeStr] never returns an empty name: when
    [ConvertTimeToIso8601] gives nothing it falls back on the decimal
    timestamp, which is what it returns whenever [localtime] fails. *)
Theorem GetDatetimeStr_never_empty (localtime : Z -> option tm) (timer : Z)
  (s : cstring) :
  GetDatetimeStr localtime timer = Ok s ->
  s <> [] /\ (localtime timer = None -> s = to_string timer).
Proof.
  unfold GetDatetimeStr, ConvertTimeToIso8601.
  destruct (localtime timer) as [buf|].
  - destruct (strftime_iso 40 buf) as [|c r] eqn:E; cbn [rbind]; [discriminate|].
    destruct (RemoveChar (c :: r) ":") eqn:Er; intros [= <-].
    + split; [apply to_string_nonempty|discriminate].
    + split; [discriminate|discriminate].
  - cbn [rbind]. intros [= <-]. split; [apply to_string_nonempty|reflexivity].
Qed.

Lemma GetDatetimeStr_never_empty_witness :
  str "1700000000" <> [] /\
  ((fun _ : Z => @None tm) 1700000000%Z = None ->
   str "1700000000" = to_string 1700000000).
Proof.
  exact (GetDatetimeStr_never_empty (fun _ => None) 1700000000
           (str "1700000000") eq_refl).
Defined.

(** A suffix of the epoch form whose value fits is classified epoch. *)
Lemma classify_epoch_of (s m : cstring) :
  (Z.of_nat (length s) <= INT32_MAX)%Z ->
  epoch_suffix s m -> (decimal m <= INT64_MAX)%Z ->
  classify s = cls_epoch (decimal m).
Proof.
  intros Hlen He Hfit.
  pose proof (epoch_not_iso s m Hlen He) as Hiso.
  destruct (epoch_complete s m Hlen He) as [Hd Hne].
  assert (Hs : is_empty s = false).
  { destruct He as (rest & -> & _). reflexivity. }
  unfold classify, ExtractTimestamp. cbn [rule_matches].
  rewrite Hs, Hiso, Hd. cbn [is_empty negb].
  rewrite (proj2 (is_empty_false m) Hne).
  destruct He as (rest & _ & Hm & _).
  rewrite ConvertStrToInt64_fits by assumption. reflexivity.
Qed.

(** X7. The fallback name is found again. When [localtime] fails, the name
    that [GetDatetimeStr] gives for a time of at least 8 digits is that
    time in decimal, and the suffix made of it, with or without an
    extension, is classified as an epoch timestamp of that very time. *)
Theorem epoch_fallback_name_is_found_again (localtime : Z -> option tm)
  (timer : Z) (ext : cstring) :
  localtime timer = None ->
  (10000000 <= timer <= INT64_MAX)%Z ->
  ext = [] \/ (exists r, ext = "."%char :: r) ->
  (Z.of_nat (length ext) <= 1000000)%Z ->
  exists name,
    GetDatetimeStr localtime timer = Ok name /\
    classify ("."%char :: name ++ ext) = cls_epoch timer.
Proof.
  intros Hl Ht Hext Hlen. exists (to_string timer). split.
  - unfold GetDatetimeStr, ConvertTimeToIso8601. rewrite Hl. cbn [rbind].
    reflexivity.
  - unfold to_string. rewrite (proj2 (Z.ltb_ge _ _)) by lia.
    destruct (to_digits_spec timer ltac:(lia)) as (Hd & Hv & _ & Hup & Hlo).
    assert (H8 : (7 < length (to_digits timer))%nat)
      by (apply Hlo; change (10 ^ Z.of_nat 7)%Z with 10000000%Z; lia).
    assert (H19 : (length (to_digits timer) <= 19)%nat).
    { apply Hup; [|lia]. unfold INT64_MAX in Ht.
      change (10 ^ Z.of_nat 19)%Z with 10000000000000000000%Z. lia. }
    rewrite <- Hv at 2.
    apply classify_epoch_of.
    + cbn [length]. rewrite length_app. unfold INT32_MAX. lia.
    + exists ext. repeat split; auto; lia.
    + rewrite Hv. lia.
Qed.

Lemma epoch_fallback_name_is_found_again_witness :
  exists name,
    GetDatetimeStr (fun _ => None) 1700000000 = Ok name /\
    classify ("."%char :: name ++ str ".gz") = cls_epoch 1700000000.
Proof.
  refine (epoch_fallback_name_is_found_again (fun _ => None) 1700000000
            (str ".gz") eq_refl _ _ _).
  - unfold INT64_MAX. lia.
  - right. exists (str "gz"). reflexivity.
  - cbn. lia.
Defined.

(** The string [iso8601_of] has the shape of the grammar. *)
Lemma iso8601_of_suffix (b : tm) (off : Z) (ext : cstring) :
  (0 <= tm_year b + 1900 < 10000)%Z -> (0 <= tm_mon b + 1 < 100)%Z ->
  (0 <= tm_mday b < 100)%Z -> (0 <= tm_hour b < 100)%Z ->
  (0 <= tm_min b < 100)%Z -> (0 <= tm_sec b < 100)%Z ->
  (Z.abs off < 360000)%Z ->
  ext = [] \/ (exists r, ext = "."%char :: r) ->
  iso8601_suffix ("."%char :: iso8601_of b off ++ ext) (iso8601_of b off).
Proof.
  intros Hy Hm Hd Hh Hmi Hs Hoff Hext.
  assert (Hhh : (0 <= Z.abs off / 60 / 60 < 100)%Z) by (Z.div_mod_to_equations; lia).
  assert (Hmm : (0 <= Z.abs off / 60 mod 60 < 100)%Z) by (Z.div_mod_to_equations; lia).
  exists (four (tm_year b + 1900) ++ two (tm_mon b + 1) ++ two (tm_mday b)),
         (two (tm_hour b) ++ two (tm_min b) ++ two (tm_sec b)),
         (zone_of off), ext.
  split; [reflexivity|]. split.
  { rewrite !all_of_app, (proj1 (four_digits _ Hy)), (proj1 (two_digits _ Hm)),
      (proj1 (two_digits _ Hd)). reflexivity. }
  split; [reflexivity|]. split.
  { rewrite !all_of_app, (proj1 (two_digits _ Hh)), (proj1 (two_digits _ Hmi)),
      (proj1 (two_digits _ Hs)). reflexivity. }
  split.
  { right. exists (if (off <? 0)%Z then "-"%char else "+"%char),
      (two (Z.abs off / 60 / 60) ++ two (Z.abs off / 60 mod 60)).
    repeat split.
    - destruct (off <? 0)%Z; auto.
    - rewrite all_of_app, (proj1 (two_digits _ Hhh)), (proj1 (two_digits _ Hmm)).
      reflexivity. }
  split; [exact Hext|]. split; [|reflexivity].
  unfold iso8601_of. rewrite <- !app_assoc. cbn [app]. rewrite <- !app_assoc.
  reflexivity.
Qed.

(** The name given to a local time of the years 1970 to 9999 is the ISO
    8601 string of its fields, and [ExtractDatetimeIso8601] cuts it out of
    the suffix made of it. *)
Lemma local_name_in_suffix (off t : Z) (ext : cstring) :
  (0 <= t + off < 253402300800)%Z -> (Z.abs off < 360000)%Z ->
  ext = [] \/ (exists r, ext = "."%char :: r) ->
  let name := iso8601_of (broken_down (t + off) off) off in
  GetDatetimeStr (localtime_in (fun _ => off)) t = Ok name /\
  ExtractDatetimeIso8601 ("."%char :: name ++ ext) = name /\
  is_empty name = false.
Proof.
  intros Ht Hoff Hext name. subst name.
  destruct (broken_down_ranges (t + off) off Ht) as (Hy & Hm & Hd & Hh & Hmi & Hs).
  pose proof (iso8601_of_suffix (broken_down (t + off) off) off ext
                Hy Hm Hd Hh Hmi Hs Hoff Hext) as Hsuf.
  destruct (iso_complete _ _ Hsuf) as [Hx Hne].
  split; [|split; [exact Hx|]].
  - unfold GetDatetimeStr. rewrite encode_shape by assumption.
    cbn [rbind]. destruct (iso8601_of _ off); [congruence|reflexivity].
  - apply negb_true_iff, is_empty_false, Hne.
Qed.

(** A suffix whose ISO 8601 part decodes is classified by it. *)
Lemma classify_iso_suffix (s name : cstring) (t : Z) :
  ExtractDatetimeIso8601 s = name -> is_empty name = false ->
  is_empty s = false ->
  ConvertDatetimeIso8601ToTimestamp name = Ok t ->
  classify s = cls_iso8601 t.
Proof.
  intros Hx Hne Hs Hrt. unfold classify, ExtractTimestamp. cbn [rule_matches].
  rewrite Hs, Hx, Hne, Hrt. reflexivity.
Qed.

(** X8. The name of a rotation is found again. In a zone whose offset is
    a whole number of minutes with the minutes part below ten, and for a
    local time in the years 1970 to 9999, [GetDatetimeStr] gives an ISO 8601
    name that [ConvertDatetimeIso8601ToTimestamp] decodes to the same time,
    that [ExtractDatetimeIso8601] cuts out of the suffix, extension or not,
    and that makes the classifier answer ISO 8601 with that time. *)
Theorem rotated_name_is_found_again (off t : Z) (ext : cstring) :
  (0 <= t + off < 253402300800)%Z ->
  (Z.abs off < 360000)%Z -> (Z.abs off mod 60 = 0)%Z ->
  (Z.abs off / 60 mod 60 < 10)%Z ->
  ext = [] \/ (exists r, ext = "."%char :: r) ->
  exists name,
    GetDatetimeStr (localtime_in (fun _ => off)) t = Ok name /\
    ConvertDatetimeIso8601ToTimestamp name = Ok t /\
    ExtractDatetimeIso8601 ("."%char :: name ++ ext) = name /\
    classify ("."%char :: name ++ ext) = cls_iso8601 t.
Proof.
  intros Ht Hoff Hsec Hmin Hext.
  pose proof (round_trip_minutes_below_ten off t Ht Hoff Hsec Hmin) as Hrt.
  rewrite encode_shape in Hrt by assumption. cbn [rbind] in Hrt.
  destruct (local_name_in_suffix off t ext Ht Hoff Hext) as (Hname & Hx & Hne).
  exists (iso8601_of (broken_down (t + off) off) off).
  split; [exact Hname|]. split; [exact Hrt|]. split; [exact Hx|].
  exact (classify_iso_suffix _ _ t Hx Hne eq_refl Hrt).
Qed.

Lemma rotated_name_is_found_again_witness :
  exists name,
    GetDatetimeStr (localtime_in (fun _ => (-28800)%Z)) 1700000000 = Ok name /\
    ConvertDatetimeIso8601ToTimestamp name = Ok 1700000000%Z /\
    ExtractDatetimeIso8601 ("."%char :: name ++ str ".gz") = name /\
    classify ("."%char :: name ++ str ".gz") = cls_iso8601 1700000000.
Proof.
  refine (rotated_name_is_found_again (-28800) 1700000000 (str ".gz") _ _ _ _ _).
  - lia.
  - cbn. lia.
  - reflexivity.
  - cbn. lia.
  - right. exists (str "gz"). reflexivity.
Defined.

(** X9. [ConvertDatetimeIso8601ToTimestamp] on a string of the grammar, 8
    digits, [T], 6 digits and a zone that is absent, [Z] or a sign and four
    digits with the tens digit of the minutes 0: the result is [timegm] of
    the fields read less the offset of the zone, sign * (hh * 3600 +
    mm * 60). *)
Theorem decode_of_grammar_string (date time zone : cstring) :
  length date = 8%nat -> all_of isdigit date = true ->
  length time = 6%nat -> all_of isdigit time = true ->
  zone = [] \/ iso8601_zone zone ->
  (forall sign h1 h2 m1 m2, zone = [sign; h1; h2; m1; m2] -> m1 = "0"%char) ->
  ConvertDatetimeIso8601ToTimestamp (date ++ "T"%char :: time ++ zone)
  = Ok (timegm (fields_of date time) - zone_offset zone)%Z.
Proof.
  intros Hd Dd Ht Dt Hz Hm1.
  rewrite decode_wellformed by assumption. do 2 f_equal.
  destruct zone as [|sign [|h1 [|h2 [|m1 [|m2 [|x r]]]]]]; try reflexivity.
  rewrite (Hm1 sign h1 h2 m1 m2 eq_refl).
  unfold zone_offset_as_parsed, zone_offset, decimal, decimal_from.
  cbn [fold_left]. change (digit_val "0") with 0%Z.
  destruct (chr_eqb sign "-"); lia.
Qed.

Lemma decode_of_grammar_string_witness :
  ConvertDatetimeIso8601ToTimestamp
    (str "20240115" ++ "T"%char :: str "120000" ++ str "-0800")
  = Ok (timegm (fields_of (str "20240115") (str "120000"))
        - zone_offset (str "-0800"))%Z.
Proof.
  refine (decode_of_grammar_string (str "20240115") (str "120000") (str "-0800")
            eq_refl eq_refl eq_refl eq_refl _ _).
  - right. right. exists "-"%char, (str "0800"). repeat split. now right.
  - intros sign h1 h2 m1 m2 [= _ _ _ <- _]. reflexivity.
Defined.

(** ** The legacy and the epoch classification *)

(** X10. For a suffix whose length fits in [int], the classifier answers
    legacy exactly when the suffix is a dot followed by one to seven digits
    and nothing else. *)
Theorem classify_legacy_iff (s : cstring) :
  (Z.of_nat (length s) <= INT32_MAX)%Z ->
  (classify s = cls_legacy <->
   exists m, s = "."%char :: m /\ all_of isdigit m = true /\
             (1 <= length m <= 7)%nat).
Proof.
  intros Hlen. split.
  - intros Hc. destruct (classify_legacy s Hc) as (Hl & He & _).
    cbn [rule_matches] in Hl, He.
    apply is_empty_false in Hl.
    destruct (proj1 (legacy_iff s (ExtractDigits1 s)) (conj eq_refl Hl))
      as (Hs & Hne & Hd).
    exists (ExtractDigits1 s). split; [exact Hs|]. split; [exact Hd|].
    split; [destruct (ExtractDigits1 s); [congruence|cbn; lia]|].
    destruct (le_lt_dec 8 (length (ExtractDigits1 s))) as [H8|H8]; [|lia].
    exfalso.
    destruct (epoch_complete s (ExtractDigits1 s) Hlen) as [Hx Hy].
    { exists []. rewrite app_nil_r. auto. }
    rewrite Hx in He. destruct (ExtractDigits1 s); [congruence|discriminate].
  - intros (m & -> & Hd & Hl1 & Hl7).
    assert (Hne : m <> []) by (destruct m; [cbn in Hl1; lia|discriminate]).
    assert (Hiso : ExtractDatetimeIso8601 ("."%char :: m) = []).
    { unfold ExtractDatetimeIso8601. cbn [length].
      rewrite (proj2 (Nat.ltb_lt _ _)) by lia. reflexivity. }
    assert (Hep : ExtractDigits ("."%char :: m) = []).
    { rewrite ExtractDigits_dot. cbv zeta.
      rewrite <- (app_nil_r m) at 1.
      rewrite digit_run_digits by auto.
      rewrite wrap32_small by lia.
      rewrite (proj2 (Z.ltb_lt _ _)) by lia. reflexivity. }
    assert (Hleg : ExtractDigits1 ("."%char :: m) = m).
    { apply (proj2 (legacy_iff _ m)). repeat split; auto. }
    assert (Hfit : (decimal m <= INT64_MAX)%Z).
    { pose proof (decimal_lt_pow10 m Hd).
      assert (10 ^ Z.of_nat (length m) <= 10 ^ 7)%Z
        by (apply Z.pow_le_mono_r; lia).
      unfold INT64_MAX. change (10 ^ 7)%Z with 10000000%Z in *. lia. }
    unfold classify, ExtractTimestamp, ExtractIndex. cbn [is_empty].
    rewrite Hiso, Hep, Hleg. cbn [is_empty negb].
    rewrite (proj2 (is_empty_false m) Hne).
    rewrite ConvertStrToInt64_fits by assumption. reflexivity.
Qed.

Lemma classify_legacy_iff_witness :
  classify (str ".7") = cls_legacy.
Proof.
  refine (proj2 (classify_legacy_iff (str ".7") _) _).
  - cbn. unfold INT32_MAX. lia.
  - exists (str "7"). repeat split; cbn; lia.
Defined.

(** X11. A timestamp that the classifier reads from an epoch suffix is
    never negative: it lies in [[0, INT64_MAX]] and is the decimal value of
    the digits less a non-negative multiple of 2^64. *)
Theorem classify_epoch_in_range (s : cstring) (t : Z) :
  classify s = cls_epoch t ->
  (0 <= t <= INT64_MAX)%Z /\
  exists k, (0 <= k)%Z /\ (decimal (ExtractDigits s) = t + k * 2 ^ 64)%Z.
Proof.
  unfold classify. destruct (ExtractTimestamp s) as [t0|] eqn:Et.
  2:{ destruct (ExtractIndex s); discriminate. }
  cbn [rule_matches].
  destruct (negb (is_empty (ExtractDatetimeIso8601 s))) eqn:Ei; [discriminate|].
  intros [= <-]. unfold ExtractTimestamp in Et.
  destruct (is_empty s); [discriminate|]. rewrite Ei in Et.
  destruct (negb (is_empty (ExtractDigits s))); [|discriminate].
  destruct (ConvertStrToInt64 (ExtractDigits s)) as [v|e] eqn:Ec;
    [|discriminate].
  injection Et as <-.
  unfold ConvertStrToInt64 in Ec.
  destruct (ExtractDigits s) as [|c m] eqn:Em; [discriminate|].
  destruct (all_of isdigit (c :: m)) eqn:Hd; [|discriminate]. cbn [negb] in Ec.
  apply (ConvertStrToInt64_loop_result (c :: m) 0%Z v Hd); [|exact Ec].
  unfold INT64_MAX. lia.
Qed.

Lemma classify_epoch_in_range_witness :
  (0 <= 1 <= INT64_MAX)%Z /\
  exists k, (0 <= k)%Z /\
    (decimal (ExtractDigits (str ".18446744073709551617")) = 1 + k * 2 ^ 64)%Z.
Proof.
  exact (classify_epoch_in_range (str ".18446744073709551617") 1 eq_refl).
Defined.

(** ** What retention keeps *)

(** The value of the bound, with the conversions gone. *)
Lemma retention_lower_bound_value
  (maxBackupCount maxBackupDays now : Z) (paths : list entry) :
  time_sorted paths ->
  (Z.of_nat (length paths) <= INT32_MAX)%Z ->
  (- INT32_MAX - 1 <= maxBackupCount <= INT32_MAX)%Z ->
  (- INT32_MAX - 1 <= maxBackupDays <= INT32_MAX)%Z ->
  (INT64_MIN <= now - maxBackupDays * 86400 <= INT64_MAX)%Z ->
  retention_lower_bound maxBackupCount maxBackupDays now paths =
  Z.max (if (maxBackupCount >=? 0)%Z
         then Z.max 0 (Z.of_nat (length paths) - maxBackupCount) else 0%Z)
        (if (maxBackupDays >=? 0)%Z
         then Z.of_nat (lower_bound fst paths (now - maxBackupDays * 86400))
         else 0%Z).
Proof.
  intros Hs Hlen Hc Hd Hnow.
  unfold INT32_MAX, INT64_MIN, INT64_MAX in *.
  unfold retention_lower_bound. cbv zeta.
  rewrite (wrap64_small (maxBackupDays * 24 * 60 * 60))
    by (unfold INT64_MIN, INT64_MAX; lia).
  rewrite (wrap64_small (now - _)) by (unfold INT64_MIN, INT64_MAX; lia).
  replace (now - maxBackupDays * 24 * 60 * 60)%Z
    with (now - maxBackupDays * 86400)%Z by lia.
  destruct (lower_bound_smallest paths (now - maxBackupDays * 86400)%Z Hs)
    as (Hle & _).
  rewrite (wrap32_small (Z.of_nat (length paths))) by lia.
  destruct (maxBackupCount >=? 0)%Z eqn:Ec, (maxBackupDays >=? 0)%Z eqn:Ed;
    try (apply Z.geb_le in Ec); try rewrite wrap32_small by lia;
    try destruct (lower_bound fst paths _ =? length paths)%nat eqn:E;
    try apply Nat.eqb_eq in E; cbn [negb];
    try rewrite wrap32_small by lia; try rewrite E; lia.
Qed.

(** What the bound leaves of a time-sorted vector: at most
    [max_backup_count] entries when that limit is on, none older than
    [max_backup_days] days when that limit is on, and below the bound only
    entries that one of the two limits puts out. *)
Lemma retention_leaves
  (maxBackupCount maxBackupDays now : Z) (paths : list entry) :
  time_sorted paths ->
  (Z.of_nat (length paths) <= INT32_MAX)%Z ->
  (- INT32_MAX - 1 <= maxBackupCount <= INT32_MAX)%Z ->
  (- INT32_MAX - 1 <= maxBackupDays <= INT32_MAX)%Z ->
  (INT64_MIN <= now - maxBackupDays * 86400 <= INT64_MAX)%Z ->
  let lb := retention_lower_bound maxBackupCount maxBackupDays now paths in
  let kept := paths_retained lb paths in
  ((0 <= maxBackupCount)%Z -> (Z.of_nat (length kept) <= maxBackupCount)%Z) /\
  ((0 <= maxBackupDays)%Z ->
     forall p, In p kept -> (now - maxBackupDays * 86400 <= fst p)%Z) /\
  (forall j p, nth_error paths j = Some p -> (Z.of_nat j < lb)%Z ->
     ((0 <= maxBackupCount)%Z /\
      (Z.of_nat j < Z.of_nat (length paths) - maxBackupCount)%Z) \/
     ((0 <= maxBackupDays)%Z /\ (fst p < now - maxBackupDays * 86400)%Z)).
Proof.
  intros Hs Hlen Hc Hd Hnow lb kept.
  pose proof (retention_lower_bound_value _ _ _ _ Hs Hlen Hc Hd Hnow) as Hv.
  fold lb in Hv.
  destruct (lower_bound_smallest paths (now - maxBackupDays * 86400)%Z Hs)
    as (Hle & Hbelow & Hat).
  set (i := lower_bound fst paths (now - maxBackupDays * 86400)) in *.
  assert (Hlb : (0 <= lb <= Z.of_nat (length paths))%Z).
  { rewrite Hv. destruct (maxBackupCount >=? 0)%Z eqn:Ec,
      (maxBackupDays >=? 0)%Z; try apply Z.geb_le in Ec; lia. }
  split; [|split].
  - intros Hc0. subst kept. unfold paths_retained. rewrite length_skipn.
    rewrite (proj2 (Z.geb_le _ _) Hc0) in Hv.
    destruct (maxBackupDays >=? 0)%Z; lia.
  - intros Hd0 p Hin. subst kept. unfold paths_retained in Hin.
    apply In_nth_error in Hin. destruct Hin as (k & Hk).
    rewrite nth_error_skipn in Hk.
    rewrite (proj2 (Z.geb_le _ _) Hd0) in Hv.
    destruct (nth_error paths i) as [q|] eqn:Hq.
    + pose proof (Hat q eq_refl).
      pose proof (time_sorted_mono paths Hs i (Z.to_nat lb + k) q p
                    ltac:(lia) Hq Hk). lia.
    + apply nth_error_None in Hq.
      assert (nth_error paths (Z.to_nat lb + k) = None)
        by (apply nth_error_None; lia).
      congruence.
  - intros j p Hp Hj.
    destruct (maxBackupDays >=? 0)%Z eqn:Ed.
    + apply Z.geb_le in Ed.
      destruct (le_lt_dec i j) as [Hij|Hij].
      * left. destruct (maxBackupCount >=? 0)%Z eqn:Ec;
          [apply Z.geb_le in Ec|]; lia.
      * right. split; [assumption|]. eapply Hbelow; eassumption.
    + left. destruct (maxBackupCount >=? 0)%Z eqn:Ec;
        [apply Z.geb_le in Ec|]; lia.
Qed.

(** X12. What retention leaves, on a run of [rollOver]. With the limits in
    [std::int32_t], a clock whose threshold fits [std::int64_t] and
    directories of at most [INT_MAX] entries, a [rollOver] that returns
    splits what its scan returned, put in time order, into the backups it
    unlinks, each once and nothing else, and the backups it keeps: at most
    [max_backup_count] are kept when that limit is on, every backup kept is
    no older than [max_backup_days] days at the clock read of the run when
    that limit is on, and every backup unlinked is out by one of the two
    limits. *)
Theorem retention_keeps_newest_within_age (env : Env) (app : appender)
  (st st' : state) :
  (- INT32_MAX - 1 <= _maxBackupCount app <= INT32_MAX)%Z ->
  (- INT32_MAX - 1 <= _maxBackupDays app <= INT32_MAX)%Z ->
  (forall n, INT64_MIN <= os_time env n - _maxBackupDays app * 86400
             <= INT64_MAX)%Z ->
  (forall n d entries stop,
     os_opendir env n d = done (entries, stop) ->
     (Z.of_nat (length entries) <= INT32_MAX)%Z) ->
  rollOver env app st = (Ok tt, st') ->
  exists st_a found st_b deleted kept before after,
    FilterTimeBasedFilePaths env app (_fileName app) st_a = (Ok found, st_b) /\
    Permutation found (deleted ++ kept) /\
    time_sorted (deleted ++ kept) /\
    st_trace st' =
      st_trace st ++ before ++ map ev_unlink (map snd deleted) ++ after /\
    (forall p, ~ In (ev_unlink p) before) /\
    (forall p, ~ In (ev_unlink p) after) /\
    let threshold :=
      (os_time env (st_tick st_b) - _maxBackupDays app * 86400)%Z in
    ((0 <= _maxBackupCount app)%Z ->
       (Z.of_nat (length kept) <= _maxBackupCount app)%Z) /\
    ((0 <= _maxBackupDays app)%Z ->
       forall p, In p kept -> (threshold <= fst p)%Z) /\
    (forall j p, nth_error deleted j = Some p ->
       ((0 <= _maxBackupCount app)%Z /\
        (Z.of_nat j < Z.of_nat (length (deleted ++ kept))
                      - _maxBackupCount app)%Z) \/
       ((0 <= _maxBackupDays app)%Z /\ (fst p < threshold)%Z)).
Proof.
  intros Hc Hd Hnow Hdir H.
  destruct (rollOver_run env app st st' H)
    as (st_a & found & st_b & before & during & after
        & Ta & Hscan & Tb & Hpre & Hpost & Ht).
  cbv zeta in Ht.
  set (paths := sort_by fst found) in *.
  set (now := if (_maxBackupDays app >=? 0)%Z
              then os_time env (st_tick st_b) else 0%Z) in *.
  set (lb := retention_lower_bound (_maxBackupCount app) (_maxBackupDays app)
                                   now paths) in *.
  assert (Hlen : (Z.of_nat (length paths) <= INT32_MAX)%Z).
  { unfold paths. rewrite <- (Permutation_length (sort_by_perm found)).
    eapply scan_length; [exact Hdir|unfold INT32_MAX; lia|exact Hscan]. }
  assert (Hth : (INT64_MIN <= now - _maxBackupDays app * 86400 <= INT64_MAX)%Z).
  { unfold now. destruct (_maxBackupDays app >=? 0)%Z; [apply Hnow|].
    unfold INT32_MAX, INT64_MIN, INT64_MAX in *. lia. }
  destruct (retention_leaves (_maxBackupCount app) (_maxBackupDays app) now
              paths (sort_by_sorted found) Hlen Hc Hd Hth) as (K1 & K2 & K3).
  fold lb in K1, K2, K3. unfold paths_retained in K1, K2.
  assert (Hn : (0 <= _maxBackupDays app)%Z ->
               now = os_time env (st_tick st_b)).
  { intros Hpos. unfold now. rewrite (proj2 (Z.geb_le _ _) Hpos). reflexivity. }
  exists st_a, found, st_b, (firstn (Z.to_nat lb) paths),
    (skipn (Z.to_nat lb) paths),
    (before ++ during
     ++ (if (_maxBackupDays app >=? 0)%Z then [ev_time] else [])), after.
  rewrite firstn_skipn.
  split; [exact Hscan|]. split; [apply sort_by_perm|].
  split; [apply sort_by_sorted|]. split.
  { rewrite Ht, Tb, Ta. unfold paths_to_unlink. rewrite <- !app_assoc.
    reflexivity. }
  split.
  { intros p Hin. rewrite app_assoc in Hin. apply in_app_or in Hin.
    destruct Hin as [Hin|Hin]; [exact (Hpre p Hin)|].
    destruct (_maxBackupDays app >=? 0)%Z; [|exact Hin].
    destruct Hin as [Hin|[]]. discriminate. }
  split; [exact Hpost|]. cbv zeta.
  split; [exact K1|]. split.
  - intros Hpos p Hin. rewrite <- (Hn Hpos). exact (K2 Hpos p Hin).
  - intros j p Hj. rewrite nth_error_firstn in Hj.
    destruct (j <? Z.to_nat lb)%nat eqn:E; [|discriminate].
    apply Nat.ltb_lt in E.
    destruct (K3 j p Hj ltac:(lia)) as [K|[Hpos K]]; [left; exact K|].
    right. split; [exact Hpos|]. rewrite <- (Hn Hpos). exact K.
Qed.

Lemma retention_keeps_newest_within_age_witness :
  exists deleted kept : list entry,
    (Z.of_nat (length kept) <= 3)%Z /\
    exists before after,
      st_trace (snd (rollOver (Scenario.env (Some 0%Z) false None)
                              (Scenario.app None) Scenario.st0))
      = before ++ map ev_unlink (map snd deleted) ++ after.
Proof.
  destruct (retention_keeps_newest_within_age
              (Scenario.env (Some 0%Z) false None) (Scenario.app None)
              Scenario.st0
              (snd (rollOver (Scenario.env (Some 0%Z) false None)
                             (Scenario.app None) Scenario.st0)))
    as (st_a & found & st_b & deleted & kept & before & after
        & _ & _ & _ & Ht & _ & _ & Hk & _).
  - unfold INT32_MAX. cbn. lia.
  - unfold INT32_MAX. cbn. lia.
  - intros n. unfold INT64_MIN, INT64_MAX. cbn. lia.
  - intros n d entries stop [= <- _]. unfold INT32_MAX. cbn. lia.
  - vm_compute. reflexivity.
  - exists deleted, kept. split; [apply Hk; cbn; lia|].
    exists before, after. exact Ht.
Defined.

(** ** The directory scan *)

(** [FilterTimeBasedFilePaths] once [opendir] has succeeded on a stream
    that ends normally. *)
Lemma scan_after_normal_end env app base st entries :
  is_empty (snd (SplitPathIntoDirAndFile base)) = false ->
  os_opendir env (st_tick st) (fst (SplitPathIntoDirAndFile base))
  = done (entries, None) ->
  let d := fst (SplitPathIntoDirAndFile base) in
  let b := snd (SplitPathIntoDirAndFile base) in
  let st1 := mk_state (st_fd st) 0 (S (st_tick st)) (st_trace st ++ [ev_opendir d]) in
  FilterTimeBasedFilePaths env app base st =
  match readdir_loop env app d b entries [] st1 with
  | (Ok gathered, st2) =>
      if (st_errno st2 =? 0)%Z
      then (Ok gathered,
            mk_state (st_fd st2) (st_errno st2) (st_tick st2)
                     (st_trace st2 ++ [ev_readdir; ev_closedir]))
      else (Ok [],
            mk_state (st_fd st2) (st_errno st2) (st_tick st2)
                     (st_trace st2 ++ [ev_readdir; ev_cerr (Could_not_readdir d);
                                       ev_closedir]))
  | (Throw x, st2) => (Throw x, st2)
  end.
Proof.
  intros Hname Hdir. unfold FilterTimeBasedFilePaths.
  destruct (SplitPathIntoDirAndFile base) as [d b]. cbn [fst snd] in *.
  rewrite Hname. cbv zeta.
  unfold bind at 1. unfold syscall at 1. rewrite Hdir.
  unfold bind at 1. unfold set_errno at 1. cbn [st_fd st_errno st_tick st_trace].
  unfold bind at 1.
  destruct (readdir_loop env app d b entries [] _) as [[res|x] st2]; [|reflexivity].
  unfold readdir_end, cerr, bind, emit, set_errno, get_errno, ret.
  cbn [st_fd st_errno st_tick st_trace].
  destruct (st_errno st2 =? 0)%Z; cbn [negb st_fd st_errno st_tick st_trace];
    rewrite <- !app_assoc; reflexivity.
Qed.

(** ** A scan that prints nothing *)

(** The trace only grows. *)
Lemma trace_grows {A} (m : M A) st r st' :
  emits (unlinks_only (fun _ => True)) m ->
  m st = (r, st') -> exists new, st_trace st' = st_trace st ++ new.
Proof.
  intros Hm H. destruct (Hm st) as (new & Ht & _). rewrite H in Ht.
  exists new. exact Ht.
Qed.

(** An entry handled without a diagnostic leaves [errno] as it was. *)
Lemma HandleBackupLogFile_quiet env app name d b st r st' new :
  HandleBackupLogFile env app name d b st = (Ok r, st') ->
  st_trace st' = st_trace st ++ new ->
  (forall x, ~ In (ev_cerr x) new) ->
  st_errno st' = st_errno st.
Proof.
  intros H Ht Hq. unfold HandleBackupLogFile in H.
  destruct (_ || _); [unfold ret in H; injection H as _ <-; reflexivity|].
  apply bind_Ok_inv in H. destruct H as (reg & s1 & Hreg & H).
  assert (Hs1 : st_errno s1 = st_errno st /\
                exists pre, st_trace s1 = st_trace st ++ pre).
  { unfold ExistRegularFile in Hreg.
    destruct (is_empty _).
    { unfold ret in Hreg. injection Hreg as _ <-. split; [reflexivity|].
      exists []. now rewrite app_nil_r. }
    unfold bind, syscall in Hreg.
    destruct (os_stat env (st_tick st) _) as [e|[is_reg mtime]];
      [discriminate|].
    unfold ret in Hreg. injection Hreg as _ <-. cbn. eauto. }
  destruct Hs1 as (He1 & pre & Ht1).
  destruct (negb reg); [unfold ret in H; injection H as _ <-; exact He1|].
  destruct (ExtractTimestamp _);
    [unfold ret in H; injection H as _ <-; exact He1|].
  exfalso.
  apply bind_Ok_inv in H. destruct H as (? & s2 & Hc & H).
  unfold cerr, emit in Hc. injection Hc as _ <-.
  eapply trace_grows in H.
  2:{ destruct (ExtractIndex _); [apply emits_HandleLegacyLogFile|].
      repeat emits_step. }
  destruct H as (n2 & Ht2). cbn [st_trace] in Ht2.
  rewrite Ht1, <- !app_assoc in Ht2. rewrite Ht2 in Ht.
  apply app_inv_head in Ht. subst new.
  apply (Hq (Could_not_extract_timestamp
               (d ++ str "/" ++ name))).
  apply in_or_app. right. now left.
Qed.

Lemma readdir_loop_quiet env app d b entries :
  forall res st found st' new,
  readdir_loop env app d b entries res st = (Ok found, st') ->
  st_trace st' = st_trace st ++ new ->
  (forall x, ~ In (ev_cerr x) new) ->
  st_errno st' = st_errno st.
Proof.
  induction entries as [|entry rest IH]; intros res st found st' new H Ht Hq;
    cbn [readdir_loop] in H.
  - unfold ret in H. injection H as _ <-. reflexivity.
  - apply bind_Ok_inv in H. destruct H as (? & s1 & Hr & H).
    unfold emit in Hr. injection Hr as _ <-.
    assert (Hskip : forall res',
              readdir_loop env app d b rest res'
                (mk_state (st_fd st) (st_errno st) (st_tick st)
                          (st_trace st ++ [ev_readdir]))
              = (Ok found, st') ->
              st_errno st' = st_errno st).
    { intros res' H'. destruct new as [|e new].
      - rewrite app_nil_r in Ht.
        destruct (trace_grows _ _ _ _ (emits_readdir_loop env app _ d b rest res') H')
          as (n & Hn).
        cbn [st_trace] in Hn. rewrite Ht, <- app_assoc in Hn.
        rewrite <- (app_nil_r (st_trace st)) in Hn at 1.
        apply app_inv_head in Hn. discriminate.
      - destruct (trace_grows _ _ _ _ (emits_readdir_loop env app _ d b rest res') H')
          as (n & Hn).
        cbn [st_trace] in Hn. rewrite Ht, <- app_assoc in Hn.
        apply app_inv_head in Hn. injection Hn as -> ->.
        apply (IH res' _ found st' n H'); [cbn [st_trace]|].
        + rewrite Ht, <- app_assoc. reflexivity.
        + intros dg Hin. apply (Hq dg). now right. }
    destruct (negb (d_is_reg entry)); [exact (Hskip _ H)|].
    destruct (_ || _); [exact (Hskip _ H)|].
    apply bind_Ok_inv in H. destruct H as ([[ok ts] fp] & s2 & Hh & H).
    destruct (trace_grows _ _ _ _
                (emits_HandleBackupLogFile env app _ (d_name entry) d b) Hh)
      as (n1 & Hn1).
    destruct (trace_grows _ _ _ _
                (emits_readdir_loop env app _ d b rest _) H) as (n2 & Hn2).
    cbn [st_trace] in Hn1.
    assert (Hnew : new = ev_readdir :: n1 ++ n2).
    { rewrite Hn2, Hn1, <- !app_assoc in Ht. apply app_inv_head in Ht.
      symmetry. exact Ht. }
    subst new.
    rewrite (IH _ _ _ _ n2 H Hn2).
    + rewrite (HandleBackupLogFile_quiet _ _ _ _ _ _ _ _ n1 Hh Hn1);
        [reflexivity|].
      intros dg Hin. apply (Hq dg). right. apply in_or_app. now left.
    + intros dg Hin. apply (Hq dg). right. apply in_or_app. now right.
Qed.

(** X13. The scan looks at [errno] after the loop, not at what [readdir]
    returned. On a directory stream that ends normally: if a call inside the
    loop has failed and left its [errno] (a [stat] of a legacy backup, a
    [rename], a [remove]), the scan returns nothing, whatever it gathered;
    if no diagnostic was printed inside the loop, [errno] is still 0 and the
    scan returns what the loop gathered. *)
Theorem scan_result_depends_on_errno (env : Env) (app : appender)
  (base : cstring) (st : state) (entries : list dirent)
  (gathered : list entry) (st2 : state) (new : list event) :
  is_empty (snd (SplitPathIntoDirAndFile base)) = false ->
  os_opendir env (st_tick st) (fst (SplitPathIntoDirAndFile base))
  = done (entries, None) ->
  readdir_loop env app (fst (SplitPathIntoDirAndFile base))
               (snd (SplitPathIntoDirAndFile base)) entries []
               (mk_state (st_fd st) 0 (S (st_tick st))
                  (st_trace st
                   ++ [ev_opendir (fst (SplitPathIntoDirAndFile base))]))
  = (Ok gathered, st2) ->
  st_trace st2 =
    (st_trace st ++ [ev_opendir (fst (SplitPathIntoDirAndFile base))]) ++ new ->
  (st_errno st2 <> 0%Z ->
   fst (FilterTimeBasedFilePaths env app base st) = Ok []) /\
  ((forall d, ~ In (ev_cerr d) new) ->
   st_errno st2 = 0%Z /\
   fst (FilterTimeBasedFilePaths env app base st) = Ok gathered).
Proof.
  intros Hname Hdir Hloop Ht.
  rewrite (scan_after_normal_end env app base st entries Hname Hdir).
  cbv zeta. rewrite Hloop. split.
  - intros Hne. rewrite (proj2 (Z.eqb_neq _ _) Hne). reflexivity.
  - intros Hq.
    pose proof (readdir_loop_quiet _ _ _ _ _ _ _ _ _ new Hloop Ht Hq) as He.
    cbn [st_errno] in He. rewrite He. split; reflexivity.
Qed.

Lemma scan_result_depends_on_errno_witness :
  fst (FilterTimeBasedFilePaths Fixture.env_rename_fails (Scenario.app None)
         (str "foo.log") Scenario.st0)
  = Ok [].
Proof.
  refine (proj1 (scan_result_depends_on_errno Fixture.env_rename_fails
           (Scenario.app None) (str "foo.log") Scenario.st0 Fixture.listing
           [(1699920000%Z, str "./foo.log.20231114T000000Z")]
           (snd (readdir_loop Fixture.env_rename_fails (Scenario.app None)
                   (str ".") (str "foo.log") Fixture.listing []
                   (mk_state 3 0 1 [ev_opendir (str ".")])))
           (skipn 1 (st_trace
              (snd (readdir_loop Fixture.env_rename_fails (Scenario.app None)
                      (str ".") (str "foo.log") Fixture.listing []
                      (mk_state 3 0 1 [ev_opendir (str ".")])))))
           eq_refl eq_refl eq_refl _) _).
  - vm_compute. reflexivity.
  - vm_compute. discriminate.
Defined.

Lemma split_length (file_path : cstring) :
  (length file_path
   <= length (fst (SplitPathIntoDirAndFile file_path)) + 1
      + length (snd (SplitPathIntoDirAndFile file_path)))%nat.
Proof.
  unfold SplitPathIntoDirAndFile.
  destruct (find_last_of (str "/") file_path) as [pos|] eqn:E; cbn [fst snd].
  - destruct (find_last_of_slash_split _ _ E) as [Hs _].
    rewrite Hs at 1. rewrite length_app. cbn [length]. lia.
  - lia.
Qed.

Lemma CompressLog_without_compressor env app p st :
  _compressFunc app = None -> CompressLog env app p st = (Ok (true, p), st).
Proof. intros H. unfold CompressLog. rewrite H. reflexivity. Qed.

(** ** The paths that the scan returns *)

Section ScanPaths.
Variable env : Env.
Variable app : appender.
Variable G : cstring -> Prop.

(** What [HandleBackupLogFile] reports for an entry of the log's directory
    lies in [G]. *)
Hypothesis reported_in_G : forall name st ts path st',
  HandleBackupLogFile env app name
    (fst (SplitPathIntoDirAndFile (_fileName app)))
    (snd (SplitPathIntoDirAndFile (_fileName app))) st
  = (Ok (true, ts, path), st') ->
  G path.

Lemma readdir_loop_in_G entries : forall res st found st',
  Forall (fun e => G (snd e)) res ->
  readdir_loop env app (fst (SplitPathIntoDirAndFile (_fileName app)))
    (snd (SplitPathIntoDirAndFile (_fileName app))) entries res st
  = (Ok found, st') ->
  Forall (fun e => G (snd e)) found.
Proof.
  induction entries as [|entry rest IH]; intros res st found st' Hres H;
    cbn [readdir_loop] in H.
  - unfold ret in H. injection H as <- _. exact Hres.
  - apply bind_Ok_inv in H. destruct H as (? & st1 & _ & H).
    destruct (negb (d_is_reg entry)); [eapply IH; eassumption|].
    destruct (_ || _); [eapply IH; eassumption|].
    apply bind_Ok_inv in H. destruct H as ([[ok ts] fp] & st2 & Hh & H).
    destruct ok; [|eapply IH; eassumption].
    eapply IH; [|exact H].
    apply Forall_app. split; [exact Hres|]. constructor; [|constructor].
    cbn [snd]. eapply reported_in_G; eassumption.
Qed.

Lemma scan_in_G st found :
  fst (FilterTimeBasedFilePaths env app (_fileName app) st) = Ok found ->
  Forall (fun e => G (snd e)) found.
Proof.
  destruct (FilterTimeBasedFilePaths env app (_fileName app) st) as [r st'] eqn:H.
  cbn [fst]. intros ->. unfold FilterTimeBasedFilePaths in H.
  pose proof readdir_loop_in_G as Hloop.
  destruct (SplitPathIntoDirAndFile (_fileName app)) as [d b].
  cbn [fst snd] in Hloop.
  destruct (is_empty b); [unfold ret in H; injection H as <- _; constructor|].
  apply bind_Ok_inv in H. destruct H as (o & st1 & _ & H).
  destruct o as [e|[entries stop]].
  { apply bind_Ok_inv in H. destruct H as (? & ? & _ & H).
    unfold ret in H. injection H as <- _. constructor. }
  apply bind_Ok_inv in H. destruct H as (? & st2 & _ & H).
  apply bind_Ok_inv in H. destruct H as (res & st3 & Hl & H).
  apply bind_Ok_inv in H. destruct H as (? & st4 & _ & H).
  apply bind_Ok_inv in H. destruct H as (errno & st5 & _ & H).
  apply bind_Ok_inv in H. destruct H as (res' & st6 & Hres & H).
  apply bind_Ok_inv in H. destruct H as (? & st7 & _ & H).
  unfold ret in H. injection H as <- _.
  destruct (negb (errno =? 0)%Z).
  - apply bind_Ok_inv in Hres. destruct Hres as (? & ? & _ & Hres).
    unfold ret in Hres. injection Hres as <- _. constructor.
  - unfold ret in Hres. injection Hres as <- _.
    eapply Hloop; [|exact Hl]. constructor.
Qed.
End ScanPaths.

(** ** Never the active file *)

Lemma CompressLog_result_path env app q st ok fp st' t :
  compressor_avoids app t -> q <> t ->
  CompressLog env app q st = (Ok (ok, fp), st') ->
  (if ok then fp else q) <> t.
Proof.
  unfold compressor_avoids, CompressLog. intros Hav Hq H.
  destruct (_compressFunc app) as [f|].
  - apply bind_Ok_inv in H. destruct H as ([ok0 cp] & st1 & Hc & H).
    unfold call_compress in Hc. injection Hc as <- <- _.
    destruct (negb (cr_ok (f (st_tick st) q))) eqn:E.
    + do 3 (apply bind_Ok_inv in H; destruct H as (? & ? & _ & H)).
      unfold ret in H. injection H as <- _ _. exact Hq.
    + do 2 (apply bind_Ok_inv in H; destruct H as (? & ? & _ & H)).
      unfold ret in H. injection H as <- <- _. apply Hav.
  - unfold ret in H. injection H as <- <- _. exact Hq.
Qed.

Lemma longer_not_equal (a b : cstring) : (length a < length b)%nat -> b <> a.
Proof. intros H ->. lia. Qed.

Lemma HandleLegacyLogFile_not_active env app file_path st ts path st' :
  compressor_avoids app (_fileName app) ->
  HandleLegacyLogFile env app file_path st = (Ok (true, ts, path), st') ->
  path <> _fileName app.
Proof.
  intros Hc H. unfold HandleLegacyLogFile in H.
  apply bind_Ok_inv in H. destruct H as (mtime & st1 & _ & H).
  destruct (mtime <? 0)%Z.
  { apply bind_Ok_inv in H. destruct H as (? & ? & _ & H). discriminate. }
  apply bind_Ok_inv in H. destruct H as (dt & st2 & _ & H).
  apply bind_Ok_inv in H. destruct H as (rn & st3 & _ & H).
  destruct (is_failed rn).
  { apply bind_Ok_inv in H. destruct H as (? & ? & _ & H). discriminate. }
  apply bind_Ok_inv in H. destruct H as ([ok fp] & st4 & Hcl & H).
  unfold ret in H. injection H as _ <- _.
  eapply CompressLog_result_path; [exact Hc| |exact Hcl].
  apply longer_not_equal.
  rewrite !length_app. cbn [length str list_ascii_of_string]. lia.
Qed.

Lemma HandleBackupLogFile_not_active env app name st ts path st' :
  compressor_avoids app (_fileName app) ->
  HandleBackupLogFile env app name
    (fst (SplitPathIntoDirAndFile (_fileName app)))
    (snd (SplitPathIntoDirAndFile (_fileName app))) st
  = (Ok (true, ts, path), st') ->
  path <> _fileName app.
Proof.
  intros Hc H. pose proof (split_length (_fileName app)) as Hlen.
  unfold HandleBackupLogFile in H.
  destruct (length name <=? _)%nat eqn:El; cbn [orb] in H; [discriminate|].
  apply Nat.leb_gt in El.
  destruct (negb _); [discriminate|].
  apply bind_Ok_inv in H. destruct H as (reg & st1 & _ & H).
  destruct (negb reg); [discriminate|].
  destruct (ExtractTimestamp _).
  - unfold ret in H. injection H as _ <- _. apply longer_not_equal.
    rewrite !length_app. cbn [length str list_ascii_of_string]. lia.
  - apply bind_Ok_inv in H. destruct H as (? & st2 & _ & H).
    destruct (ExtractIndex _).
    + eapply HandleLegacyLogFile_not_active; eassumption.
    + apply bind_Ok_inv in H. destruct H as (? & ? & _ & H). discriminate.
Qed.

(** X14. The active log file is never unlinked. Provided the compressor,
    if any, never names the active file as its output, no run of [rollOver]
    and no run of [_append], whatever the system answers and whether the run
    returns or is left by an exception, issues [unlink] on [_fileName]. *)
Theorem active_file_is_never_unlinked (env : Env) (app : appender)
  (st : state) :
  compressor_avoids app (_fileName app) ->
  (exists new,
     st_trace (snd (rollOver env app st)) = st_trace st ++ new /\
     ~ In (ev_unlink (_fileName app)) new) /\
  (exists new,
     st_trace (snd (_append env app st)) = st_trace st ++ new /\
     ~ In (ev_unlink (_fileName app)) new).
Proof.
  intros Hc.
  set (G := fun q : cstring => q <> _fileName app).
  assert (Hscan : forall st found,
            fst (FilterTimeBasedFilePaths env app (_fileName app) st) = Ok found ->
            Forall (fun e => G (snd e)) found).
  { apply scan_in_G. intros name st0 ts path st' H.
    exact (HandleBackupLogFile_not_active env app name st0 ts path st' Hc H). }
  split.
  - destruct (unlinked_in_G G (rollOver env app) st
                (emits_rollOver env app G Hscan)) as (new & E & F).
    exists new. split; [exact E|]. intros Hin. exact (F _ Hin eq_refl).
  - destruct (unlinked_in_G G (_append env app) st
                (emits_append env app G Hscan)) as (new & E & F).
    exists new. split; [exact E|]. intros Hin. exact (F _ Hin eq_refl).
Qed.

Lemma active_file_is_never_unlinked_witness :
  compressor_avoids (Scenario.app (Some Scenario.gz)) (str "foo.log") /\
  exists new,
    st_trace (snd (_append (Scenario.env (Some 0%Z) false None)
                     (Scenario.app (Some Scenario.gz)) Scenario.st0))
    = [] ++ new /\
    ~ In (ev_unlink (str "foo.log")) new.
Proof.
  assert (H : compressor_avoids (Scenario.app (Some Scenario.gz))
                (str "foo.log")).
  { intros n q E. apply (f_equal (@rev ascii)) in E.
    unfold Scenario.gz, cr_path in E. rewrite rev_app_distr in E.
    discriminate E. }
  split; [exact H|].
  exact (proj2 (active_file_is_never_unlinked
                  (Scenario.env (Some 0%Z) false None)
                  (Scenario.app (Some Scenario.gz)) Scenario.st0 H)).
Defined.

(** ** Only backups *)

Lemma lift_Ok_inv {A} (r : result A) st a st' :
  lift r st = (Ok a, st') -> r = Ok a.
Proof. unfold lift. now intros [= -> _]. Qed.

Lemma HandleLegacyLogFile_backup_path env app file_path st ts path st' :
  _compressFunc app = None ->
  HandleLegacyLogFile env app file_path st = (Ok (true, ts, path), st') ->
  backup_path env app path.
Proof.
  intros Hc H. unfold HandleLegacyLogFile in H.
  apply bind_Ok_inv in H. destruct H as (mtime & st1 & _ & H).
  destruct (mtime <? 0)%Z.
  { apply bind_Ok_inv in H. destruct H as (? & ? & _ & H). discriminate. }
  apply bind_Ok_inv in H. destruct H as (dt & st2 & Hdt & H).
  apply lift_Ok_inv in Hdt.
  apply bind_Ok_inv in H. destruct H as (rn & st3 & _ & H).
  destruct (is_failed rn).
  { apply bind_Ok_inv in H. destruct H as (? & ? & _ & H). discriminate. }
  apply bind_Ok_inv in H. destruct H as ([ok fp] & st4 & Hcl & H).
  rewrite CompressLog_without_compressor in Hcl by assumption.
  injection Hcl as <- <- _. unfold ret in H. injection H as _ <- _.
  right. exists mtime, dt. auto.
Qed.

Lemma HandleBackupLogFile_backup_path env app name st ts path st' :
  _compressFunc app = None ->
  HandleBackupLogFile env app name
    (fst (SplitPathIntoDirAndFile (_fileName app)))
    (snd (SplitPathIntoDirAndFile (_fileName app))) st
  = (Ok (true, ts, path), st') ->
  backup_path env app path.
Proof.
  intros Hc H. unfold HandleBackupLogFile in H.
  set (d := fst (SplitPathIntoDirAndFile (_fileName app))) in *.
  set (b := snd (SplitPathIntoDirAndFile (_fileName app))) in *.
  destruct (length name <=? length b)%nat eqn:El; cbn [orb] in H;
    [discriminate|].
  apply Nat.leb_gt in El.
  destruct (cstring_eqb (firstn (length b) name) b) eqn:Ep; cbn [negb] in H;
    [|discriminate].
  apply cstring_eqb_eq in Ep.
  apply bind_Ok_inv in H. destruct H as (reg & st1 & _ & H).
  destruct (negb reg); [discriminate|].
  destruct (ExtractTimestamp (skipn (length b) name)) as [t|] eqn:Et.
  - unfold ret in H. injection H as <- <- _.
    left. exists (skipn (length b) name), t. fold d b.
    split; [|split; [|exact Et]].
    + pose proof (firstn_skipn (length b) name) as Hn. rewrite Ep in Hn.
      rewrite Hn. reflexivity.
    + intros E. apply (f_equal (@length ascii)) in E.
      rewrite length_skipn in E. cbn [length] in E. lia.
  - apply bind_Ok_inv in H. destruct H as (? & st2 & _ & H).
    destruct (ExtractIndex _).
    + eapply HandleLegacyLogFile_backup_path; eassumption.
    + apply bind_Ok_inv in H. destruct H as (? & ? & _ & H). discriminate.
Qed.

(** X22. Only backups are unlinked. Without a compressor, every path that
    a run of [rollOver] or of [_append] unlinks, whatever the system answers
    and whether the run returns or is left by an exception, is a path under
    which the scan reports a backup: the log's directory, [/], the log's
    name and a non-empty suffix that carries a timestamp, or the name
    [_fileName], [.] and a date that a legacy backup was given. *)
Theorem only_backups_are_unlinked (env : Env) (app : appender) (st : state) :
  _compressFunc app = None ->
  (exists new,
     st_trace (snd (rollOver env app st)) = st_trace st ++ new /\
     forall p, In (ev_unlink p) new -> backup_path env app p) /\
  (exists new,
     st_trace (snd (_append env app st)) = st_trace st ++ new /\
     forall p, In (ev_unlink p) new -> backup_path env app p).
Proof.
  intros Hc.
  assert (Hscan : forall st found,
            fst (FilterTimeBasedFilePaths env app (_fileName app) st) = Ok found ->
            Forall (fun e => backup_path env app (snd e)) found).
  { apply scan_in_G. intros name st0 ts path st' H.
    exact (HandleBackupLogFile_backup_path env app name st0 ts path st' Hc H). }
  split.
  - exact (unlinked_in_G _ (rollOver env app) st
             (emits_rollOver env app _ Hscan)).
  - exact (unlinked_in_G _ (_append env app) st
             (emits_append env app _ Hscan)).
Qed.

Lemma only_backups_are_unlinked_witness :
  _compressFunc (Scenario.app None) = None /\
  exists new,
    st_trace (snd (_append (Scenario.env (Some 0%Z) false None)
                     (Scenario.app None) Scenario.st0))
    = [] ++ new /\
    forall p, In (ev_unlink p) new ->
              backup_path (Scenario.env (Some 0%Z) false None)
                          (Scenario.app None) p.
Proof.
  split; [reflexivity|].
  exact (proj2 (only_backups_are_unlinked
                  (Scenario.env (Some 0%Z) false None)
                  (Scenario.app None) Scenario.st0 eq_refl)).
Defined.

(** X15. A legacy backup is renamed after its modification time. Without
    a compressor, in a zone of whole minutes with the minutes part below
    ten, when [stat] gives a modification time in the years 1970 to 9999 and
    the [rename] succeeds, [HandleLegacyLogFile] calls [stat] and [rename]
    and nothing else, reports the file under its modification time, and the
    new name is the active name, a dot and a suffix that the classifier
    reads as ISO 8601 with that same time: the next scan finds the file
    under the timestamp it has now. *)
Theorem legacy_backup_is_renamed_after_its_mtime (env : Env) (app : appender)
  (file_path : cstring) (st : state) (off mtime : Z) (reg : bool) :
  os_localtime env = localtime_in (fun _ => off) ->
  _compressFunc app = None ->
  os_stat env (st_tick st) file_path = done (reg, mtime) ->
  (forall to, os_rename env (S (st_tick st)) file_path to = done tt) ->
  (0 <= mtime)%Z -> (0 <= mtime + off < 253402300800)%Z ->
  (Z.abs off < 360000)%Z -> (Z.abs off mod 60 = 0)%Z ->
  (Z.abs off / 60 mod 60 < 10)%Z ->
  exists name,
    HandleLegacyLogFile env app file_path st =
    (Ok (true, mtime, _fileName app ++ "."%char :: name),
     mk_state (st_fd st) (st_errno st) (S (S (st_tick st)))
       (st_trace st
        ++ [ev_stat file_path;
            ev_rename file_path (_fileName app ++ "."%char :: name)])) /\
    classify ("."%char :: name) = cls_iso8601 mtime.
Proof.
  intros Hlt Hc Hstat Hren H0 Ht Hoff Hsec Hmin.
  pose proof (round_trip_minutes_below_ten off mtime Ht Hoff Hsec Hmin) as Hrt.
  rewrite encode_shape in Hrt by assumption. cbn [rbind] in Hrt.
  destruct (local_name_in_suffix off mtime [] Ht Hoff (or_introl eq_refl))
    as (Hname & Hx & Hne).
  rewrite app_nil_r in Hx.
  set (name := iso8601_of (broken_down (mtime + off) off) off) in *.
  exists name.
  split; [|exact (classify_iso_suffix _ _ mtime Hx Hne eq_refl Hrt)].
  unfold HandleLegacyLogFile, GetLastModifiedTimestamp.
  unfold bind at 1. unfold bind at 1. unfold syscall at 1. rewrite Hstat.
  unfold ret at 1. rewrite (proj2 (Z.ltb_ge _ _) H0).
  unfold bind at 1. unfold lift at 1. rewrite Hlt, Hname.
  unfold bind at 1. unfold syscall at 1. cbn [st_tick st_fd st_errno st_trace].
  change (_fileName app ++ str "." ++ name)
    with (_fileName app ++ "."%char :: name).
  rewrite Hren. cbn [is_failed].
  unfold bind. rewrite CompressLog_without_compressor by assumption.
  unfold ret. cbn [st_tick st_fd st_errno st_trace].
  rewrite <- app_assoc. reflexivity.
Qed.

Lemma legacy_backup_is_renamed_after_its_mtime_witness :
  exists name,
    HandleLegacyLogFile (Scenario.env (Some 0%Z) false None)
      (Scenario.app None) (str "./foo.log.1") Scenario.st0 =
    (Ok (true, 1600000000%Z, str "foo.log" ++ "."%char :: name),
     mk_state 3 0 2
       ([] ++ [ev_stat (str "./foo.log.1");
               ev_rename (str "./foo.log.1")
                         (str "foo.log" ++ "."%char :: name)])) /\
    classify ("."%char :: name) = cls_iso8601 1600000000.
Proof.
  refine (legacy_backup_is_renamed_after_its_mtime
            (Scenario.env (Some 0%Z) false None) (Scenario.app None)
            (str "./foo.log.1") Scenario.st0 0 1600000000 true
            eq_refl eq_refl eq_refl (fun _ => eq_refl) _ _ _ _ _).
  - lia.
  - lia.
  - cbn. lia.
  - reflexivity.
  - cbn. lia.
Defined.

(** X16. A [rollOver] that returns ends by opening [_fileName] again: the
    descriptor it leaves in [_fd] is what that last [open] returned, -1
    included, and a failed [open] is followed by its diagnostic only. *)
Theorem rollOver_reopens_last (env : Env) (app : appender) (st st' : state) :
  rollOver env app st = (Ok tt, st') ->
  let r := os_open env (pred (st_tick st')) (_fileName app) in
  st_fd st' = int_of r /\
  exists before,
    st_trace st' =
      before ++ ev_open (_fileName app)
             :: (if is_failed r
                 then [ev_cerr (Could_not_open_file (_fileName app))]
                 else []).
Proof.
  intros H. unfold rollOver in H.
  do 11 (apply bind_Ok_inv in H; destruct H as (? & ? & _ & H)).
  revert H. unfold reopen, cerr, bind, syscall, set_fd, emit, ret.
  cbn [st_fd st_errno st_tick st_trace].
  match goal with
  | |- context [os_open env (st_tick ?s) _] => set (mid := s)
  end.
  destruct (is_failed (os_open env (st_tick mid) (_fileName app))) eqn:E;
    cbn [st_fd st_errno st_tick st_trace]; intros [= <-]; cbv zeta;
    cbn [st_fd st_errno st_tick st_trace pred]; rewrite E;
    (split; [reflexivity|]); exists (st_trace mid);
    rewrite <- ?app_assoc; reflexivity.
Qed.

Lemma rollOver_reopens_last_witness :
  exists st',
    rollOver (Scenario.env None false None) (Scenario.app None) Scenario.st0
    = (Ok tt, st') /\ st_fd st' = 5%Z.
Proof.
  destruct (returns_rollOver (Scenario.env None false None) (Scenario.app None)
              (fun _ _ => eq_refl)
              (fun t (H : ConvertTimeToIso8601 (fun _ => None) t
                          = Throw runtime_error) =>
                 eq_ind (Ok []) (fun r => match r with Ok _ => True
                                          | Throw _ => False end) I _ H)
              Scenario.st0) as ([] & st' & H).
  exists st'. split; [exact H|].
  exact (proj1 (rollOver_reopens_last _ _ _ _ H)).
Defined.

(** ** [_append] *)

(** X17. Below the size limit, or when [lseek] fails, [_append] does two
    things: the [lseek] and the write of the base class. No lock is taken,
    [_fd] is kept. *)
Theorem append_fast_path (env : Env) (app : appender) (st : state) :
  let r := os_lseek env (st_tick st) (st_fd st) in
  (int_of r < 0)%Z \/ (int_of r < _maxFileSize app)%Z ->
  _append env app st =
  (Ok tt,
   mk_state (st_fd st)
            (match r with failed e => Z.pos e | done _ => st_errno st end)
            (S (st_tick st))
            (st_trace st ++ [ev_lseek (st_fd st); ev_base_append])).
Proof.
  intros r H. unfold _append.
  unfold bind at 1. unfold get_fd at 1. unfold bind at 1. unfold syscall at 1.
  fold r. unfold bind at 1.
  destruct (int_of r <? 0)%Z eqn:E1.
  - unfold ret, FileAppender_append, emit. cbn [st_fd st_errno st_tick st_trace].
    rewrite <- app_assoc. reflexivity.
  - apply Z.ltb_ge in E1.
    rewrite Z.geb_leb, (proj2 (Z.leb_gt _ _)) by lia.
    unfold ret, FileAppender_append, emit. cbn [st_fd st_errno st_tick st_trace].
    rewrite <- app_assoc. reflexivity.
Qed.

Lemma append_fast_path_witness :
  _append (Scenario.env None false None) Fixture.app_large Scenario.st0
  = (Ok tt, mk_state 3 0 1 [ev_lseek 3; ev_base_append]).
Proof.
  refine (append_fast_path (Scenario.env None false None) Fixture.app_large
            Scenario.st0 _).
  right. cbn. lia.
Defined.

(** X18. At the size limit without the lock. When the lock file cannot be
    opened, or [flock] fails, [_append] rotates nothing: it prints the
    diagnostic, closes the lock descriptor if it has one, keeps [_fd] and
    goes on to the write of the base class. *)
Theorem append_lock_unavailable (env : Env) (app : appender) (st : state)
  (n : N) :
  os_lseek env (st_tick st) (st_fd st) = done n ->
  (_maxFileSize app <= Z.of_N n)%Z ->
  (forall e, os_open env (S (st_tick st)) (_lockFilePath app) = failed e ->
     _append env app st =
     (Ok tt,
      mk_state (st_fd st) (Z.pos e) (S (S (st_tick st)))
        (st_trace st
         ++ [ev_lseek (st_fd st); ev_open (_lockFilePath app);
             ev_cerr (Could_not_open_lock_file (_lockFilePath app));
             ev_base_append]))) /\
  (forall l e,
     os_open env (S (st_tick st)) (_lockFilePath app) = done l ->
     os_flock env (S (S (st_tick st))) (Z.of_N l) LOCK_EX = failed e ->
     exists st',
       _append env app st = (Ok tt, st') /\
       st_fd st' = st_fd st /\
       st_trace st' =
         st_trace st
         ++ [ev_lseek (st_fd st); ev_open (_lockFilePath app);
             ev_flock (Z.of_N l) LOCK_EX;
             ev_cerr (Could_not_lock (_lockFilePath app));
             ev_close (Z.of_N l)]
         ++ (if is_failed (os_close env (S (S (S (st_tick st)))) (Z.of_N l))
             then [ev_cerr (Could_not_close_lock_fd (Z.of_N l))] else [])
         ++ [ev_base_append]).
Proof.
  intros Hseek Hmax.
  assert (Hl0 : (Z.of_N n <? 0)%Z = false) by (apply Z.ltb_ge; lia).
  assert (Hl1 : (Z.of_N n >=? _maxFileSize app)%Z = true)
    by (rewrite Z.geb_leb; apply Z.leb_le; lia).
  split.
  - intros e Hopen. unfold _append.
    unfold bind at 1. unfold get_fd at 1. unfold bind at 1. unfold syscall at 1.
    rewrite Hseek. cbn [int_of]. rewrite Hl0, Hl1.
    unfold locked_block, FileAppender_append, cerr, bind, syscall, emit, ret.
    cbn [st_fd st_errno st_tick st_trace]. rewrite Hopen. cbn.
    rewrite <- !app_assoc. reflexivity.
  - intros l e Hopen Hflock. unfold _append.
    unfold bind at 1. unfold get_fd at 1. unfold bind at 1. unfold syscall at 1.
    rewrite Hseek. cbn [int_of]. rewrite Hl0, Hl1.
    unfold locked_block, FileAppender_append, cerr, bind, syscall, emit, ret.
    cbn [st_fd st_errno st_tick st_trace]. rewrite Hopen. cbn [int_of].
    rewrite (proj2 (Z.ltb_ge (Z.of_N l) 0)) by lia.
    cbn [st_fd st_errno st_tick st_trace]. rewrite Hflock.
    cbn [is_failed st_fd st_errno st_tick st_trace fst snd].
    rewrite Z.geb_leb, (proj2 (Z.leb_le 0 (Z.of_N l))) by lia.
    cbn [st_fd st_errno st_tick st_trace].
    destruct (os_close env (S (S (S (st_tick st)))) (Z.of_N l)) as [e'|[]];
      cbn [is_failed st_fd st_errno st_tick st_trace];
      (eexists; split; [reflexivity|]; split; [reflexivity|]);
      cbn [st_trace List.app]; rewrite <- !app_assoc; reflexivity.
Qed.

Lemma append_lock_unavailable_witness :
  _append Fixture.env_lock_fails (Scenario.app None) Scenario.st0
  = (Ok tt,
     mk_state 3 13 2
       [ev_lseek 3; ev_open (str "./.foo.log.lock");
        ev_cerr (Could_not_open_lock_file (str "./.foo.log.lock"));
        ev_base_append]).
Proof.
  refine (proj1 (append_lock_unavailable Fixture.env_lock_fails
                   (Scenario.app None) Scenario.st0 10%N eq_refl _)
            13%positive eq_refl).
  cbn. lia.
Defined.

(** X19. At the size limit, with the lock, when the file opened again is
    below the limit (a peer has rotated): [_append] closes [_fd], opens
    [_fileName] again, sees the new size, and does not rotate; it releases
    the lock, closes the lock descriptor and writes. The calls are, in
    order, those listed. *)
Theorem append_after_peer_rotation (env : Env) (app : appender) (st : state)
  (n l : N) :
  let t := st_tick st in
  let fd' := int_of (os_open env (4 + t) (_fileName app)) in
  os_lseek env t (st_fd st) = done n ->
  (_maxFileSize app <= Z.of_N n)%Z ->
  (0 <= st_fd st)%Z ->
  os_open env (1 + t) (_lockFilePath app) = done l ->
  os_flock env (2 + t) (Z.of_N l) LOCK_EX = done tt ->
  (int_of (os_lseek env (5 + t) fd') < 0)%Z
  \/ (int_of (os_lseek env (5 + t) fd') < _maxFileSize app)%Z ->
  exists st' new,
    _append env app st = (Ok tt, st') /\
    st_fd st' = fd' /\
    st_trace st' = st_trace st ++ new /\
    filter is_call new =
      [ev_lseek (st_fd st); ev_open (_lockFilePath app);
       ev_flock (Z.of_N l) LOCK_EX; ev_close (st_fd st);
       ev_open (_fileName app); ev_lseek fd';
       ev_flock (Z.of_N l) LOCK_UN; ev_close (Z.of_N l); ev_base_append].
Proof.
  intros t fd' Hseek Hmax Hfd Hopen Hflock Hoff. subst t.
  cbn [Nat.add] in *.
  assert (Hl0 : (Z.of_N n <? 0)%Z = false) by (apply Z.ltb_ge; lia).
  assert (Hl1 : (Z.of_N n >=? _maxFileSize app)%Z = true)
    by (rewrite Z.geb_leb; apply Z.leb_le; lia).
  assert (Hfd0 : (st_fd st >=? 0)%Z = true)
    by (rewrite Z.geb_leb; apply Z.leb_le; lia).
  assert (Hlk : (Z.of_N l <? 0)%Z = false) by (apply Z.ltb_ge; lia).
  assert (Hlk' : (Z.of_N l >=? 0)%Z = true)
    by (rewrite Z.geb_leb; apply Z.leb_le; lia).
  set (o2 := int_of (os_lseek env (S (S (S (S (S (st_tick st)))))) fd')) in *.
  assert (Hno : (o2 <? 0)%Z = false -> (o2 >=? _maxFileSize app)%Z = false).
  { intros E. apply Z.ltb_ge in E. rewrite Z.geb_leb. apply Z.leb_gt. lia. }
  unfold _append.
  unfold bind at 1. unfold get_fd at 1. unfold bind at 1. unfold syscall at 1.
  rewrite Hseek. cbn [int_of]. rewrite Hl0, Hl1.
  unfold locked_block, reopen, FileAppender_append, cerr, bind, syscall, emit,
    ret, get_fd, set_fd.
  cbn [st_fd st_errno st_tick st_trace]. rewrite Hopen. cbn [int_of].
  rewrite Hlk. cbn [st_fd st_errno st_tick st_trace]. rewrite Hflock.
  cbn [is_failed st_fd st_errno st_tick st_trace]. rewrite Hfd0.
  cbn [st_fd st_errno st_tick st_trace].
  destruct (os_close env (S (S (S (st_tick st)))) (st_fd st)) as [e1|[]].
  all: cbn [is_failed st_fd st_errno st_tick st_trace]; fold fd'.
  all: destruct (is_failed (os_open env (S (S (S (S (st_tick st)))))
                                    (_fileName app)));
    cbn [st_fd st_errno st_tick st_trace]; fold o2.
  all: destruct (o2 <? 0)%Z eqn:E5; [|rewrite (Hno eq_refl)];
    cbn [st_fd st_errno st_tick st_trace fst snd]; rewrite Hlk';
    cbn [st_fd st_errno st_tick st_trace].
  all: destruct (os_flock env _ (Z.of_N l) LOCK_UN) as [e3|[]];
    cbn [is_failed st_fd st_errno st_tick st_trace].
  all: destruct (os_close env _ (Z.of_N l)) as [e4|[]];
    cbn [is_failed st_fd st_errno st_tick st_trace].
  all: eexists; eexists; split; [reflexivity|]; split; [reflexivity|];
    split; [cbn [st_trace]; rewrite <- !app_assoc; reflexivity|];
    cbn [List.app filter is_call]; reflexivity.
Qed.

Lemma append_after_peer_rotation_witness :
  exists st' new,
    _append Fixture.env_peer_rotated (Scenario.app None) Scenario.st0
    = (Ok tt, st') /\
    st_fd st' = 5%Z /\
    st_trace st' = [] ++ new /\
    filter is_call new =
      [ev_lseek 3; ev_open (str "./.foo.log.lock"); ev_flock 5 LOCK_EX;
       ev_close 3; ev_open (str "foo.log"); ev_lseek 5; ev_flock 5 LOCK_UN;
       ev_close 5; ev_base_append].
Proof.
  refine (append_after_peer_rotation Fixture.env_peer_rotated
            (Scenario.app None) Scenario.st0 10%N 5%N eq_refl _ _ eq_refl
            eq_refl _).
  - cbn. lia.
  - cbn. lia.
  - right. cbn. lia.
Defined.

Lemma append_completes_witness :
  exists st' tr,
    _append (Scenario.env None false None) (Scenario.app None) Scenario.st0
    = (Ok tt, st') /\ st_trace st' = tr ++ [ev_base_append].
Proof.
  refine (append_completes (Scenario.env None false None) (Scenario.app None)
            _ _ Scenario.st0).
  - intros n p. reflexivity.
  - intros t. cbn. discriminate.
Defined.

(** ** Thread identifiers *)

Lemma digits_no_colon ds : all_of isdigit ds = true -> ~ In ":"%char ds.
Proof.
  unfold all_of. intros H Hin.
  pose proof (proj1 (forallb_forall _ _) H _ Hin) as Hd. vm_compute in Hd.
  discriminate.
Qed.

Lemma to_string_no_colon n : ~ In ":"%char (to_string n).
Proof.
  unfold to_string. destruct (n <? 0)%Z eqn:E.
  - apply Z.ltb_lt in E. intros [H|H]; [discriminate|].
    exact (digits_no_colon _ (proj1 (to_digits_spec (- n) ltac:(lia))) H).
  - apply Z.ltb_ge in E.
    exact (digits_no_colon _ (proj1 (to_digits_spec n E))).
Qed.

Lemma app_colon_inj (a a' b b' : cstring) :
  ~ In ":"%char a -> ~ In ":"%char a' ->
  a ++ ":"%char :: b = a' ++ ":"%char :: b' -> a = a' /\ b = b'.
Proof.
  revert a'. induction a as [|c a IH]; intros [|c' a'] Ha Ha' H; cbn in H.
  - injection H as <-. auto.
  - injection H as <- _. exfalso. apply Ha'. now left.
  - injection H as -> _. exfalso. apply Ha. now left.
  - injection H as <- H.
    destruct (IH a') as [-> ->]; auto.
    + intros Hi. apply Ha. now right.
    + intros Hi. apply Ha'. now right.
Qed.

Lemma to_digits_inj a b :
  (0 <= a)%Z -> (0 <= b)%Z -> to_digits a = to_digits b -> a = b.
Proof.
  intros Ha Hb H.
  rewrite <- (proj1 (proj2 (to_digits_spec a Ha))),
          <- (proj1 (proj2 (to_digits_spec b Hb))), H.
  reflexivity.
Qed.

Lemma to_digits_head_not_minus n ds :
  (0 <= n)%Z -> to_digits n <> "-"%char :: ds.
Proof.
  intros Hn H. pose proof (proj1 (to_digits_spec n Hn)) as Hd.
  rewrite H in Hd. unfold all_of in Hd. cbn [forallb] in Hd.
  apply andb_true_iff in Hd. destruct Hd as [Hd _]. vm_compute in Hd.
  discriminate.
Qed.

Lemma to_string_inj a b : to_string a = to_string b -> a = b.
Proof.
  unfold to_string.
  destruct (a <? 0)%Z eqn:Ea, (b <? 0)%Z eqn:Eb; intros H;
    rewrite ?Z.ltb_lt, ?Z.ltb_ge in Ea, Eb.
  - injection H as H. apply to_digits_inj in H; lia.
  - symmetry in H. apply to_digits_head_not_minus in H; [contradiction|lia].
  - apply to_digits_head_not_minus in H; [contradiction|lia].
  - apply to_digits_inj in H; lia.
Qed.

Lemma to_string_length n k :
  (Z.abs n < 10 ^ Z.of_nat k)%Z -> (1 <= k)%nat ->
  (length (to_string n) <= S k)%nat.
Proof.
  intros Hn Hk. unfold to_string. destruct (n <? 0)%Z eqn:E.
  - apply Z.ltb_lt in E. cbn [length].
    pose proof (proj1 (proj2 (proj2 (proj2 (to_digits_spec (- n) ltac:(lia)))))
                  k ltac:(lia) Hk). lia.
  - apply Z.ltb_ge in E.
    pose proof (proj1 (proj2 (proj2 (proj2 (to_digits_spec n E))))
                  k ltac:(lia) Hk). lia.
Qed.

Lemma getThreadId_whole pid tid :
  (- 2 ^ 31 <= pid < 2 ^ 31)%Z -> (- 2 ^ 63 <= tid < 2 ^ 63)%Z ->
  getThreadId pid tid = to_string pid ++ ":"%char :: to_string tid.
Proof.
  intros Hp Ht. unfold getThreadId. apply firstn_all2.
  rewrite length_app. cbn [length].
  pose proof (to_string_length pid 10 ltac:(cbn; lia) ltac:(lia)).
  pose proof (to_string_length tid 19 ltac:(cbn; lia) ltac:(lia)).
  lia.
Qed.

(** X21. For a process id that is an [int] and a thread id that is a
    [long], the 42 bytes of [getThreadId] are enough, so that the result is
    the two numbers in decimal with a colon between them, and two threads
    have the same identifier only if they have the same process id and the
    same thread id. *)
Theorem getThreadId_identifies_the_thread (pid tid pid' tid' : Z) :
  (- 2 ^ 31 <= pid < 2 ^ 31)%Z -> (- 2 ^ 63 <= tid < 2 ^ 63)%Z ->
  (- 2 ^ 31 <= pid' < 2 ^ 31)%Z -> (- 2 ^ 63 <= tid' < 2 ^ 63)%Z ->
  getThreadId pid tid = to_string pid ++ ":"%char :: to_string tid /\
  (getThreadId pid tid = getThreadId pid' tid' -> pid = pid' /\ tid = tid').
Proof.
  intros Hp Ht Hp' Ht'. split; [apply getThreadId_whole; assumption|].
  rewrite !getThreadId_whole by assumption. intros H.
  apply app_colon_inj in H; try apply to_string_no_colon.
  destruct H as [H1 H2]. split; apply to_string_inj; assumption.
Qed.

Lemma getThreadId_identifies_the_thread_witness :
  getThreadId 4242 (-9223372036854775808)
  = str "4242:-9223372036854775808" /\
  (getThreadId 4242 (-9223372036854775808) = getThreadId 4242 7 ->
   4242%Z = 4242%Z /\ (-9223372036854775808)%Z = 7%Z).
Proof.
  apply (getThreadId_identifies_the_thread 4242 (-9223372036854775808) 4242 7);
    vm_compute; split; congruence.
Defined.
